(** * go-tarantool: the connection engine and the pool's routing rule

    A shallow embedding of the connection engine of package [tarantool]
    (type [Connection], [Connect], [Close], [dial], [auth],
    [writeAuthRequest], [readAuthResponse], [createConnection],
    [closeConnection], one turn of the [reader] loop, [write], [read],
    [nextRequestId]), a model of the routing rule of the connection pool,
    and the properties the specification states about them.

    Conventions.
    - Go's [error] is a message ([string]); [nil] is [None].
    - Go's [int] is taken to be 64 bits wide, [uint32] 32 bits; the
      wrap-around is written out ([int_wrap], [uint32_wrap]).
    - A run-time panic is a result of its own ([Panic msg]).
    - What [conn.mutex] guards is an atomic step of the model.
    - The network is scripted: the world says what each [net.Dial] meets
      and how the peer behind a socket behaves; what the engine did is
      recorded in a trace of events. *)

From Stdlib Require Import ZArith QArith Lia Sorted.
From Stdlib Require Import Strings.Byte.
From stdpp Require Import gmap strings list fin_maps pretty.

Local Open Scope Z_scope.

(** ** Errors and machine integers *)

Definition error := string.

Definition errors_New (msg : string) : error := msg.

(** [io.EOF] and [io.ErrUnexpectedEOF]. *)
Definition io_EOF : error := "EOF"%string.
Definition io_ErrUnexpectedEOF : error := "unexpected EOF"%string.

Definition int_wrap (z : Z) : Z := (z + 2 ^ 63) mod 2 ^ 64 - 2 ^ 63.
Definition int_add (a b : Z) : Z := int_wrap (a + b).
Definition int_shl (a : Z) (k : Z) : Z := int_wrap (Z.shiftl a k).
Definition int_of_byte (b : byte) : Z := Z.of_N (Byte.to_N b).

Definition uint32_wrap (z : Z) : Z := z mod 2 ^ 32.

(** ** io.Reader and the frame reader *)

Module Frame.

(** An [io.Reader] over a stream: the bytes still to come, the error the
    underlying reader reports when they are exhausted ([io.EOF] or a
    network error), and the sizes of the [io.ReadFull] requests made so
    far. *)
Record Reader := mkReader {
  pending : list byte;
  tail_err : error;
  calls : list nat
}.

Definition logged (n : nat) (r : Reader) : Reader :=
  {| pending := pending r; tail_err := tail_err r; calls := calls r ++ [n] |}.

Definition zero_fill (n : nat) (bs : list byte) : list byte :=
  bs ++ replicate (n - length bs)%nat x00%byte.

(** [io.ReadFull(r, buf)] with [len(buf) = n]: the contents of [buf]
    afterwards, the error, and the reader afterwards.  It asks for
    nothing when [n = 0]; a stream that ends early yields [io.EOF] when
    no byte was read, [io.ErrUnexpectedEOF] when some were read before an
    [io.EOF], and the underlying error otherwise. *)
Definition ReadFull (n : nat) (r : Reader) : list byte * option error * Reader :=
  let r1 := logged n r in
  if (n =? 0)%nat then ([], None, r1)
  else if (n <=? length (pending r))%nat then
    (take n (pending r), None,
     {| pending := drop n (pending r); tail_err := tail_err r1; calls := calls r1 |})
  else
    (zero_fill n (pending r),
     Some (match pending r with
           | [] => tail_err r
           | _ :: _ => if String.eqb (tail_err r) io_EOF
                       then io_ErrUnexpectedEOF else tail_err r
           end),
     {| pending := []; tail_err := tail_err r1; calls := calls r1 |}).

(** Modelled from the spec: the constant [PacketLengthBytes], declared
    elsewhere in the package and not under src/; the outer length prefix
    is the 5-byte [uint32] form. *)
Definition PacketLengthBytes : nat := 5.

Definition at_ (lenbuf : list byte) (i : nat) : byte := nth i lenbuf x00%byte.

Definition frame_length (lenbuf : list byte) : Z :=
  int_add
    (int_add
       (int_add (int_shl (int_of_byte (at_ lenbuf 1)) 24)
                (int_shl (int_of_byte (at_ lenbuf 2)) 16))
       (int_shl (int_of_byte (at_ lenbuf 3)) 8))
    (int_of_byte (at_ lenbuf 4)).

(** [func read(r io.Reader) (response []byte, err error)]. *)
Definition read (r : Reader) : list byte * option error * Reader :=
  let '(lenbuf, err, r1) := ReadFull PacketLengthBytes r in
  match err with
  | Some e => ([], Some e, r1)
  | None =>
    if negb (Byte.eqb (at_ lenbuf 0) xce%byte) then
      ([], Some (errors_New "Wrong reponse header"), r1)
    else
      let length := frame_length lenbuf in
      if length =? 0 then
        ([], Some (errors_New "Response should not be 0 length"), r1)
      else
        ReadFull (Z.to_nat length) r1
  end.

(** The big-endian value of four bytes. *)
Definition BE32 (b1 b2 b3 b4 : byte) : Z :=
  int_of_byte b1 * 2 ^ 24 + int_of_byte b2 * 2 ^ 16
  + int_of_byte b3 * 2 ^ 8 + int_of_byte b4.

End Frame.

(** ** The world outside the connection *)

(** A result or a run-time panic. *)
Inductive Res (A : Type) : Type :=
| Ok (a : A)
| Panic (msg : string).
Arguments Ok {A} a.
Arguments Panic {A} msg.

Inductive chan_state := ChanOpen | ChanClosed.

(** Modelled from the spec: the type [Response], declared elsewhere in
    the package and not under src/; it carries the response code, the
    request id and the bytes not decoded yet. *)
Record Response := mkResponse {
  RequestId : Z;
  Code : Z;
  buf : list byte
}.

(** [Response{buf: smallBuf{b: resp_bytes}}]. *)
Definition Response_of (resp_bytes : list byte) : Response :=
  {| RequestId := 0; Code := 0; buf := resp_bytes |}.

(** A [*Future] points to a cell of the heap.  The engine uses three of
    its fields: the response [resp], the error [err] and the ready
    channel [c], which is closed to complete the future. *)
Record Future := mkFuture {
  resp : option Response;
  err : option error;
  c : chan_state
}.

(** What [bufio.Writer.Write] returns: everything written, or [n] bytes
    (fewer than asked) with an error. *)
Inductive WriteOutcome :=
| WriteAll
| WriteFails (n : nat) (e : error).

(** How the peer behind a freshly dialed socket behaves. *)
Record Remote := mkRemote {
  rm_first_read : error + nat;  (* [connection.Read]: an error, or how many bytes it delivers *)
  rm_input : list byte;         (* the bytes the peer sends *)
  rm_tail : error;              (* the read error once they are exhausted *)
  rm_write : WriteOutcome;
  rm_flush : option error;
  rm_close : option error
}.

Record Sock := mkSock {
  sk_remote : Remote;
  sk_reader : Frame.Reader;   (* the input not consumed yet *)
  sk_open : bool
}.

Inductive Goroutine := GoWriter | GoReader.

Inductive Event :=
| EvDial (a : string)
| EvSetNoDelay (s : nat)
| EvRead (s : nat) (n : nat)
| EvReadPacket (s : nat)
| EvWrite (s : nat) (data : list byte)
| EvFlush (s : nat)
| EvClose (s : nat)
| EvGo (g : Goroutine)
| EvLog (fmt : string) (arg : Z)
| EvSleep (d : Z).

Record World := mkWorld {
  futures : gmap nat Future;           (* the heap of futures *)
  socks : gmap nat Sock;               (* the sockets dialed so far *)
  network : list (error + Remote);     (* what the next calls of [net.Dial] meet *)
  trace : list Event
}.

Definition M (A : Type) : Type := World -> Res (A * World).

Definition ret {A} (a : A) : M A := fun wd => Ok (a, wd).

Definition bind {A B} (m : M A) (k : A -> M B) : M B :=
  fun wd => match m wd with
            | Ok (a, wd') => k a wd'
            | Panic msg => Panic msg
            end.

Definition panic {A} (msg : string) : M A := fun _ => Panic msg.

Declare Scope go_scope.
Delimit Scope go_scope with go.
Notation "'run' x <- m ;; k" := (bind m (fun x => k))
  (at level 10, x pattern, m at level 99, k at level 200,
   format "'[v' 'run'  x  <-  m  ;; '/' k ']'") : go_scope.
Local Open Scope go_scope.

Definition add_event (e : Event) (wd : World) : World :=
  {| futures := futures wd; socks := socks wd;
     network := network wd; trace := trace wd ++ [e] |}.

Definition emit (e : Event) : M unit := fun wd => Ok (tt, add_event e wd).

Definition set_futures (fs : gmap nat Future) (wd : World) : World :=
  {| futures := fs; socks := socks wd; network := network wd; trace := trace wd |}.

Definition set_socks (ss : gmap nat Sock) (wd : World) : World :=
  {| futures := futures wd; socks := ss; network := network wd; trace := trace wd |}.

Definition nil_deref : string := "invalid memory address or nil pointer dereference".

(** [fut.err = neterr]. *)
Definition store_err (fut : nat) (e : error) : M unit :=
  fun wd => match futures wd !! fut with
            | Some f => Ok (tt, set_futures
                (<[fut := {| resp := resp f; err := Some e; c := c f |}]> (futures wd)) wd)
            | None => Panic nil_deref
            end.

(** [fut.resp = resp]. *)
Definition store_resp (fut : nat) (rs : Response) : M unit :=
  fun wd => match futures wd !! fut with
            | Some f => Ok (tt, set_futures
                (<[fut := {| resp := Some rs; err := err f; c := c f |}]> (futures wd)) wd)
            | None => Panic nil_deref
            end.

(** [close(fut.c)]: closing a closed channel panics. *)
Definition close_chan (fut : nat) : M unit :=
  fun wd => match futures wd !! fut with
            | Some f =>
              match c f with
              | ChanOpen => Ok (tt, set_futures
                  (<[fut := {| resp := resp f; err := err f; c := ChanClosed |}]> (futures wd)) wd)
              | ChanClosed => Panic "close of closed channel"
              end
            | None => Panic nil_deref
            end.

(** [net.Dial("tcp", addr)]: the next entry of [network] decides; the new
    socket gets a number not in use. *)
Definition net_Dial (a : string) : M (error + nat) :=
  fun wd =>
    let wd1 := {| futures := futures wd; socks := socks wd;
                  network := tail (network wd); trace := trace wd ++ [EvDial a] |} in
    match network wd with
    | [] => Ok (inl "dial tcp: connection refused"%string, wd1)
    | inl e :: _ => Ok (inl e, wd1)
    | inr rm :: _ =>
      let s : nat := fresh (dom (socks wd)) in
      Ok (inr s, set_socks
        (<[s := {| sk_remote := rm;
                   sk_reader := Frame.mkReader (rm_input rm) (rm_tail rm) [];
                   sk_open := true |}]> (socks wd)) wd1)
    end.

(** [connection.Read(buf)] with [len(buf) = n], the first read from the
    socket: it delivers no more bytes than it is asked for and than there
    are, and leaves the rest of [buf] zero. *)
Definition conn_Read (s : nat) (n : nat) : M (list byte * option error) :=
  fun wd =>
    match socks wd !! s with
    | None => Panic nil_deref
    | Some sk =>
      let wd1 := (add_event (EvRead s n) wd) in
      match rm_first_read (sk_remote sk) with
      | inl e => Ok ((replicate n x00%byte, Some e), wd1)
      | inr k =>
        let got := take (min k n) (Frame.pending (sk_reader sk)) in
        let rd := sk_reader sk in
        Ok ((Frame.zero_fill n got, None), set_socks
          (<[s := {| sk_remote := sk_remote sk;
                     sk_reader := Frame.mkReader (drop (length got) (Frame.pending rd))
                                    (Frame.tail_err rd) (Frame.calls rd);
                     sk_open := sk_open sk |}]> (socks wd)) wd1)
      end
    end.

(** [read(r)] on the buffered reader of socket [s]. *)
Definition read (s : nat) : M (list byte * option error) :=
  fun wd =>
    match socks wd !! s with
    | None => Panic nil_deref
    | Some sk =>
      let '(response, e, rd) := Frame.read (sk_reader sk) in
      Ok ((response, e), set_socks
        (<[s := {| sk_remote := sk_remote sk; sk_reader := rd; sk_open := sk_open sk |}]>
           (socks wd))
        (add_event (EvReadPacket s) wd))
    end.

(** [w.Write(data)] on the buffered writer of socket [s]. *)
Definition w_Write (s : nat) (data : list byte) : M (nat * option error) :=
  fun wd =>
    match socks wd !! s with
    | None => Panic nil_deref
    | Some sk =>
      let wd1 := (add_event (EvWrite s data) wd) in
      match rm_write (sk_remote sk) with
      | WriteAll => Ok ((length data, None), wd1)
      | WriteFails n e => Ok ((min n (length data), Some e), wd1)
      end
    end.

(** [w.Flush()]. *)
Definition w_Flush (s : nat) : M (option error) :=
  fun wd =>
    match socks wd !! s with
    | None => Panic nil_deref
    | Some sk =>
      Ok (rm_flush (sk_remote sk),
          (add_event (EvFlush s) wd))
    end.

(** [connection.Close()]. *)
Definition sock_Close (s : nat) : M (option error) :=
  fun wd =>
    match socks wd !! s with
    | None => Panic nil_deref
    | Some sk =>
      Ok (rm_close (sk_remote sk), set_socks
        (<[s := {| sk_remote := sk_remote sk; sk_reader := sk_reader sk; sk_open := false |}]>
           (socks wd))
        (add_event (EvClose s) wd))
    end.


(** ** Requests, and the functions defined elsewhere in the package *)

(** The values [writeAuthRequest] puts into a request body. *)
Local Unset Elimination Schemes.
Inductive Value :=
| VString (s : string)
| VArray (items : list Value).
Local Set Elimination Schemes.

Record Request := mkRequest {
  requestId_of : Z;
  requestCode : Z;
  body : gmap Z Value
}.

Definition set_body (k : Z) (v : Value) (rq : Request) : Request :=
  {| requestId_of := requestId_of rq; requestCode := requestCode rq;
     body := <[k := v]> (body rq) |}.

(** Modelled from the spec: the constants [AuthRequest], [KeyTuple] and
    [KeyUserName], declared elsewhere in the package and not under src/
    (opcode AUTH = 7, key 0x21 = tuple, key 0x23 = user name). *)
Definition AuthRequest : Z := 7.
Definition KeyTuple : Z := 0x21.
Definition KeyUserName : Z := 0x23.

(** The functions the engine calls and other files of the package
    define ([scramble], [NewRequest], [pack], [decodeHeader],
    [decodeBody]), and the order in which [range] visits a map, which Go
    leaves open.  [NewRequest] receives the connection's request-id
    counter and gives back its new value, since it may draw an id. *)
Class Package := {
  scramble : string -> string -> list byte * option error;
  NewRequest : Z -> Z -> Request * Z;
  pack : Request -> list byte * option error;
  decodeHeader : Response -> Response * option error;
  decodeBody : Response -> Response * option error;
  range_order : gmap Z nat -> list (Z * nat);
  range_order_perm : forall m, range_order m ≡ₚ map_to_list m
}.

(** ** The connection *)

Module Greeting.
Record t := mk { version : string; auth : string }.
End Greeting.

Record Opts := mkOpts {
  Timeout : Z;
  Reconnect : Z;
  User : string;
  Pass : string
}.

(** [type Connection struct]; [connection], [r] and [w] hold the number of
    the socket they wrap, [requests] maps a request id to a [*Future],
    [packets] is the queue of the buffered channel and [control] the state
    of the control channel.  The mutex has no state of its own here. *)
Record Connection := mkConnection {
  addr : string;
  connection : option nat;
  r : option nat;
  w : option nat;
  requestId : Z;
  Greeting : Greeting.t;
  requests : gmap Z nat;
  packets : list (list byte);
  control : chan_state;
  opts : Opts;
  closed : bool
}.

Definition set_socket (s rd wr : option nat) (cn : Connection) : Connection :=
  {| addr := addr cn; connection := s; r := rd; w := wr;
     requestId := requestId cn; Greeting := Greeting cn; requests := requests cn;
     packets := packets cn; control := control cn; opts := opts cn;
     closed := closed cn |}.

Definition set_requestId (v : Z) (cn : Connection) : Connection :=
  {| addr := addr cn; connection := connection cn; r := r cn; w := w cn;
     requestId := v; Greeting := Greeting cn; requests := requests cn;
     packets := packets cn; control := control cn; opts := opts cn;
     closed := closed cn |}.

Definition set_Greeting (g : Greeting.t) (cn : Connection) : Connection :=
  {| addr := addr cn; connection := connection cn; r := r cn; w := w cn;
     requestId := requestId cn; Greeting := g; requests := requests cn;
     packets := packets cn; control := control cn; opts := opts cn;
     closed := closed cn |}.

Definition set_requests (m : gmap Z nat) (cn : Connection) : Connection :=
  {| addr := addr cn; connection := connection cn; r := r cn; w := w cn;
     requestId := requestId cn; Greeting := Greeting cn; requests := m;
     packets := packets cn; control := control cn; opts := opts cn;
     closed := closed cn |}.

Definition set_control (st : chan_state) (cn : Connection) : Connection :=
  {| addr := addr cn; connection := connection cn; r := r cn; w := w cn;
     requestId := requestId cn; Greeting := Greeting cn; requests := requests cn;
     packets := packets cn; control := st; opts := opts cn;
     closed := closed cn |}.

Definition set_closed (b : bool) (cn : Connection) : Connection :=
  {| addr := addr cn; connection := connection cn; r := r cn; w := w cn;
     requestId := requestId cn; Greeting := Greeting cn; requests := requests cn;
     packets := packets cn; control := control cn; opts := opts cn;
     closed := b |}.

(** [func Connect(addr string, opts Opts) (conn *Connection, err error)]:
    the two loops are started, nothing else happens. *)
Definition Connect (a : string) (o : Opts) : M (Connection * option error) :=
  let conn := {| addr := a; connection := None; r := None; w := None;
                 requestId := 0;
                 Greeting := Greeting.mk "" "";
                 requests := ∅; packets := []; control := ChanOpen;
                 opts := o; closed := false |} in
  run _ <- emit (EvGo GoWriter) ;;
  run _ <- emit (EvGo GoReader) ;;
  ret (conn, None).

(** [func write(connection io.Writer, data []byte) (err error)]. *)
Definition write (wr : nat) (data : list byte) : M (option error) :=
  run (l, e) <- w_Write wr data ;;
  match e with
  | Some _ => ret e
  | None =>
    if negb (l =? length data)%nat then panic "Wrong length writed"
    else ret None
  end.

(** [func (conn *Connection) nextRequestId() (requestId uint32)]:
    [atomic.AddUint32(&conn.requestId, 1)] gives the new value. *)
Definition nextRequestId (conn : Connection) : Z * Connection :=
  let v := uint32_wrap (requestId conn + 1) in
  (v, set_requestId v conn).

(** The ids that [n] calls of [nextRequestId] return, one after the other
    (each call is one atomic step, whoever makes it). *)
Fixpoint allocate (n : nat) (conn : Connection) : list Z * Connection :=
  match n with
  | O => ([], conn)
  | S n' =>
    let '(v, conn1) := nextRequestId conn in
    let '(vs, conn2) := allocate n' conn1 in
    (v :: vs, conn2)
  end.

Section Engine.
Context `{Package}.

(** [func (conn *Connection) writeAuthRequest(w *bufio.Writer, scramble []byte)]. *)
Definition writeAuthRequest (conn : Connection) (wr : nat) (scr : list byte)
  : M (option error * Connection) :=
  let '(request, counter) := NewRequest (requestId conn) AuthRequest in
  let conn := set_requestId counter conn in
  let request := set_body KeyUserName (VString (User (opts conn))) request in
  let request := set_body KeyTuple
    (VArray [VString "chap-sha1"; VString (String.string_of_list_byte scr)]) request in
  match pack request with
  | (_, Some e) => ret (Some (errors_New ("auth: pack error " +:+ e)), conn)
  | (packet, None) =>
    run e <- write wr packet ;;
    match e with
    | Some e => ret (Some (errors_New ("auth: write error " +:+ e)), conn)
    | None =>
      run e <- w_Flush wr ;;
      match e with
      | Some e => ret (Some (errors_New ("auth: flush error " +:+ e)), conn)
      | None => ret (None, conn)
      end
    end
  end.

(** [func (conn *Connection) readAuthResponse(r io.Reader)]. *)
Definition readAuthResponse (rd : nat) : M (option error) :=
  run (resp_bytes, e) <- read rd ;;
  match e with
  | Some e => ret (Some (errors_New ("auth: read error " +:+ e)))
  | None =>
    let '(rs, e) := decodeHeader (Response_of resp_bytes) in
    match e with
    | Some e => ret (Some (errors_New ("auth: decode response header error " +:+ e)))
    | None =>
      let '(rs, e) := decodeBody rs in
      match e with
      | Some e => ret (Some (errors_New ("auth: decode response body error " +:+ e)))
      | None => ret None
      end
    end
  end.

(** [func (conn *Connection) auth(r io.Reader, w *bufio.Writer)]. *)
Definition auth (conn : Connection) (rd wr : option nat)
  : M (option error * Connection) :=
  if String.eqb (User (opts conn)) "" then ret (None, conn)
  else
    match rd, wr with
    | Some rd, Some wr =>
      if String.eqb (Greeting.auth (Greeting conn)) "" then
        ret (Some (errors_New "auth: empty greeting"), conn)
      else
        match scramble (Greeting.auth (Greeting conn)) (Pass (opts conn)) with
        | (_, Some e) =>
          ret (Some (errors_New ("auth: scrambling failure " +:+ e)), conn)
        | (scr, None) =>
          run (e, conn) <- writeAuthRequest conn wr scr ;;
          match e with
          | Some _ => ret (e, conn)
          | None =>
            run e <- readAuthResponse rd ;;
            ret (e, conn)
          end
        end
    | _, _ => ret (Some (errors_New "auth: reader/writer not ready"), conn)
    end.

(** [func (conn *Connection) dial() (err error)]. *)
Definition dial (conn : Connection) : M (option error * Connection) :=
  run d <- net_Dial (addr conn) ;;
  match d with
  | inl e => ret (Some e, conn)
  | inr s =>
    run _ <- emit (EvSetNoDelay s) ;;
    let rd := Some s in
    let wr := Some s in
    run (greeting, e) <- conn_Read s 128 ;;
    match e with
    | Some _ =>
      run _ <- sock_Close s ;;
      ret (e, conn)
    | None =>
      let conn := set_Greeting
        (Greeting.mk (String.string_of_list_byte (take 64 greeting))
                     (String.string_of_list_byte (take 44 (drop 64 greeting)))) conn in
      run (e, conn) <- auth conn rd wr ;;
      match e with
      | Some _ =>
        run _ <- sock_Close s ;;
        ret (e, conn)
      | None => ret (None, set_socket (Some s) rd wr conn)
      end
    end
  end.

(** [func (conn *Connection) createConnection() (r io.Reader, w *bufio.Writer)].
    The loop may go on for ever; [fuel] bounds the number of dials, and
    the outer [None] says it ran out. *)
Fixpoint createConnection (fuel : nat) (conn : Connection)
  : M (option (option nat * option nat) * Connection) :=
  match connection conn with
  | Some _ => ret (Some (r conn, w conn), conn)
  | None =>
    if closed conn then ret (Some (None, None), conn)
    else
      match fuel with
      | O => ret (None, conn)
      | S fuel' =>
        run (e, conn) <- dial conn ;;
        match e with
        | None => ret (Some (r conn, w conn), conn)
        | Some _ =>
          if 0 <? Reconnect (opts conn) then
            run _ <- emit (EvSleep (Reconnect (opts conn))) ;;
            createConnection fuel' conn
          else ret (Some (None, None), conn)
        end
      end
  end.

(** The body of [for rid, fut := range conn.requests] in
    [closeConnection], over the entries in the order they are visited. *)
Fixpoint fail_requests (neterr : error) (entries : list (Z * nat)) (conn : Connection)
  : M Connection :=
  match entries with
  | [] => ret conn
  | (rid, fut) :: rest =>
    run _ <- store_err fut neterr ;;
    run _ <- close_chan fut ;;
    fail_requests neterr rest (set_requests (delete rid (requests conn)) conn)
  end.

(** [func (conn *Connection) closeConnection(neterr error) (err error)]. *)
Definition closeConnection (neterr : error) (conn : Connection)
  : M (option error * Connection) :=
  match connection conn with
  | None => ret (None, conn)
  | Some s =>
    run e <- sock_Close s ;;
    let conn := set_socket None None None conn in
    run conn <- fail_requests neterr (range_order (requests conn)) conn ;;
    ret (e, conn)
  end.

(** [close(conn.control)]. *)
Definition close_control (conn : Connection) : M Connection :=
  match control conn with
  | ChanOpen => ret (set_control ChanClosed conn)
  | ChanClosed => panic "close of closed channel"
  end.

(** [func (conn *Connection) Close() (err error)]. *)
Definition Close (conn : Connection) : M (option error * Connection) :=
  let conn := set_closed true conn in
  run conn <- close_control conn ;;
  closeConnection (errors_New "client closed connection") conn.

(** The part of [reader] between [conn.mutex.Lock()] and the end of the
    loop body: hand the response to the future that waits for it. *)
Definition deliver (rs : Response) (conn : Connection) : M Connection :=
  match requests conn !! RequestId rs with
  | Some fut =>
    let conn := set_requests (delete (RequestId rs) (requests conn)) conn in
    run _ <- store_resp fut rs ;;
    run _ <- close_chan fut ;;
    ret conn
  | None =>
    run _ <- emit (EvLog "tarantool: unexpected requestId (%d) in response" (RequestId rs)) ;;
    ret conn
  end.

(** One turn of the loop of [func (conn *Connection) reader()]; [true]
    when the loop goes on, [false] when the goroutine returns.  [None]
    when [createConnection] ran out of fuel. *)
Definition reader_turn (fuel : nat) (conn : Connection) : M (option bool * Connection) :=
  run (rd, conn) <-
    match r conn with
    | Some s => ret (Some (Some s), conn)
    | None =>
      run (rw, conn) <- createConnection fuel conn ;;
      ret (option_map fst rw, conn)
    end ;;
  match rd with
  | None => ret (None, conn)
  | Some None => ret (Some false, conn)
  | Some (Some s) =>
    run (resp_bytes, e) <- read s ;;
    match e with
    | Some e =>
      run (_, conn) <- closeConnection e conn ;;
      ret (Some true, conn)
    | None =>
      let '(rs, e) := decodeHeader (Response_of resp_bytes) in
      match e with
      | Some e =>
        run (_, conn) <- closeConnection e conn ;;
        ret (Some true, conn)
      | None =>
        run conn <- deliver rs conn ;;
        ret (Some true, conn)
      end
    end
  end.

End Engine.

(** ** Notions used in the statements *)

(** What the registry looks like once the entries [l] were deleted. *)
Definition without (l : list (Z * nat)) (m : gmap Z nat) : gmap Z nat :=
  foldl (fun acc e => delete e.1 acc) m l.

(** A future completed with the error [neterr]. *)
Definition failed_with (neterr : error) (fu : Future) : Future :=
  {| resp := resp fu; err := Some neterr; c := ChanClosed |}.

(** Every registered future is in the heap and still pending, and no
    future is registered under two ids. *)
Definition registry_pending (conn : Connection) (wd : World) : Prop :=
  (forall rid f, requests conn !! rid = Some f ->
     exists fu, futures wd !! f = Some fu /\ c fu = ChanOpen) /\
  (forall rid1 rid2 f, requests conn !! rid1 = Some f ->
     requests conn !! rid2 = Some f -> rid1 = rid2).

(** The world after [read] on socket [s], whose reader is then [rd]. *)
Definition after_read (s : nat) (sk : Sock) (rd : Frame.Reader) (wd : World) : World :=
  set_socks (<[s := {| sk_remote := sk_remote sk; sk_reader := rd; sk_open := sk_open sk |}]>
               (socks wd))
            (add_event (EvReadPacket s) wd).

(** A check of [registry_pending] that computes. *)
Definition registry_pendingb (conn : Connection) (wd : World) : bool :=
  forallb (fun e : Z * nat =>
             match futures wd !! e.2 with
             | Some fu => match c fu with ChanOpen => true | ChanClosed => false end
             | None => false
             end) (map_to_list (requests conn))
  && bool_decide (NoDup (map_to_list (requests conn)).*2).

(** The request [writeAuthRequest] packs, for the scramble [scr]. *)
Definition auth_request `{Package} (conn : Connection) (scr : list byte) : Request :=
  set_body KeyTuple (VArray [VString "chap-sha1"; VString (String.string_of_list_byte scr)])
    (set_body KeyUserName (VString (User (opts conn)))
       (NewRequest (requestId conn) AuthRequest).1).

(** The beginning of [dial]: [net.Dial], [SetNoDelay] and the read of the
    greeting; it gives the dial error, or the new socket with the
    128-byte greeting buffer and the error of the read. *)
Definition dial_greeting (conn : Connection)
  : M (error + nat * (list byte * option error)) :=
  run d <- net_Dial (addr conn) ;;
  match d with
  | inl e => ret (inl e)
  | inr s =>
    run _ <- emit (EvSetNoDelay s) ;;
    run g <- conn_Read s 128 ;;
    ret (inr (s, g))
  end.

(** [conn.Greeting.version] and [conn.Greeting.auth] as [dial] sets them. *)
Definition with_greeting (greeting : list byte) (conn : Connection) : Connection :=
  set_Greeting
    (Greeting.mk (String.string_of_list_byte (take 64 greeting))
                 (String.string_of_list_byte (take 44 (drop 64 greeting)))) conn.

Definition sock_is (open : bool) (s : nat) (wd : World) : Prop :=
  exists sk, socks wd !! s = Some sk /\ sk_open sk = open.

(** Two connections that differ at most in the socket fields, the
    greeting and the request-id counter. *)
Definition same_session (c1 c2 : Connection) : Prop :=
  addr c1 = addr c2 /\ requests c1 = requests c2 /\ packets c1 = packets c2 /\
  control c1 = control c2 /\ opts c1 = opts c2 /\ closed c1 = closed c2.

(** A future completed with the response [rs]. *)
Definition fulfilled_with (rs : Response) (fu : Future) : Future :=
  {| resp := Some rs; err := err fu; c := ChanClosed |}.

(** The world once [net.Dial] met the peer [rm] and [SetNoDelay] and the
    read of the greeting were issued on the new socket; [input] is what
    the socket still holds for its buffered reader then. *)
Definition dialed (a : string) (rm : Remote) (input : list byte)
    (net : list (error + Remote)) (wd : World) : World :=
  let s : nat := fresh (dom (socks wd)) in
  {| futures := futures wd;
     socks := <[s := {| sk_remote := rm;
                        sk_reader := Frame.mkReader input (rm_tail rm) [];
                        sk_open := true |}]> (socks wd);
     network := net;
     trace := trace wd ++ [EvDial a; EvSetNoDelay s; EvRead s 128] |}.

(** The world once [connection.Close()] was called on the socket [s],
    which was [sk] until then. *)
Definition hung_up (s : nat) (sk : Sock) (wd : World) : World :=
  set_socks (<[s := {| sk_remote := sk_remote sk; sk_reader := sk_reader sk;
                       sk_open := false |}]> (socks wd))
            (add_event (EvClose s) wd).

(** ** A small instance of the package

    Stand-ins for the functions of the other files, so that the engine
    can be evaluated on concrete inputs: [NewRequest] draws the next id,
    [pack] frames the opcode, [decodeHeader] takes the first byte of the
    response as its request id; [range] visits a map in the order of
    [map_to_list]. *)

Module Sample.

Definition scramble (salt pass : string) : list byte * option error :=
  match salt with
  | EmptyString => ([], Some (errors_New "illegal base64 data"))
  | _ => (String.list_byte_of_string pass, None)
  end.

Definition NewRequest (counter code : Z) : Request * Z :=
  let id := uint32_wrap (counter + 1) in
  (mkRequest id code ∅, id).

Definition pack (rq : Request) : list byte * option error :=
  ([xce; x00; x00; x00; x01; x07]%byte, None).

Definition decodeHeader (rs : Response) : Response * option error :=
  match buf rs with
  | [] => (rs, Some (errors_New "EOF"))
  | b :: rest => (mkResponse (int_of_byte b) 0 rest, None)
  end.

Definition decodeBody (rs : Response) : Response * option error := (rs, None).

#[global] Instance package : Package :=
  Build_Package scramble NewRequest pack decodeHeader decodeBody
                map_to_list (fun m => reflexivity _).

(** A peer that sends a 128-byte greeting and then the bytes [more]. *)
Definition greeting_bytes : list byte :=
  replicate 64 x54%byte ++ replicate 44 x41%byte ++ replicate 20 x00%byte.

Definition peer (more : list byte) : Remote :=
  {| rm_first_read := inr 128%nat; rm_input := greeting_bytes ++ more;
     rm_tail := io_EOF; rm_write := WriteAll; rm_flush := None; rm_close := None |}.

Definition empty_world (net : list (error + Remote)) : World :=
  {| futures := ∅; socks := ∅; network := net; trace := [] |}.

(** A connection on socket 0 with two requests in flight, and the world
    around it: the futures 0 and 1 are pending, the peer has sent [input]. *)
Definition pending_future : Future := {| resp := None; err := None; c := ChanOpen |}.

Definition live_world (input : list byte) : World :=
  {| futures := <[0%nat := pending_future]> (<[1%nat := pending_future]> ∅);
     socks := <[0%nat := {| sk_remote := peer input;
                            sk_reader := Frame.mkReader input io_EOF [];
                            sk_open := true |}]> ∅;
     network := []; trace := [] |}.

Definition live_conn : Connection :=
  {| addr := "127.0.0.1:3301"; connection := Some 0%nat; r := Some 0%nat; w := Some 0%nat;
     requestId := 2; Greeting := Greeting.mk "" "";
     requests := <[1 := 0%nat]> (<[2 := 1%nat]> ∅);
     packets := []; control := ChanOpen;
     opts := {| Timeout := 0; Reconnect := 0; User := ""; Pass := "" |};
     closed := false |}.

(** A connection not dialed yet, for the user "test". *)
Definition user_conn : Connection :=
  {| addr := "127.0.0.1:3301"; connection := None; r := None; w := None;
     requestId := 0; Greeting := Greeting.mk "" "";
     requests := ∅; packets := []; control := ChanOpen;
     opts := {| Timeout := 0; Reconnect := 0; User := "test"; Pass := "secret" |};
     closed := false |}.

(** The world once [peer more] was dialed and its greeting read. *)
Definition greeted_world (more : list byte) : World :=
  {| futures := ∅;
     socks := <[0%nat := {| sk_remote := peer more;
                            sk_reader := Frame.mkReader more io_EOF [];
                            sk_open := true |}]> ∅;
     network := [];
     trace := [EvDial "127.0.0.1:3301"; EvSetNoDelay 0; EvRead 0 128] |}.

Definition guest : Opts := {| Timeout := 0; Reconnect := 0; User := ""; Pass := "" |}.

End Sample.

(** ** The pool's routing rule *)

Module Pool.

(** Modelled from the spec: the pool, whose source is not under src/
    (only its tests are).  The routing modes. *)
Inductive Mode := ANY | RW | RO | PreferRW | PreferRO.

(** Modelled from the spec: the role bit of an instance,
    [ro ∈ {true, false, unknown}], as the last probe observed it. *)
Inductive Role := RoleUnknown | RoleRW | RoleRO.

(** Modelled from the spec: an instance of the pool, with its address,
    whether it is currently connected, and its role bit. *)
Record Instance := mkInstance {
  address : string;
  live : bool;
  role : Role
}.

(** Modelled from the spec: the round-robin cursors, one per mode. *)
Record Cursors := mkCursors {
  cur_any : nat;
  cur_rw : nat;
  cur_ro : nat;
  cur_prefer_rw : nat;
  cur_prefer_ro : nat
}.

(** Modelled from the spec: the pool state. *)
Record ConnectionPool := mkPool {
  instances : list Instance;
  cursors : Cursors
}.

Definition observed_rw (i : Instance) : bool :=
  match role i with RoleRW => true | _ => false end.

Definition observed_ro (i : Instance) : bool :=
  match role i with RoleRO => true | _ => false end.

(** Modelled from the spec: the RW set holds the instances whose last
    role probe observed [ro == false], the RO set those where it observed
    [ro == true]. *)
Definition rw_set (p : ConnectionPool) : list Instance :=
  List.filter observed_rw (instances p).
Definition ro_set (p : ConnectionPool) : list Instance :=
  List.filter observed_ro (instances p).

(** Modelled from the spec: the set of a routing mode.  [ANY]: every
    instance; [RW] (resp. [RO]): the RW (resp. RO) set; [PreferRW] (resp.
    [PreferRO]): that set when it is not empty, the other one
    otherwise. *)
Definition mode_set (mode : Mode) (p : ConnectionPool) : list Instance :=
  match mode with
  | ANY => instances p
  | RW => rw_set p
  | RO => ro_set p
  | PreferRW => match rw_set p with [] => ro_set p | _ :: _ => rw_set p end
  | PreferRO => match ro_set p with [] => rw_set p | _ :: _ => ro_set p end
  end.

(** Modelled from the spec: selection goes over the currently live
    members of the set. *)
Definition eligible (mode : Mode) (p : ConnectionPool) : list Instance :=
  List.filter live (mode_set mode p).

Definition cursor (mode : Mode) (cs : Cursors) : nat :=
  match mode with
  | ANY => cur_any cs
  | RW => cur_rw cs
  | RO => cur_ro cs
  | PreferRW => cur_prefer_rw cs
  | PreferRO => cur_prefer_ro cs
  end.

Definition advance (mode : Mode) (cs : Cursors) : Cursors :=
  match mode with
  | ANY => mkCursors (S (cur_any cs)) (cur_rw cs) (cur_ro cs) (cur_prefer_rw cs) (cur_prefer_ro cs)
  | RW => mkCursors (cur_any cs) (S (cur_rw cs)) (cur_ro cs) (cur_prefer_rw cs) (cur_prefer_ro cs)
  | RO => mkCursors (cur_any cs) (cur_rw cs) (S (cur_ro cs)) (cur_prefer_rw cs) (cur_prefer_ro cs)
  | PreferRW => mkCursors (cur_any cs) (cur_rw cs) (cur_ro cs) (S (cur_prefer_rw cs)) (cur_prefer_ro cs)
  | PreferRO => mkCursors (cur_any cs) (cur_rw cs) (cur_ro cs) (cur_prefer_rw cs) (S (cur_prefer_ro cs))
  end.

(** Modelled from the spec: the errors of the pool.  The two messages for
    [RW] and [RO] are the ones the tests compare with; the other modes
    have no message of their own in the spec and get its third pool
    error. *)
Definition no_instance (mode : Mode) : error :=
  match mode with
  | RW => "Can't find rw instance in pool"
  | RO => "Can't find ro instance in pool"
  | _ => "no active connections"
  end%string.

(** Modelled from the spec: selection is round-robin over the eligible
    instances; the cursor of the mode advances on each selection, whether
    it succeeds or not. *)
Definition getNextConnection (mode : Mode) (p : ConnectionPool)
  : (Instance + error) * ConnectionPool :=
  let set := eligible mode p in
  let p' := mkPool (instances p) (advance mode (cursors p)) in
  match set !! (cursor mode (cursors p) mod length set)%nat with
  | Some i => (inl i, p')
  | None => (inr (no_instance mode), p')
  end.

(** Modelled from the spec: the operation fan-through.  Each pool
    operation picks a connection by mode and delegates to that
    connection's operation; the second component lists the requests
    handed to connections, with the address they went to. *)
Definition Do {Req : Type} (req : Req) (mode : Mode) (p : ConnectionPool)
  : option error * list (string * Req) * ConnectionPool :=
  match getNextConnection mode p with
  | (inl i, p') => (None, [(address i, req)], p')
  | (inr e, p') => (Some e, [], p')
  end.

(** A pool over the given addresses, all connected, each with the
    read-only flag the last probe saw; the cursors at 0. *)
Definition cluster (servers : list (string * bool)) : ConnectionPool :=
  mkPool (List.map (fun sv : string * bool =>
                      mkInstance sv.1 true (if sv.2 then RoleRO else RoleRW)) servers)
         (mkCursors 0 0 0 0 0).

End Pool.

(** ** The writer loop *)

(** How a turn of a loop ends: it goes on, the goroutine returns, or it
    blocks in a [select] with nothing ready. *)
Inductive LoopStep := Continue | Return | Parked.

Definition set_packets (q : list (list byte)) (cn : Connection) : Connection :=
  {| addr := addr cn; connection := connection cn; r := r cn; w := w cn;
     requestId := requestId cn; Greeting := Greeting cn; requests := requests cn;
     packets := q; control := control cn; opts := opts cn;
     closed := closed cn |}.

Section Writer.
Context `{Package}.

(** One turn of the loop of [func (conn *Connection) writer()].  The
    first [select] takes the packet at the head of the queue; with an
    empty queue it flushes the writer, if there is one, and the second
    [select] finds the control channel closed (the goroutine returns) or
    nothing ready (it blocks: no packet arrives within a turn).  A [nil]
    packet is the empty list.  The outer [None] says that
    [createConnection] ran out of fuel. *)
Definition writer_turn (fuel : nat) (conn : Connection) : M (option LoopStep * Connection) :=
  run (sel, conn) <-
    match packets conn with
    | packet :: rest => ret (inr packet, set_packets rest conn)
    | [] =>
      run conn <-
        match w conn with
        | Some s =>
          run e <- w_Flush s ;;
          match e with
          | Some e =>
            run (_, conn) <- closeConnection e conn ;;
            ret conn
          | None => ret conn
          end
        | None => ret conn
        end ;;
      match control conn with
      | ChanClosed => ret (inl Return, conn)
      | ChanOpen => ret (inl Parked, conn)
      end
    end ;;
  match sel with
  | inl step => ret (Some step, conn)
  | inr [] => ret (Some Return, conn)
  | inr packet =>
    run (wr, conn) <-
      match w conn with
      | Some s => ret (Some (Some s), conn)
      | None =>
        run (rw, conn) <- createConnection fuel conn ;;
        ret (option_map snd rw, conn)
      end ;;
    match wr with
    | None => ret (None, conn)
    | Some None => ret (Some Return, conn)
    | Some (Some s) =>
      run e <- write s packet ;;
      match e with
      | Some e =>
        run (_, conn) <- closeConnection e conn ;;
        ret (Some Continue, conn)
      | None => ret (Some Continue, conn)
      end
    end
  end.

(** Up to [turns] turns of the writer, as long as the loop goes on. *)
Fixpoint writer_run (turns fuel : nat) (conn : Connection)
  : M (option LoopStep * Connection) :=
  match turns with
  | O => ret (Some Continue, conn)
  | S turns' =>
    run (step, conn) <- writer_turn fuel conn ;;
    match step with
    | Some Continue => writer_run turns' fuel conn
    | _ => ret (step, conn)
    end
  end.

End Writer.

(** ** More notions used in the statements *)

(** The socket fields agree: all three are [nil], or all three are the
    same socket, which exists. *)
Definition attached (conn : Connection) (wd : World) : Prop :=
  match connection conn with
  | None => r conn = None /\ w conn = None
  | Some s => r conn = Some s /\ w conn = Some s /\ exists sk, socks wd !! s = Some sk
  end.

Definition add_events (es : list Event) (wd : World) : World :=
  {| futures := futures wd; socks := socks wd;
     network := network wd; trace := trace wd ++ es |}.

(** The log line of the reader for a response nobody waits for. *)
Definition unexpected (rs : Response) : Event :=
  EvLog "tarantool: unexpected requestId (%d) in response" (RequestId rs).

(** The error of a write, if any. *)
Definition write_error (o : WriteOutcome) : option error :=
  match o with
  | WriteAll => None
  | WriteFails _ e => Some e
  end.

Module Wire.

(** The error of [io.ReadFull] on a stream that ends too early, after the
    bytes [got]. *)
Definition short_read (got : list byte) (te : error) : error :=
  match got with
  | [] => te
  | _ :: _ => if String.eqb te io_EOF then io_ErrUnexpectedEOF else te
  end.

Definition byte_of_Z (z : Z) : byte :=
  default x00%byte (Byte.of_N (Z.to_N (z mod 256))).

(** The 4 bytes of a length, most significant first. *)
Definition be32 (n : Z) : list byte :=
  [byte_of_Z (n / 2 ^ 24); byte_of_Z (n / 2 ^ 16); byte_of_Z (n / 2 ^ 8); byte_of_Z n].

(** A frame as it is on the wire: 0xCE, the length, the body. *)
Definition frame (body : list byte) : list byte :=
  xce%byte :: be32 (Z.of_nat (length body)) ++ body.

(** [n] calls of [read] in a row, as the reader loop makes them, up to
    the first error. *)
Fixpoint read_all (n : nat) (rd : Frame.Reader)
  : list (list byte) * option error * Frame.Reader :=
  match n with
  | O => ([], None, rd)
  | S n' =>
    let '(response, e, rd1) := Frame.read rd in
    match e with
    | Some _ => ([], e, rd1)
    | None =>
      let '(rest, e', rd2) := read_all n' rd1 in
      (response :: rest, e', rd2)
    end
  end.

End Wire.

(** The world after a refused dial: one entry of the script is used up. *)
Definition refused (a : string) (net : list (error + Remote)) (wd : World) : World :=
  {| futures := futures wd; socks := socks wd; network := net;
     trace := trace wd ++ [EvDial a] |}.

(** The world after [n] refused dials, each followed by a sleep of [d]. *)
Definition retried (a : string) (d : Z) (n : nat) (net : list (error + Remote))
    (wd : World) : World :=
  {| futures := futures wd; socks := socks wd; network := net;
     trace := trace wd ++ List.concat (replicate n [EvDial a; EvSleep d]) |}.

(** The connection and the world after a dial that met the peer [rm],
    whose first read delivered at most [k] bytes, without authentication. *)
Definition guest_dialed (conn : Connection) (rm : Remote) (k : nat)
    (net : list (error + Remote)) (wd : World) : Connection * World :=
  let s : nat := fresh (dom (socks wd)) in
  let got := take (min k 128) (rm_input rm) in
  (set_socket (Some s) (Some s) (Some s) (with_greeting (Frame.zero_fill 128 got) conn),
   {| futures := futures wd;
      socks := <[s := {| sk_remote := rm;
                         sk_reader := Frame.mkReader (drop (length got) (rm_input rm))
                                        (rm_tail rm) [];
                         sk_open := true |}]> (socks wd);
      network := net;
      trace := trace wd ++ [EvDial (addr conn); EvSetNoDelay s; EvRead s 128] |}).

(** Connections and peers for the runs of the loops. *)
Module Cases.

(** A guest connection, not dialed yet, that reconnects after 100 units. *)
Definition retry_conn : Connection :=
  {| addr := "127.0.0.1:3301"; connection := None; r := None; w := None;
     requestId := 0; Greeting := Greeting.mk "" "";
     requests := ∅; packets := []; control := ChanOpen;
     opts := {| Timeout := 0; Reconnect := 100; User := ""; Pass := "" |};
     closed := false |}.

(** A peer like [Sample.peer] whose writes fail, and one whose flushes fail. *)
Definition deaf_peer (input : list byte) : Remote :=
  {| rm_first_read := inr 128%nat; rm_input := input; rm_tail := io_EOF;
     rm_write := WriteFails 0 "broken pipe"; rm_flush := None; rm_close := None |}.

Definition clogged_peer (input : list byte) : Remote :=
  {| rm_first_read := inr 128%nat; rm_input := input; rm_tail := io_EOF;
     rm_write := WriteAll; rm_flush := Some "broken pipe"%string; rm_close := None |}.

(** The world of [Sample.live_world] with the peer [rm] behind socket 0. *)
Definition world_with (rm : Remote) : World :=
  {| futures := <[0%nat := Sample.pending_future]> (<[1%nat := Sample.pending_future]> ∅);
     socks := <[0%nat := {| sk_remote := rm;
                            sk_reader := Frame.mkReader (rm_input rm) (rm_tail rm) [];
                            sk_open := true |}]> ∅;
     network := []; trace := [] |}.

(** [Sample.live_conn] with the packets [q] in its queue. *)
Definition queued (q : list (list byte)) : Connection := set_packets q Sample.live_conn.

End Cases.

(** ** Package box: the decoders of the responses *)

Module Box.

(** [type Info struct]. *)
Record Info := mkInfo {
  Version : string;
  ID : option Z;
  RO : bool;
  UUID : string;
  PID : Z;
  Status : string;
  LSN : Z
}.

Record InfoResponse := mkInfoResponse { Info_of : Info }.
Record UserExistsResponse := mkUserExistsResponse { Exists_of : bool }.
Record UserPasswordResponse := mkUserPasswordResponse { Hash : string }.

(** The calls the decoders make on [*msgpack.Decoder], a library: a
    decoder state [D] with these operations.  [DecodeInfo] is
    [d.Decode(&i)] for a fresh [Info]. *)
Class Decoder (D : Type) := {
  DecodeArrayLen : D -> Z * option error * D;
  DecodeBool : D -> bool * option error * D;
  DecodeString : D -> string * option error * D;
  DecodeInfo : D -> Info * option error * D
}.

(** [fmt.Errorf("protocol violation; expected 1 array entry, got %d", arrayLen)]. *)
Definition protocol_violation (arrayLen : Z) : error :=
  "protocol violation; expected 1 array entry, got " +:+ pretty arrayLen.

Section Decoders.
Context {D : Type} `{Decoder D}.

(** [func (uer *UserExistsResponse) DecodeMsgpack(d *msgpack.Decoder) error]. *)
Definition UserExistsResponse_DecodeMsgpack (uer : UserExistsResponse) (d : D)
  : UserExistsResponse * option error * D :=
  let '(arrayLen, err, d) := DecodeArrayLen d in
  match err with
  | Some _ => (uer, err, d)
  | None =>
    if negb (arrayLen =? 1) then (uer, Some (protocol_violation arrayLen), d)
    else
      let '(b, err, d) := DecodeBool d in
      (mkUserExistsResponse b, err, d)
  end.

(** [func (upr *UserPasswordResponse) DecodeMsgpack(d *msgpack.Decoder) error]. *)
Definition UserPasswordResponse_DecodeMsgpack (upr : UserPasswordResponse) (d : D)
  : UserPasswordResponse * option error * D :=
  let '(arrayLen, err, d) := DecodeArrayLen d in
  match err with
  | Some _ => (upr, err, d)
  | None =>
    if negb (arrayLen =? 1) then (upr, Some (protocol_violation arrayLen), d)
    else
      let '(h, err, d) := DecodeString d in
      (mkUserPasswordResponse h, err, d)
  end.

(** [func (ir *InfoResponse) DecodeMsgpack(d *msgpack.Decoder) error]. *)
Definition InfoResponse_DecodeMsgpack (ir : InfoResponse) (d : D)
  : InfoResponse * option error * D :=
  let '(arrayLen, err, d) := DecodeArrayLen d in
  match err with
  | Some _ => (ir, err, d)
  | None =>
    if negb (arrayLen =? 1) then (ir, Some (protocol_violation arrayLen), d)
    else
      let '(i, err, d) := DecodeInfo d in
      match err with
      | Some _ => (ir, err, d)
      | None => (mkInfoResponse i, None, d)
      end
  end.

End Decoders.

(** A decoder over a list of tokens, to run the decoders on. *)
Inductive Token := TArray (n : Z) | TBool (b : bool) | TString (s : string) | TInfo (i : Info).

Definition wrong_token : error := "msgpack: unexpected code"%string.

#[global] Instance token_decoder : Decoder (list Token) := {|
  DecodeArrayLen d := match d with
                      | TArray n :: d' => (n, None, d')
                      | _ => (0, Some wrong_token, d)
                      end;
  DecodeBool d := match d with
                  | TBool b :: d' => (b, None, d')
                  | _ => (false, Some wrong_token, d)
                  end;
  DecodeString d := match d with
                    | TString s :: d' => (s, None, d')
                    | _ => (""%string, Some wrong_token, d)
                    end;
  DecodeInfo d := match d with
                  | TInfo i :: d' => (i, None, d')
                  | _ => (mkInfo "" None false "" 0 "" 0, Some wrong_token, d)
                  end
|}.

End Box.

(** ** Package decimal: the range check of [MarshalMsgpack] *)

Module Decimal.

(** The decimal library the package builds on, with exact arithmetic:
    a type of decimals with their value as a rational number, the
    operations [MarshalMsgpack] calls and what they compute, and the BCD
    encoder, which another file of the package defines. *)
Class Lib := {
  T : Type;
  value : T -> Q;
  New : Z -> Z -> T;
  NewFromInt : Z -> T;
  Sub : T -> T -> T;
  Neg : T -> T;
  GreaterThan : T -> T -> bool;
  LessThan : T -> T -> bool;
  String : T -> string;
  encodeStringToBCD : string -> list byte * option error;
  value_New : forall c e, 0 <= e -> (value (New c e) == inject_Z (c * 10 ^ e))%Q;
  value_NewFromInt : forall c, (value (NewFromInt c) == inject_Z c)%Q;
  value_Sub : forall a b, (value (Sub a b) == value a - value b)%Q;
  value_Neg : forall a, (value (Neg a) == - value a)%Q;
  GreaterThan_spec : forall a b, GreaterThan a b = negb (Qle_bool (value a) (value b));
  LessThan_spec : forall a b, LessThan a b = negb (Qle_bool (value b) (value a))
}.

(** The constant the file declares as [decimalPrecision] and uses as
    [DecimalPrecision]. *)
Definition DecimalPrecision : Z := 38.

Definition too_big : error :=
  "msgpack: decimal number is bigger than maximum supported number (10^"
  +:+ pretty DecimalPrecision +:+ " - 1)".

Definition too_small : error :=
  "msgpack: decimal number is lesser than minimum supported number (-10^"
  +:+ pretty DecimalPrecision +:+ " - 1)".

Section Marshal.
Context `{Lib}.

Definition maxSupportedDecimal : T := Sub (New 1 DecimalPrecision) (NewFromInt 1).
Definition minSupportedDecimal : T := Sub (Neg maxSupportedDecimal) (NewFromInt 1).

(** [func (decNum *DecNumber) MarshalMsgpack() ([]byte, error)]. *)
Definition MarshalMsgpack (decNum : T) : list byte * option error :=
  if GreaterThan decNum maxSupportedDecimal then ([], Some too_big)
  else if LessThan decNum minSupportedDecimal then ([], Some too_small)
  else
    let strBuf := String decNum in
    match encodeStringToBCD strBuf with
    | (_, Some e) =>
      ([], Some ("msgpack: can't encode string (" +:+ strBuf
                 +:+ ") to a BCD buffer: " +:+ e))
    | (bcdBuf, None) => (bcdBuf, None)
    end.

End Marshal.

(** The rationals as an instance of the library, to run the check on;
    the encoder is a stand-in that returns the bytes of the string. *)
#[global] Instance rationals : Lib := {|
  T := Q;
  value q := q;
  New c e := inject_Z (c * 10 ^ e);
  NewFromInt c := inject_Z c;
  Sub a b := (a - b)%Q;
  Neg a := (- a)%Q;
  GreaterThan a b := negb (Qle_bool a b);
  LessThan a b := negb (Qle_bool b a);
  String q := pretty (Qnum q);
  encodeStringToBCD str := (String.list_byte_of_string str, None);
  value_New := fun c e _ => Qeq_refl _;
  value_NewFromInt := fun c => Qeq_refl _;
  value_Sub := fun a b => Qeq_refl _;
  value_Neg := fun a => Qeq_refl _;
  GreaterThan_spec := fun a b => eq_refl;
  LessThan_spec := fun a b => eq_refl
|}.

End Decimal.

(** * Properties *)

(** ** Machine integers *)

Lemma int_of_byte_range (b : byte) : 0 <= int_of_byte b < 256.
Proof.
  unfold int_of_byte. pose proof (Byte.to_N_bounded b). lia.
Qed.

Lemma int_wrap_small (z : Z) : - 2 ^ 63 <= z < 2 ^ 63 -> int_wrap z = z.
Proof.
  intros Hz. unfold int_wrap.
  rewrite Z.mod_small by lia. lia.
Qed.

Lemma int_shl_byte (b : byte) (k : Z) :
  0 <= k <= 24 -> int_shl (int_of_byte b) k = int_of_byte b * 2 ^ k.
Proof.
  intros Hk. unfold int_shl. rewrite Z.shiftl_mul_pow2 by lia.
  pose proof (int_of_byte_range b) as Hb.
  assert (2 ^ k <= 2 ^ 24) by (apply Z.pow_le_mono_r; lia).
  assert (0 < 2 ^ k) by (apply Z.pow_pos_nonneg; lia).
  apply int_wrap_small. nia.
Qed.

Module FrameFacts.
Import Frame.

Lemma BE32_range (b1 b2 b3 b4 : byte) : 0 <= BE32 b1 b2 b3 b4 < 2 ^ 32.
Proof.
  unfold BE32.
  pose proof (int_of_byte_range b1). pose proof (int_of_byte_range b2).
  pose proof (int_of_byte_range b3). pose proof (int_of_byte_range b4).
  lia.
Qed.

(** The shifts and additions of [read] compute the big-endian value; no
    step of it overflows an [int]. *)
Lemma frame_length_BE32 (b0 b1 b2 b3 b4 : byte) :
  frame_length [b0; b1; b2; b3; b4] = BE32 b1 b2 b3 b4.
Proof.
  unfold frame_length, at_, BE32; cbn [nth].
  rewrite !int_shl_byte by lia.
  pose proof (int_of_byte_range b1). pose proof (int_of_byte_range b2).
  pose proof (int_of_byte_range b3). pose proof (int_of_byte_range b4).
  unfold int_add.
  rewrite (int_wrap_small (_ * 2 ^ 24 + _ * 2 ^ 16)) by lia.
  rewrite (int_wrap_small (_ + _ * 2 ^ 8)) by lia.
  apply int_wrap_small. lia.
Qed.

Lemma BE32_zero (b1 b2 b3 b4 : byte) :
  BE32 b1 b2 b3 b4 = 0 <-> b1 = x00%byte /\ b2 = x00%byte /\ b3 = x00%byte /\ b4 = x00%byte.
Proof.
  split.
  - unfold BE32. intros Hz.
    pose proof (int_of_byte_range b1). pose proof (int_of_byte_range b2).
    pose proof (int_of_byte_range b3). pose proof (int_of_byte_range b4).
    assert (Hb : forall b, int_of_byte b = 0 -> b = x00%byte).
    { intros b Hb. unfold int_of_byte in Hb.
      assert (Byte.to_N b = Byte.to_N x00%byte) as Heq by (cbn; lia).
      apply (f_equal Byte.of_N) in Heq. rewrite !Byte.of_to_N in Heq. congruence. }
    repeat split; apply Hb; lia.
  - intros (-> & -> & -> & ->). reflexivity.
Qed.

(** What [read] does with the five bytes of the prefix. *)
Lemma read_prefix (b0 b1 b2 b3 b4 : byte) (rest : list byte) (te : error) (cs : list nat) :
  read (mkReader (b0 :: b1 :: b2 :: b3 :: b4 :: rest) te cs) =
  let r1 := mkReader rest te (cs ++ [5%nat]) in
  if negb (Byte.eqb b0 xce%byte) then ([], Some (errors_New "Wrong reponse header"), r1)
  else if BE32 b1 b2 b3 b4 =? 0
       then ([], Some (errors_New "Response should not be 0 length"), r1)
       else ReadFull (Z.to_nat (BE32 b1 b2 b3 b4)) r1.
Proof.
  unfold read, ReadFull at 1, PacketLengthBytes, logged.
  cbn [Nat.eqb length Nat.leb pending tail_err calls take drop at_ nth].
  rewrite frame_length_BE32. reflexivity.
Qed.

Lemma read_first_request (rd : Reader) :
  exists more, calls (read rd).2 = calls rd ++ 5%nat :: more.
Proof.
  unfold read, ReadFull at 1, PacketLengthBytes, logged.
  cbn [Nat.eqb pending tail_err calls].
  destruct (5 <=? length (pending rd))%nat.
  - destruct (negb _); [by exists [] |].
    destruct (_ =? 0); [by exists [] |].
    unfold ReadFull, logged. cbn [pending tail_err calls].
    repeat case_match; cbn; rewrite <- app_assoc; by eexists.
  - by exists [].
Qed.

(** C4. The frame reader first asks for exactly the 5 bytes of the
    length prefix.  When the first of them is not 0xCE it fails with an
    error, having consumed these 5 bytes and no more.  Otherwise it takes
    the next 4 bytes as a big-endian 32-bit length and, for a frame whose
    body has arrived, makes one more request, for exactly that many
    bytes, and returns them, leaving what follows the frame unread. *)
Theorem read_frame (rd : Reader) :
  (exists more, calls (read rd).2 = calls rd ++ 5%nat :: more) /\
  forall (b0 b1 b2 b3 b4 : byte) (rest : list byte),
    pending rd = b0 :: b1 :: b2 :: b3 :: b4 :: rest ->
    let n := Z.to_nat (BE32 b1 b2 b3 b4) in
    0 <= BE32 b1 b2 b3 b4 < 2 ^ 32 /\
    (b0 <> xce%byte ->
       read rd = ([], Some (errors_New "Wrong reponse header"),
                  mkReader rest (tail_err rd) (calls rd ++ [5%nat]))) /\
    (b0 = xce%byte -> n <> 0%nat -> (n <= length rest)%nat ->
       read rd = (take n rest, None,
                  mkReader (drop n rest) (tail_err rd) (calls rd ++ [5%nat; n]))).
Proof.
  split; [apply read_first_request |].
  intros b0 b1 b2 b3 b4 rest Hp n.
  destruct rd as [p te cs]; cbn in Hp |- *; subst p.
  pose proof (BE32_range b1 b2 b3 b4) as Hr.
  split; [exact Hr |].
  rewrite read_prefix. cbv zeta. split.
  - intros Hne. destruct (Byte.eqb b0 xce%byte) eqn:E; [| reflexivity].
    apply Byte.byte_dec_bl in E. contradiction.
  - intros -> Hn Hlen.
    replace (Byte.eqb xce xce)%byte with true by reflexivity. cbn [negb].
    destruct (Z.eqb_spec (BE32 b1 b2 b3 b4) 0) as [Hz | _]; [subst n; rewrite Hz in Hn; done |].
    unfold ReadFull, logged. cbn [pending tail_err calls]. fold n.
    destruct (Nat.eqb_spec n 0); [done |].
    destruct (Nat.leb_spec n (length rest)); [| lia].
    by rewrite <- app_assoc.
Qed.

Lemma read_frame_witness :
  read (mkReader [x01; x00; x00; x00; x02; x0a; x0b; x0c]%byte io_EOF []) =
    ([], Some (errors_New "Wrong reponse header"), mkReader [x0a; x0b; x0c]%byte io_EOF [5%nat])
  /\ read (mkReader [xce; x00; x00; x00; x02; x0a; x0b; x0c]%byte io_EOF []) =
    ([x0a; x0b]%byte, None, mkReader [x0c]%byte io_EOF [5%nat; 2%nat]).
Proof.
  split.
  - destruct (read_frame (mkReader [x01; x00; x00; x00; x02; x0a; x0b; x0c]%byte io_EOF []))
      as [_ Hf].
    destruct (Hf _ _ _ _ _ _ eq_refl) as (_ & Hbad & _).
    apply Hbad. discriminate.
  - destruct (read_frame (mkReader [xce; x00; x00; x00; x02; x0a; x0b; x0c]%byte io_EOF []))
      as [_ Hf].
    destruct (Hf _ _ _ _ _ _ eq_refl) as (_ & _ & Hgood).
    apply Hgood; [reflexivity | vm_compute; discriminate | vm_compute; lia].
Defined.

End FrameFacts.

(** ** The registry and [closeConnection] *)

Section EngineFacts.
Context `{Package}.

Lemma without_lookup (l : list (Z * nat)) (m : gmap Z nat) (k : Z) :
  without l m !! k = if decide (k ∈ l.*1) then None else m !! k.
Proof.
  unfold without. revert m. induction l as [| [rid f] l IH]; intros m.
  - cbn. case_decide as Hk; [by apply elem_of_nil in Hk | done].
  - cbn [foldl fst]. rewrite IH, fmap_cons. cbn [fst].
    destruct (decide (k = rid)) as [-> | Hne].
    + rewrite lookup_delete_eq, (decide_True (P := rid ∈ rid :: l.*1)) by apply list_elem_of_here.
      by case_decide.
    + rewrite lookup_delete_ne by done. apply decide_ext.
      rewrite elem_of_cons. split; [by right | by intros [? | ?]].
Qed.

Lemma without_all (l : list (Z * nat)) (m : gmap Z nat) :
  l ≡ₚ map_to_list m -> without l m = ∅.
Proof.
  intros Hp. apply map_eq. intros k. rewrite without_lookup, lookup_empty.
  case_decide as Hk; [done |].
  destruct (m !! k) as [f |] eqn:E; [| done].
  exfalso. apply Hk. apply list_elem_of_fmap. exists (k, f). split; [done |].
  rewrite Hp. by apply elem_of_map_to_list.
Qed.

Lemma fail_requests_ok (neterr : error) (l : list (Z * nat)) :
  forall (conn : Connection) (wd : World),
    NoDup l.*2 ->
    (forall f, f ∈ l.*2 -> exists fu, futures wd !! f = Some fu /\ c fu = ChanOpen) ->
    exists wd',
      fail_requests neterr l conn wd
        = Ok (set_requests (without l (requests conn)) conn, wd') /\
      socks wd' = socks wd /\ network wd' = network wd /\ trace wd' = trace wd /\
      (forall f fu, f ∈ l.*2 -> futures wd !! f = Some fu ->
         futures wd' !! f = Some (failed_with neterr fu)) /\
      (forall f, f ∉ l.*2 -> futures wd' !! f = futures wd !! f).
Proof.
  induction l as [| [rid f] l IH]; intros conn wd Hnd Hopen.
  - exists wd. cbn. destruct conn; repeat split; try done.
    intros f fu Hf. by apply elem_of_nil in Hf.
  - rewrite fmap_cons in Hnd, Hopen. cbn [snd] in Hnd, Hopen.
    apply NoDup_cons in Hnd as [Hf Hnd].
    assert (Hneq : forall f', f' ∈ l.*2 -> f ≠ f') by (intros f' Hf' <-; contradiction).
    destruct (Hopen f) as (fu & Hfu & Hc); [apply list_elem_of_here |].
    set (wd2 := set_futures (<[f := failed_with neterr fu]> (futures wd)) wd).
    destruct (IH (set_requests (delete rid (requests conn)) conn) wd2 Hnd)
      as (wd' & Hrun & Hs & Hn & Ht & Hdone & Hother).
    { intros f' Hf'.
      destruct (Hopen f') as (fu' & Hfu' & Hc'); [by apply list_elem_of_further |].
      exists fu'. split; [| done]. cbn.
      rewrite lookup_insert_ne; [done | by apply Hneq]. }
    exists wd'. rewrite fmap_cons. cbn [snd].
    split; [| repeat split; try done].
    + cbn [fail_requests]. unfold bind, store_err, close_chan.
      rewrite Hfu. cbn. rewrite lookup_insert_eq. cbn. rewrite Hc.
      rewrite insert_insert_eq.
      replace (set_futures _ (set_futures _ wd)) with wd2 by done.
      rewrite Hrun. done.
    + intros f' fu' Hf' Hfu'. apply elem_of_cons in Hf' as [-> | Hf'].
      * rewrite Hother by done. cbn. rewrite lookup_insert_eq. congruence.
      * apply Hdone; [done |]. cbn. rewrite lookup_insert_ne; [done | by apply Hneq].
    + intros f' Hf'. apply not_elem_of_cons in Hf' as [Hne Hf'].
      rewrite Hother by done. cbn. by rewrite lookup_insert_ne.
Qed.

Lemma registry_pending_order (conn : Connection) (wd : World) :
  registry_pending conn wd ->
  NoDup (range_order (requests conn)).*2 /\
  (forall f, f ∈ (range_order (requests conn)).*2 ->
     exists rid, requests conn !! rid = Some f).
Proof.
  intros [_ Hinj]. pose proof (range_order_perm (requests conn)) as Hp. split.
  - rewrite Hp. apply NoDup_fmap_2_strong; [| apply NoDup_map_to_list].
    intros [k1 f1] [k2 f2] H1 H2 Heq. cbn in Heq. subst f2.
    apply elem_of_map_to_list in H1, H2. by rewrite (Hinj k1 k2 f1).
  - intros f Hf. rewrite Hp in Hf. apply list_elem_of_fmap in Hf as ([k f'] & -> & Hin).
    apply elem_of_map_to_list in Hin. by exists k.
Qed.

Lemma closeConnection_ok (neterr : error) (conn : Connection) (wd : World)
    (s : nat) (sk : Sock) :
  connection conn = Some s ->
  socks wd !! s = Some sk ->
  registry_pending conn wd ->
  exists wd',
    closeConnection neterr conn wd
      = Ok ((rm_close (sk_remote sk),
             set_requests ∅ (set_socket None None None conn)), wd') /\
    (forall rid f fu, requests conn !! rid = Some f -> futures wd !! f = Some fu ->
       futures wd' !! f = Some (failed_with neterr fu)) /\
    (forall f, (forall rid, requests conn !! rid <> Some f) ->
       futures wd' !! f = futures wd !! f) /\
    trace wd' = trace wd ++ [EvClose s].
Proof.
  intros Hs Hsk Hreg.
  destruct (registry_pending_order conn wd Hreg) as [Hnd Hin].
  set (wd1 := set_socks (<[s := {| sk_remote := sk_remote sk; sk_reader := sk_reader sk;
                                   sk_open := false |}]> (socks wd))
                        (add_event (EvClose s) wd)).
  destruct (fail_requests_ok neterr (range_order (requests conn))
              (set_socket None None None conn) wd1 Hnd)
    as (wd' & Hrun & _ & _ & Ht & Hdone & Hother).
  { intros f Hf. destruct (Hin f Hf) as [rid Hrid]. destruct Hreg as [Hopen _].
    exact (Hopen rid f Hrid). }
  exists wd'. split; [| split; [| split]].
  - unfold closeConnection. rewrite Hs. unfold bind at 1, sock_Close. rewrite Hsk.
    fold wd1. unfold bind. cbn [requests set_socket] in Hrun |- *. rewrite Hrun.
    unfold ret. rewrite without_all by apply range_order_perm.
    destruct conn; reflexivity.
  - intros rid f fu Hrid Hfu. apply Hdone; [| exact Hfu].
    rewrite range_order_perm. apply list_elem_of_fmap. exists (rid, f).
    split; [done |]. by apply elem_of_map_to_list.
  - intros f Hf. rewrite Hother; [done |].
    intros Hmem. destruct (Hin f Hmem) as [rid Hrid]. exact (Hf rid Hrid).
  - rewrite Ht. reflexivity.
Qed.

Lemma read_ok (s : nat) (sk : Sock) (wd : World) :
  socks wd !! s = Some sk ->
  read s wd = Ok (((Frame.read (sk_reader sk)).1.1, (Frame.read (sk_reader sk)).1.2),
                  after_read s sk (Frame.read (sk_reader sk)).2 wd).
Proof.
  intros Hsk. unfold read. rewrite Hsk.
  destruct (Frame.read (sk_reader sk)) as [[response e] rd]. reflexivity.
Qed.

Lemma deliver_present (rs : Response) (conn : Connection) (wd : World) (f : nat) (fu : Future) :
  requests conn !! RequestId rs = Some f ->
  futures wd !! f = Some fu ->
  c fu = ChanOpen ->
  deliver rs conn wd
    = Ok (set_requests (delete (RequestId rs) (requests conn)) conn,
          set_futures (<[f := fulfilled_with rs fu]> (futures wd)) wd).
Proof.
  intros Hf Hfu Hc. unfold deliver. rewrite Hf.
  unfold bind, store_resp, close_chan. rewrite Hfu. cbn.
  rewrite lookup_insert_eq. cbn. rewrite Hc, insert_insert_eq. reflexivity.
Qed.

Lemma deliver_absent (rs : Response) (conn : Connection) (wd : World) :
  requests conn !! RequestId rs = None ->
  deliver rs conn wd
    = Ok (conn, add_event (EvLog "tarantool: unexpected requestId (%d) in response"
                                 (RequestId rs)) wd).
Proof. intros Hf. unfold deliver. by rewrite Hf. Qed.

(** [registry_pending] is an invariant of the reader: handing a response
    over keeps it. *)
Lemma deliver_keeps_pending (rs : Response) (conn conn' : Connection) (wd wd' : World) :
  registry_pending conn wd ->
  deliver rs conn wd = Ok (conn', wd') ->
  registry_pending conn' wd'.
Proof.
  intros [Hopen Hinj] Hrun.
  destruct (requests conn !! RequestId rs) as [f |] eqn:Hf.
  - destruct (Hopen _ _ Hf) as (fu & Hfu & Hc).
    rewrite (deliver_present rs conn wd f fu Hf Hfu Hc) in Hrun.
    injection Hrun as <- <-. split.
    + intros rid f' Hrid. cbn in Hrid |- *.
      apply lookup_delete_Some in Hrid as [Hne Hrid].
      rewrite lookup_insert_ne.
      * by apply (Hopen rid).
      * intros <-. apply Hne. by apply (Hinj _ _ f).
    + intros rid1 rid2 f' H1 H2. cbn in H1, H2.
      apply lookup_delete_Some in H1 as [_ H1], H2 as [_ H2]. by apply (Hinj _ _ f').
  - rewrite (deliver_absent rs conn wd Hf) in Hrun. injection Hrun as <- <-. by split.
Qed.

Lemma registry_pendingb_sound (conn : Connection) (wd : World) :
  registry_pendingb conn wd = true -> registry_pending conn wd.
Proof.
  unfold registry_pendingb. intros Hb. apply andb_prop in Hb as [Hall Hnd].
  apply bool_decide_eq_true in Hnd. rewrite forallb_forall in Hall. split.
  - intros rid f Hrid.
    specialize (Hall (rid, f)). cbn in Hall.
    destruct (futures wd !! f) as [fu |].
    + exists fu. split; [done |]. destruct (c fu); [done |].
      discriminate Hall. apply list_elem_of_In. by apply elem_of_map_to_list.
    + discriminate Hall. apply list_elem_of_In. by apply elem_of_map_to_list.
  - intros rid1 rid2 f H1 H2.
    apply elem_of_map_to_list in H1, H2.
    apply list_elem_of_lookup in H1 as [i Hi], H2 as [j Hj].
    assert (i = j) as ->.
    { eapply NoDup_lookup; [exact Hnd | |].
      - rewrite list_lookup_fmap, Hi. reflexivity.
      - rewrite list_lookup_fmap, Hj. reflexivity. }
    congruence.
Qed.

Lemma closeConnection_idle (neterr : error) (conn : Connection) (wd : World) :
  connection conn = None -> closeConnection neterr conn wd = Ok ((None, conn), wd).
Proof. intros Hc. unfold closeConnection. by rewrite Hc. Qed.


(** C2, as the code has it.  [Close] is not idempotent.  A first
    [Close] on a connection whose control channel is open, with an active
    socket and pending futures, sets the closed flag, closes the control
    channel and the socket and fails every pending future with the
    client-closed error, leaving the registry empty.  A second [Close]
    then does not return: closing the closed control channel panics.
    What can be repeated is [closeConnection]: on the closed connection
    it returns no error and changes nothing. *)
Theorem Close_once (conn : Connection) (wd : World) (s : nat) (sk : Sock) :
  control conn = ChanOpen ->
  connection conn = Some s ->
  socks wd !! s = Some sk ->
  registry_pending conn wd ->
  let conn' := set_requests ∅ (set_socket None None None
                 (set_control ChanClosed (set_closed true conn))) in
  exists wd',
    Close conn wd = Ok ((rm_close (sk_remote sk), conn'), wd') /\
    (forall rid f fu, requests conn !! rid = Some f -> futures wd !! f = Some fu ->
       futures wd' !! f = Some (failed_with (errors_New "client closed connection") fu)) /\
    trace wd' = trace wd ++ [EvClose s] /\
    Close conn' wd' = Panic "close of closed channel" /\
    (forall conn2 wd2, control conn2 = ChanClosed ->
       Close conn2 wd2 = Panic "close of closed channel") /\
    (forall neterr, closeConnection neterr conn' wd' = Ok ((None, conn'), wd')).
Proof.
  intros Hctl Hs Hsk Hreg conn'.
  destruct (closeConnection_ok (errors_New "client closed connection")
              (set_control ChanClosed (set_closed true conn)) wd s sk)
    as (wd' & Hrun & Hdone & _ & Ht); [done | done | done |].
  exists wd'. split; [| split; [| split; [| split; [| split]]]].
  - unfold Close, bind, close_control. cbn [control set_closed]. rewrite Hctl.
    unfold ret. exact Hrun.
  - exact Hdone.
  - exact Ht.
  - reflexivity.
  - intros conn2 wd2 Hclosed. unfold Close, bind, close_control.
    cbn [control set_closed]. by rewrite Hclosed.
  - intros neterr. by apply closeConnection_idle.
Qed.


(** C10. A prefix that declares a body of length zero makes the frame
    reader fail with "Response should not be 0 length" after the 5 bytes
    of the prefix, without a request for body bytes.  The reader loop
    then closes the connection with that error and the authentication
    step fails with it: neither decodes a header. *)
Theorem zero_length_frame_rejected (b1 b2 b3 b4 : byte) (rest : list byte)
    (te : error) (cs : list nat) :
  Frame.BE32 b1 b2 b3 b4 = 0 ->
  let rd := Frame.mkReader (xce%byte :: b1 :: b2 :: b3 :: b4 :: rest) te cs in
  let rd' := Frame.mkReader rest te (cs ++ [5%nat]) in
  let e := errors_New "Response should not be 0 length" in
  Frame.read rd = ([], Some e, rd') /\
  forall (fuel : nat) (conn : Connection) (wd : World) (s : nat) (sk : Sock),
    r conn = Some s -> socks wd !! s = Some sk -> sk_reader sk = rd ->
    reader_turn fuel conn wd
      = (run (_, conn) <- closeConnection e conn ;; ret (Some true, conn))
          (after_read s sk rd' wd) /\
    readAuthResponse s wd
      = Ok (Some (errors_New ("auth: read error " +:+ e)), after_read s sk rd' wd).
Proof.
  intros Hz rd rd' e.
  assert (Hread : Frame.read rd = ([], Some e, rd')).
  { unfold rd. rewrite FrameFacts.read_prefix. cbv zeta.
    replace (Byte.eqb xce xce)%byte with true by reflexivity. cbn [negb].
    rewrite Hz. reflexivity. }
  split; [exact Hread |].
  intros fuel conn wd s sk Hr Hsk Hrd. split.
  - unfold reader_turn. rewrite Hr. unfold bind at 1, ret at 1.
    unfold bind at 1. rewrite (read_ok s sk wd Hsk), Hrd, Hread. reflexivity.
  - unfold readAuthResponse, bind.
    rewrite (read_ok s sk wd Hsk), Hrd, Hread. reflexivity.
Qed.

(** *** [auth] and [dial] *)

Ltac trace_eq :=
  cbn [trace add_event set_socks set_futures];
  rewrite <- ?app_assoc; reflexivity.

Lemma dial_split (conn : Connection) (wd : World) :
  dial conn wd =
  (run g <- dial_greeting conn ;;
   match g with
   | inl e => ret (Some e, conn)
   | inr (s, (greeting, Some e)) =>
     run _ <- sock_Close s ;;
     ret (Some e, conn)
   | inr (s, (greeting, None)) =>
     run (e, conn) <- auth (with_greeting greeting conn) (Some s) (Some s) ;;
     match e with
     | Some _ =>
       run _ <- sock_Close s ;;
       ret (e, conn)
     | None => ret (None, set_socket (Some s) (Some s) (Some s) conn)
     end
   end) wd.
Proof.
  unfold dial, dial_greeting, bind.
  destruct (net_Dial (addr conn) wd) as [[[e | s] wd1] |]; [done | | done].
  cbn. destruct (conn_Read s 128 (add_event (EvSetNoDelay s) wd1))
    as [[[greeting [e |]] wd2] |]; done.
Qed.

Lemma zero_fill_length (n : nat) (bs : list byte) :
  (length bs <= n)%nat -> length (Frame.zero_fill n bs) = n.
Proof.
  intros Hn. unfold Frame.zero_fill. rewrite length_app, length_replicate. lia.
Qed.

Lemma conn_Read_ok (s n : nat) (sk : Sock) (wd : World) :
  socks wd !! s = Some sk ->
  exists g e wd',
    conn_Read s n wd = Ok ((g, e), wd') /\ length g = n /\
    sock_is (sk_open sk) s wd' /\ futures wd' = futures wd.
Proof.
  intros Hsk. unfold conn_Read. rewrite Hsk.
  destruct (rm_first_read (sk_remote sk)) as [e | k].
  - eexists _, _, _. split; [reflexivity |]. split; [apply length_replicate |].
    split; [by exists sk | done].
  - eexists _, _, _. split; [reflexivity |]. split; [| split; [| done]].
    + apply zero_fill_length. rewrite length_take. lia.
    + eexists. split; [apply lookup_insert_eq | done].
Qed.

(** After the beginning of [dial] the new socket exists and is open. *)
Lemma dial_greeting_ok (conn : Connection) (wd : World) :
  exists g wd1,
    dial_greeting conn wd = Ok (g, wd1) /\
    futures wd1 = futures wd /\
    match g with
    | inl _ => True
    | inr (s, (greeting, _)) => sock_is true s wd1 /\ length greeting = 128%nat
    end.
Proof.
  unfold dial_greeting, bind at 1, net_Dial.
  destruct (network wd) as [| [e | rm] rest].
  - eexists _, _. by split.
  - eexists _, _. by split.
  - unfold bind, emit.
    match goal with
    | |- context [conn_Read ?s 128 ?w] =>
      destruct (conn_Read_ok s 128 {| sk_remote := rm;
                   sk_reader := Frame.mkReader (rm_input rm) (rm_tail rm) [];
                   sk_open := true |} w) as (g & e & wd' & Hrun & Hlen & Hopen & Hf)
    end.
    { apply lookup_insert_eq. }
    rewrite Hrun. eexists _, _. split; [reflexivity |]. split; [| by split].
    rewrite Hf. reflexivity.
Qed.

Lemma sock_Close_ok (s : nat) (wd : World) (open : bool) :
  sock_is open s wd ->
  exists e wd',
    sock_Close s wd = Ok (e, wd') /\ sock_is false s wd' /\
    futures wd' = futures wd /\ last (trace wd') = Some (EvClose s).
Proof.
  intros (sk & Hsk & _). unfold sock_Close. rewrite Hsk.
  eexists _, _. split; [reflexivity |]. split; [| split].
  - eexists. cbn. rewrite lookup_insert_eq. done.
  - done.
  - cbn. apply last_snoc.
Qed.

(** [auth] returns (it does not panic), keeps the socket as it is, and
    changes nothing of the connection but the request-id counter. *)
Lemma auth_ok (conn : Connection) (s : nat) (wd : World) (open : bool) :
  sock_is open s wd ->
  exists e conn' wd',
    auth conn (Some s) (Some s) wd = Ok ((e, conn'), wd') /\
    sock_is open s wd' /\
    futures wd' = futures wd /\
    conn' = set_requestId (requestId conn') conn.
Proof.
  intros (sk & Hsk & Hopen).
  assert (Hkeep : sock_is open s wd) by (by exists sk).
  unfold auth. destruct (String.eqb (User (opts conn)) "").
  { eexists _, _, _. split; [reflexivity |]. by destruct conn. }
  destruct (String.eqb (Greeting.auth (Greeting conn)) "").
  { eexists _, _, _. split; [reflexivity |]. by destruct conn. }
  destruct (scramble _ _) as [scr [e |]].
  { eexists _, _, _. split; [reflexivity |]. by destruct conn. }
  unfold bind, writeAuthRequest.
  destruct (NewRequest (requestId conn) AuthRequest) as [request counter].
  destruct (pack _) as [packet [e |]].
  { eexists _, _, _. split; [reflexivity |]. by destruct conn. }
  unfold bind, write, bind, w_Write. rewrite Hsk.
  destruct (rm_write (sk_remote sk)) as [| n e]; cbn.
  2: { eexists _, _, _. split; [reflexivity |]. split; [by exists sk |]. by destruct conn. }
  rewrite Nat.eqb_refl. cbn. unfold w_Flush. cbn. rewrite Hsk.
  destruct (rm_flush (sk_remote sk)) as [e |]; cbn.
  { eexists _, _, _. split; [reflexivity |]. split; [by exists sk |]. by destruct conn. }
  unfold readAuthResponse, bind, read. cbn. rewrite Hsk.
  destruct (Frame.read (sk_reader sk)) as [[resp_bytes e] rd].
  assert (Hafter : forall tr,
    sock_is open s
      (set_socks (<[s := {| sk_remote := sk_remote sk; sk_reader := rd; sk_open := sk_open sk |}]>
                    (socks wd)) tr)).
  { intros tr. eexists. cbn. rewrite lookup_insert_eq. done. }
  destruct e as [e |]; cbn.
  { eexists _, _, _. split; [reflexivity |]. split; [apply Hafter |]. by destruct conn. }
  destruct (decodeHeader _) as [rs [e |]]; cbn.
  { eexists _, _, _. split; [reflexivity |]. split; [apply Hafter |]. by destruct conn. }
  destruct (decodeBody _) as [rs' [e |]]; cbn.
  { eexists _, _, _. split; [reflexivity |]. split; [apply Hafter |]. by destruct conn. }
  eexists _, _, _. split; [reflexivity |]. split; [apply Hafter |]. by destruct conn.
Qed.

Lemma string_of_list_byte_length (bs : list byte) :
  String.length (String.string_of_list_byte bs) = length bs.
Proof.
  unfold String.string_of_list_byte.
  induction bs as [| b bs IH]; [reflexivity |].
  cbn [List.map String.string_of_list_ascii String.length length]. by rewrite IH.
Qed.

(** The greeting was read: what the beginning of [dial] gives then. *)
Lemma dial_greeting_read (conn : Connection) (wd : World) (rm : Remote) (k : nat)
    (net : list (error + Remote)) :
  network wd = inr rm :: net ->
  rm_first_read rm = inr k ->
  dial_greeting conn wd
    = Ok (inr (fresh (dom (socks wd)) : nat,
               (Frame.zero_fill 128 (take (min k 128) (rm_input rm)), None)),
          dialed (addr conn) rm (drop (length (take (min k 128) (rm_input rm))) (rm_input rm))
                 net wd).
Proof.
  intros Hnet Hfirst.
  unfold dial_greeting, bind at 1, net_Dial. rewrite Hnet. cbv zeta.
  unfold bind at 1, emit. unfold bind at 1, conn_Read.
  cbn [socks set_socks add_event]. rewrite lookup_insert_eq.
  cbn [sk_remote]. rewrite Hfirst.
  unfold ret, dialed.
  cbn [sk_reader Frame.pending Frame.tail_err Frame.calls sk_open].
  unfold set_socks, add_event.
  cbn [futures socks network trace tail].
  rewrite insert_insert_eq, <- !app_assoc. reflexivity.
Qed.

(** The read of the greeting failed: what the beginning of [dial] gives then. *)
Lemma dial_greeting_unread (conn : Connection) (wd : World) (rm : Remote) (e : error)
    (net : list (error + Remote)) :
  network wd = inr rm :: net ->
  rm_first_read rm = inl e ->
  exists greeting,
    dial_greeting conn wd
      = Ok (inr (fresh (dom (socks wd)) : nat, (greeting, Some e)),
            dialed (addr conn) rm (rm_input rm) net wd).
Proof.
  intros Hnet Hfirst.
  unfold dial_greeting, bind at 1, net_Dial. rewrite Hnet. cbv zeta.
  unfold bind at 1, emit. unfold bind at 1, conn_Read.
  cbn [socks set_socks add_event]. rewrite lookup_insert_eq.
  cbn [sk_remote]. rewrite Hfirst.
  eexists. unfold ret, dialed, set_socks, add_event.
  cbn [futures socks network trace tail].
  rewrite <- !app_assoc. reflexivity.
Qed.

(** C9. [dial] returns, and it differs from the connection it was
    given at most in the socket fields, the greeting and the request-id
    counter.  When it returns no error, the greeting was read and [auth]
    succeeded before [connection], [r] and [w] were set to the new, open
    socket.  When it returns an error, [connection], [r] and [w] are
    what they were (the greeting may have been stored by then), and the
    socket, if one was dialed, was closed as the last thing [dial] did.

    The error is the one of the step that failed, and nothing is done
    after that step but the close of the socket.  When [net.Dial] fails,
    [dial] returns its error with the connection as it was, and no
    socket exists.  When the read of the greeting fails, [dial] closes
    the new socket and returns the error of the read with the connection
    as it was.  When the greeting was read, [dial] runs [auth] on the
    connection with that greeting stored and the socket fields still
    unset: if [auth] returns an error, [dial] closes the socket and
    returns that very error with the connection [auth] left, whose
    socket fields are what they were; if [auth] returns none, [dial]
    sets [connection], [r] and [w] to the socket and does nothing
    else. *)
Theorem dial_atomic (conn : Connection) (wd : World) :
  (exists e conn' wd',
     dial conn wd = Ok ((e, conn'), wd') /\
     same_session conn conn' /\
     match e with
     | None =>
       exists s greeting wd1 conn1,
         dial_greeting conn wd = Ok (inr (s, (greeting, None)), wd1) /\
         auth (with_greeting greeting conn) (Some s) (Some s) wd1
           = Ok ((None, conn1), wd') /\
         conn' = set_socket (Some s) (Some s) (Some s) conn1 /\
         sock_is true s wd'
     | Some _ =>
       connection conn' = connection conn /\ r conn' = r conn /\ w conn' = w conn /\
       forall s g wd1,
         dial_greeting conn wd = Ok (inr (s, g), wd1) ->
         sock_is false s wd' /\ last (trace wd') = Some (EvClose s)
     end) /\
  (network wd = [] ->
   dial conn wd = Ok ((Some "dial tcp: connection refused"%string, conn),
                      refused (addr conn) [] wd)) /\
  (forall e net,
     network wd = inl e :: net ->
     dial conn wd = Ok ((Some e, conn), refused (addr conn) net wd)) /\
  (forall rm net,
     network wd = inr rm :: net ->
     let s : nat := fresh (dom (socks wd)) in
     (forall e,
        rm_first_read rm = inl e ->
        dial conn wd
          = Ok ((Some e, conn),
                hung_up s {| sk_remote := rm;
                             sk_reader := Frame.mkReader (rm_input rm) (rm_tail rm) [];
                             sk_open := true |}
                        (dialed (addr conn) rm (rm_input rm) net wd))) /\
     (forall k,
        rm_first_read rm = inr k ->
        let got := take (min k 128) (rm_input rm) in
        let wd1 := dialed (addr conn) rm (drop (length got) (rm_input rm)) net wd in
        exists e conn1 wd2 sk2,
          auth (with_greeting (Frame.zero_fill 128 got) conn) (Some s) (Some s) wd1
            = Ok ((e, conn1), wd2) /\
          socks wd2 !! s = Some sk2 /\ sk_open sk2 = true /\
          connection conn1 = connection conn /\ r conn1 = r conn /\ w conn1 = w conn /\
          dial conn wd
            = match e with
              | Some _ => Ok ((e, conn1), hung_up s sk2 wd2)
              | None => Ok ((None, set_socket (Some s) (Some s) (Some s) conn1), wd2)
              end)).
Proof.
  split; [| split; [| split]].
  - rewrite dial_split.
    destruct (dial_greeting_ok conn wd) as (g & wd1 & Hg & _ & Hm).
    unfold bind at 1. rewrite Hg.
    destruct g as [e | [s [greeting [e |]]]].
    + eexists _, _, _. split; [reflexivity |]. split; [done |].
      split; [done |]. split; [done |]. split; [done |].
      intros s' g' wd1' [=].
    + destruct Hm as [Hopen _].
      destruct (sock_Close_ok s wd1 true Hopen) as (e' & wd2 & Hrun & Hclosed & _ & Hlast).
      unfold bind. rewrite Hrun.
      eexists _, _, _. split; [reflexivity |]. split; [done |].
      split; [done |]. split; [done |]. split; [done |].
      intros s' g' wd1' [= <- _ _]. done.
    + destruct Hm as [Hopen _].
      destruct (auth_ok (with_greeting greeting conn) s wd1 true Hopen)
        as (e & conn1 & wd2 & Hrun & Hopen2 & _ & Hconn1).
      unfold bind at 1. rewrite Hrun. destruct e as [e |].
      * destruct (sock_Close_ok s wd2 true Hopen2)
          as (e' & wd3 & Hrun3 & Hclosed & _ & Hlast).
        unfold bind. rewrite Hrun3.
        eexists _, _, _. split; [reflexivity |].
        rewrite Hconn1. split; [done |].
        split; [done |]. split; [done |]. split; [done |].
        intros s' g' wd1' [= <- _ _]. done.
      * eexists _, _, _. split; [reflexivity |].
        split; [by rewrite Hconn1 |].
        exists s, greeting, wd1, conn1. done.
  - intros Hnet. unfold dial, bind, net_Dial, refused. rewrite Hnet. reflexivity.
  - intros e net Hnet. unfold dial, bind, net_Dial, refused. rewrite Hnet. reflexivity.
  - intros rm net Hnet s. split.
    + intros e Hfirst.
      destruct (dial_greeting_unread conn wd rm e net Hnet Hfirst) as (greeting & Hg).
      rewrite dial_split. unfold bind at 1. rewrite Hg.
      unfold bind, sock_Close, dialed. cbn [socks]. rewrite lookup_insert_eq.
      reflexivity.
    + intros k Hfirst got wd1.
      pose proof (dial_greeting_read conn wd rm k net Hnet Hfirst) as Hg.
      assert (Hopen : sock_is true s wd1).
      { eexists. unfold wd1, dialed. cbn [socks]. rewrite lookup_insert_eq. done. }
      destruct (auth_ok (with_greeting (Frame.zero_fill 128 got) conn) s wd1 true Hopen)
        as (e & conn1 & wd2 & Hrun & (sk2 & Hsk2 & Hopen2) & _ & Hconn1).
      exists e, conn1, wd2, sk2.
      split; [exact Hrun |]. split; [exact Hsk2 |]. split; [exact Hopen2 |].
      split; [by rewrite Hconn1 |]. split; [by rewrite Hconn1 |].
      split; [by rewrite Hconn1 |].
      rewrite dial_split. unfold bind at 1. rewrite Hg.
      unfold bind at 1. fold got. fold wd1. fold s. rewrite Hrun.
      destruct e as [e |]; [| reflexivity].
      unfold bind, sock_Close. rewrite Hsk2. reflexivity.
Qed.

(** C5. With an empty user name [auth] returns no error at once,
    without any input or output (guest session).  With a user name, a
    greeting salt that [scramble] accepts and a request that [pack]
    accepts, the first thing [auth] does is write the packed AUTH
    request, whose body holds the user name and the tuple
    ["chap-sha1", scramble]; [auth] returns no error only after the
    write, the flush and the read and decoding of a response all
    succeeded.  In [dial] the salt passed on has 44 bytes, and an error
    of [auth] ends the attempt: [dial] closes the socket and returns that
    error with the connection's socket unset.

    Step by step, with a user name: an empty salt, a failure of
    [scramble] and a failure of [pack] each end [auth] with their error
    before any input or output.  Then the packet is written: when the
    write fails [auth] returns "auth: write error" after the write
    alone, and when the flush fails it returns "auth: flush error" after
    the write and the flush.  When both succeeded the response is
    awaited: [auth] reads one packet from the socket, which moves the
    reader on, and what it returns is decided by that read and by the
    decoding of the bytes read: the read error, the error of
    [decodeHeader], the error of [decodeBody], each under its prefix, or
    no error when all three succeeded. *)
Theorem auth_guest_or_chap (conn : Connection) (s : nat) (sk : Sock) (wd : World) :
  socks wd !! s = Some sk ->
  (User (opts conn) = ""%string ->
   auth conn (Some s) (Some s) wd = Ok ((None, conn), wd)) /\
  (User (opts conn) <> ""%string ->
   Greeting.auth (Greeting conn) <> ""%string ->
   forall scr packet,
     scramble (Greeting.auth (Greeting conn)) (Pass (opts conn)) = (scr, None) ->
     pack (auth_request conn scr) = (packet, None) ->
     body (auth_request conn scr) !! KeyUserName = Some (VString (User (opts conn))) /\
     body (auth_request conn scr) !! KeyTuple
       = Some (VArray [VString "chap-sha1"; VString (String.string_of_list_byte scr)]) /\
     exists e conn' wd' more,
       auth conn (Some s) (Some s) wd = Ok ((e, conn'), wd') /\
       trace wd' = trace wd ++ EvWrite s packet :: more /\
       (e = None ->
        more = [EvFlush s; EvReadPacket s] /\
        rm_write (sk_remote sk) = WriteAll /\ rm_flush (sk_remote sk) = None /\
        exists bytes rd' rs rs',
          Frame.read (sk_reader sk) = (bytes, None, rd') /\
          decodeHeader (Response_of bytes) = (rs, None) /\
          decodeBody rs = (rs', None))) /\
  (forall greeting,
     length greeting = 128%nat ->
     String.length (Greeting.auth (Greeting (with_greeting greeting conn))) = 44%nat) /\
  (forall wd0 greeting e conn1 wd1,
     dial_greeting conn wd0 = Ok (inr (s, (greeting, None)), wd) ->
     auth (with_greeting greeting conn) (Some s) (Some s) wd = Ok ((Some e, conn1), wd1) ->
     exists wd2,
       dial conn wd0 = Ok ((Some e, conn1), wd2) /\
       connection conn1 = connection conn /\ r conn1 = r conn /\ w conn1 = w conn /\
       sock_is false s wd2 /\ last (trace wd2) = Some (EvClose s)) /\
  (User (opts conn) <> ""%string ->
   (Greeting.auth (Greeting conn) = ""%string ->
    auth conn (Some s) (Some s) wd
      = Ok ((Some (errors_New "auth: empty greeting"), conn), wd)) /\
   (Greeting.auth (Greeting conn) <> ""%string ->
    forall scr es,
      scramble (Greeting.auth (Greeting conn)) (Pass (opts conn)) = (scr, es) ->
      match es with
      | Some e0 =>
        auth conn (Some s) (Some s) wd
          = Ok ((Some (errors_New ("auth: scrambling failure " +:+ e0)), conn), wd)
      | None =>
        let conn1 := set_requestId (NewRequest (requestId conn) AuthRequest).2 conn in
        forall packet ep,
          pack (auth_request conn scr) = (packet, ep) ->
          match ep with
          | Some e0 =>
            auth conn (Some s) (Some s) wd
              = Ok ((Some (errors_New ("auth: pack error " +:+ e0)), conn1), wd)
          | None =>
            let written := add_event (EvWrite s packet) wd in
            let flushed := add_event (EvFlush s) written in
            match rm_write (sk_remote sk) with
            | WriteFails _ e0 =>
              auth conn (Some s) (Some s) wd
                = Ok ((Some (errors_New ("auth: write error " +:+ e0)), conn1), written)
            | WriteAll =>
              match rm_flush (sk_remote sk) with
              | Some e0 =>
                auth conn (Some s) (Some s) wd
                  = Ok ((Some (errors_New ("auth: flush error " +:+ e0)), conn1), flushed)
              | None =>
                forall bytes er rd',
                  Frame.read (sk_reader sk) = (bytes, er, rd') ->
                  exists e,
                    auth conn (Some s) (Some s) wd
                      = Ok ((e, conn1), after_read s sk rd' flushed) /\
                    readAuthResponse s flushed = Ok (e, after_read s sk rd' flushed) /\
                    match er with
                    | Some e0 => e = Some (errors_New ("auth: read error " +:+ e0))
                    | None =>
                      forall rs eh,
                        decodeHeader (Response_of bytes) = (rs, eh) ->
                        match eh with
                        | Some e0 =>
                          e = Some (errors_New
                                      ("auth: decode response header error " +:+ e0))
                        | None =>
                          forall rs' eb,
                            decodeBody rs = (rs', eb) ->
                            match eb with
                            | Some e0 =>
                              e = Some (errors_New
                                          ("auth: decode response body error " +:+ e0))
                            | None => e = None
                            end
                        end
                    end
              end
            end
          end
      end)).
Proof.
  intros Hsk. split; [| split; [| split; [| split]]].
  - intros Huser. unfold auth. by rewrite Huser.
  - intros Huser Hsalt scr packet Hscr Hpack. split; [| split].
    + unfold auth_request, set_body. cbn [body].
      rewrite lookup_insert_ne by done. apply lookup_insert_eq.
    + unfold auth_request, set_body. cbn [body]. apply lookup_insert_eq.
    + unfold auth. apply String.eqb_neq in Huser, Hsalt. rewrite Huser, Hsalt, Hscr.
      unfold auth_request in Hpack.
      unfold bind at 1, writeAuthRequest.
      destruct (NewRequest (requestId conn) AuthRequest) as [request counter].
      cbn [fst opts set_requestId] in Hpack |- *. rewrite Hpack.
      unfold bind, write, bind, w_Write. rewrite Hsk.
      destruct (rm_write (sk_remote sk)) as [| n e] eqn:Hw; cbn.
      2: { eexists _, _, _, _. split; [reflexivity |]. split; [trace_eq | done]. }
      rewrite Nat.eqb_refl. cbn. unfold w_Flush. cbn. rewrite Hsk.
      destruct (rm_flush (sk_remote sk)) as [e |] eqn:Hfl; cbn.
      { eexists _, _, _, _. split; [reflexivity |].
        split; [trace_eq | done]. }
      unfold readAuthResponse, bind, read. cbn. rewrite Hsk.
      destruct (Frame.read (sk_reader sk)) as [[resp_bytes e] rd] eqn:Hrd.
      destruct e as [e |]; cbn.
      { eexists _, _, _, _. split; [reflexivity |].
        split; [trace_eq | done]. }
      destruct (decodeHeader _) as [rs [e |]] eqn:Hdh; cbn.
      { eexists _, _, _, _. split; [reflexivity |].
        split; [trace_eq | done]. }
      destruct (decodeBody _) as [rs' [e |]] eqn:Hdb; cbn.
      { eexists _, _, _, _. split; [reflexivity |].
        split; [trace_eq | done]. }
      eexists _, _, _, _. split; [reflexivity |].
      split; [trace_eq |].
      intros _. repeat split; try done. by exists resp_bytes, rd, rs, rs'.
  - intros greeting Hlen. unfold with_greeting. cbn.
    rewrite string_of_list_byte_length, length_take, length_drop. lia.
  - intros wd0 greeting e conn1 wd1 Hg Hauth.
    destruct (auth_ok (with_greeting greeting conn) s wd (sk_open sk))
      as (e' & conn' & wd' & Hrun & Hopen & _ & Hconn); [by exists sk |].
    rewrite Hauth in Hrun. injection Hrun as <- <- <-.
    destruct (sock_Close_ok s wd1 _ Hopen) as (e' & wd2 & Hrun2 & Hclosed & _ & Hlast).
    exists wd2. rewrite dial_split. unfold bind at 1. rewrite Hg.
    unfold bind at 1. rewrite Hauth. unfold bind. rewrite Hrun2.
    split; [reflexivity |]. rewrite Hconn. done.
  - intros Huser. apply String.eqb_neq in Huser. split.
    + intros Hsalt. unfold auth. rewrite Huser, Hsalt. reflexivity.
    + intros Hsalt scr es Hscr. apply String.eqb_neq in Hsalt.
      unfold auth. rewrite Huser, Hsalt, Hscr.
      destruct es as [e0 |]; [reflexivity |].
      cbv zeta. intros packet ep Hpack.
      unfold auth_request in Hpack.
      unfold bind at 1, writeAuthRequest.
      destruct (NewRequest (requestId conn) AuthRequest) as [request counter].
      cbn [fst snd opts set_requestId] in Hpack |- *. rewrite Hpack.
      destruct ep as [e0 |]; [reflexivity |].
      destruct (rm_write (sk_remote sk)) as [| n e0] eqn:Hw.
      2: { unfold bind, write, bind, w_Write. rewrite Hsk, Hw. reflexivity. }
      destruct (rm_flush (sk_remote sk)) as [e0 |] eqn:Hfl.
      { unfold bind, write, bind, w_Write. rewrite Hsk, Hw. cbn.
        rewrite Nat.eqb_refl. cbn. unfold w_Flush. cbn. rewrite Hsk, Hfl. reflexivity. }
      intros bytes er rd' Hrd.
      unfold bind, write, bind, w_Write. rewrite Hsk, Hw. cbn.
      rewrite Nat.eqb_refl. cbn. unfold w_Flush. cbn. rewrite Hsk, Hfl. cbn.
      unfold readAuthResponse, bind, read. cbn. rewrite Hsk, Hrd.
      destruct er as [e0 |]; cbn.
      { eexists. split; [reflexivity |]. split; reflexivity. }
      destruct (decodeHeader (Response_of bytes)) as [rs [e0 |]]; cbn.
      { eexists. split; [reflexivity |]. split; [reflexivity |].
        intros rs0 eh [= <- <-]. reflexivity. }
      destruct (decodeBody rs) as [rs' [e0 |]] eqn:Hdb; cbn.
      { eexists. split; [reflexivity |]. split; [reflexivity |].
        intros rs0 eh [= <- <-]. intros rs1 eb Hb.
        rewrite Hdb in Hb. injection Hb as <- <-. reflexivity. }
      eexists. split; [reflexivity |]. split; [reflexivity |].
      intros rs0 eh [= <- <-]. intros rs1 eb Hb.
      rewrite Hdb in Hb. injection Hb as <- <-. reflexivity.
Qed.

End EngineFacts.


Lemma Close_once_witness :
  let conn' := set_requests ∅ (set_socket None None None
                 (set_control ChanClosed (set_closed true Sample.live_conn))) in
  exists wd',
    Close Sample.live_conn (Sample.live_world []) = Ok ((None, conn'), wd') /\
    (forall rid f fu, requests Sample.live_conn !! rid = Some f ->
       futures (Sample.live_world []) !! f = Some fu ->
       futures wd' !! f = Some (failed_with (errors_New "client closed connection") fu)) /\
    trace wd' = trace (Sample.live_world []) ++ [EvClose 0] /\
    Close conn' wd' = Panic "close of closed channel" /\
    (forall conn2 wd2, control conn2 = ChanClosed ->
       Close conn2 wd2 = Panic "close of closed channel") /\
    (forall neterr, closeConnection neterr conn' wd' = Ok ((None, conn'), wd')).
Proof.
  apply (Close_once Sample.live_conn (Sample.live_world []) 0%nat
           {| sk_remote := Sample.peer []; sk_reader := Frame.mkReader [] io_EOF [];
              sk_open := true |}).
  - reflexivity.
  - reflexivity.
  - reflexivity.
  - apply registry_pendingb_sound. vm_compute. reflexivity.
Defined.

(** C2 fails on the code: after a first [Close] that returned, the second
    one panics instead of returning. *)
Lemma Close_twice_counterexample :
  match Close Sample.live_conn (Sample.live_world []) with
  | Ok ((_, conn1), wd1) =>
    Close conn1 wd1 = Panic "close of closed channel" /\
    ~ (exists e, Close conn1 wd1 = Ok ((e, conn1), wd1))
  | Panic _ => False
  end.
Proof.
  vm_compute. split; [reflexivity |]. intros [e He]. discriminate He.
Qed.


Lemma zero_length_frame_rejected_witness :
  let input := [xce; x00; x00; x00; x00; x01]%byte in
  let rd' := Frame.mkReader [x01]%byte io_EOF [5%nat] in
  let e := errors_New "Response should not be 0 length" in
  let sk := {| sk_remote := Sample.peer input; sk_reader := Frame.mkReader input io_EOF [];
               sk_open := true |} in
  Frame.read (Frame.mkReader input io_EOF []) = ([], Some e, rd') /\
  reader_turn 0 Sample.live_conn (Sample.live_world input)
    = (run (_, conn) <- closeConnection e Sample.live_conn ;; ret (Some true, conn))
        (after_read 0 sk rd' (Sample.live_world input)) /\
  readAuthResponse 0 (Sample.live_world input)
    = Ok (Some (errors_New ("auth: read error " +:+ e)),
          after_read 0 sk rd' (Sample.live_world input)).
Proof.
  intros input rd' e sk.
  destruct (zero_length_frame_rejected x00 x00 x00 x00 [x01]%byte io_EOF [] eq_refl)
    as [Hread Hloop].
  split; [exact Hread |].
  apply (Hloop 0%nat Sample.live_conn (Sample.live_world input) 0%nat sk); reflexivity.
Defined.

Lemma dial_atomic_witness :
  let lost := {| rm_first_read := inl "connection reset by peer"%string;
                 rm_input := []; rm_tail := io_EOF;
                 rm_write := WriteAll; rm_flush := None; rm_close := None |} in
  let answer := [xce; x00; x00; x00; x02; x01; x2a]%byte in
  let conn := Sample.user_conn in
  let s : nat := fresh (dom (socks (Sample.empty_world []))) in
  s = 0%nat /\
  dial conn (Sample.empty_world [])
    = Ok ((Some "dial tcp: connection refused"%string, conn),
          refused (addr conn) [] (Sample.empty_world [])) /\
  dial conn (Sample.empty_world [inl "no route to host"%string])
    = Ok ((Some "no route to host"%string, conn),
          refused (addr conn) [] (Sample.empty_world [inl "no route to host"%string])) /\
  dial conn (Sample.empty_world [inr lost])
    = Ok ((Some "connection reset by peer"%string, conn),
          hung_up s {| sk_remote := lost; sk_reader := Frame.mkReader [] io_EOF [];
                       sk_open := true |}
                  (dialed (addr conn) lost [] [] (Sample.empty_world [inr lost]))) /\
  (exists conn1 wd2 sk2,
     auth (with_greeting Sample.greeting_bytes conn) (Some s) (Some s)
          (Sample.greeted_world [])
       = Ok ((Some "auth: read error EOF"%string, conn1), wd2) /\
     dial conn (Sample.empty_world [inr (Sample.peer [])])
       = Ok ((Some "auth: read error EOF"%string, conn1), hung_up s sk2 wd2) /\
     connection conn1 = None /\ r conn1 = None /\ w conn1 = None) /\
  (exists conn1 wd2 sk2,
     auth (with_greeting Sample.greeting_bytes conn) (Some s) (Some s)
          (Sample.greeted_world answer)
       = Ok ((None, conn1), wd2) /\
     dial conn (Sample.empty_world [inr (Sample.peer answer)])
       = Ok ((None, set_socket (Some s) (Some s) (Some s) conn1), wd2) /\
     socks wd2 !! s = Some sk2 /\ sk_open sk2 = true).
Proof.
  intros lost answer conn s.
  split; [vm_compute; reflexivity |].
  split; [| split; [| split; [| split]]].
  - destruct (dial_atomic conn (Sample.empty_world [])) as (_ & Hnone & _).
    apply Hnone. reflexivity.
  - destruct (dial_atomic conn (Sample.empty_world [inl "no route to host"%string]))
      as (_ & _ & Hrefused & _).
    apply Hrefused. reflexivity.
  - destruct (dial_atomic conn (Sample.empty_world [inr lost])) as (_ & _ & _ & Hmet).
    destruct (Hmet lost [] eq_refl) as [Hunread _].
    apply (Hunread "connection reset by peer"%string). reflexivity.
  - destruct (dial_atomic conn (Sample.empty_world [inr (Sample.peer [])]))
      as (_ & _ & _ & Hmet).
    destruct (Hmet (Sample.peer []) [] eq_refl) as [_ Hread].
    destruct (Hread 128%nat eq_refl)
      as (e & conn1 & wd2 & sk2 & Hauth & _ & _ & Hc & Hr & Hw & Hdial).
    assert (He : Some "auth: read error EOF"%string = e).
    { pose proof Hauth as Hrun. vm_compute in Hrun. injection Hrun as He _ _. exact He. }
    destruct He. exists conn1, wd2, sk2.
    split; [| split; [exact Hdial | split; [exact Hc | split; [exact Hr | exact Hw]]]].
    refine (eq_trans _ Hauth). vm_compute. reflexivity.
  - destruct (dial_atomic conn (Sample.empty_world [inr (Sample.peer answer)]))
      as (_ & _ & _ & Hmet).
    destruct (Hmet (Sample.peer answer) [] eq_refl) as [_ Hread].
    destruct (Hread 128%nat eq_refl)
      as (e & conn1 & wd2 & sk2 & Hauth & Hsk2 & Hopen & _ & _ & _ & Hdial).
    assert (He : None = e).
    { pose proof Hauth as Hrun. vm_compute in Hrun. injection Hrun as He _ _. exact He. }
    destruct He. exists conn1, wd2, sk2.
    split; [| split; [exact Hdial | split; [exact Hsk2 | exact Hopen]]].
    refine (eq_trans _ Hauth). vm_compute. reflexivity.
Defined.

Lemma auth_guest_or_chap_witness :
  let sk more := {| sk_remote := Sample.peer more;
                    sk_reader := Frame.mkReader more io_EOF []; sk_open := true |} in
  let behind rm := {| sk_remote := rm;
                      sk_reader := Frame.mkReader (rm_input rm) (rm_tail rm) [];
                      sk_open := true |} in
  let conn := with_greeting Sample.greeting_bytes Sample.user_conn in
  let answer := [xce; x00; x00; x00; x02; x01; x2a]%byte in
  let packet := [xce; x00; x00; x00; x01; x07]%byte in
  let written wd := add_event (EvWrite 0 packet) wd in
  let flushed wd := add_event (EvFlush 0) (written wd) in
  auth Sample.live_conn (Some 0%nat) (Some 0%nat) (Sample.live_world [])
    = Ok ((None, Sample.live_conn), Sample.live_world []) /\
  (exists e conn' wd' more,
     auth conn (Some 0%nat) (Some 0%nat) (Sample.greeted_world answer)
       = Ok ((e, conn'), wd') /\
     trace wd' = trace (Sample.greeted_world answer) ++ EvWrite 0 packet :: more /\
     (e = None ->
      more = [EvFlush 0; EvReadPacket 0] /\
      rm_write (sk_remote (sk answer)) = WriteAll /\
      rm_flush (sk_remote (sk answer)) = None /\
      exists bytes rd' rs rs',
        Frame.read (sk_reader (sk answer)) = (bytes, None, rd') /\
        decodeHeader (Response_of bytes) = (rs, None) /\
        decodeBody rs = (rs', None))) /\
  (auth conn (Some 0%nat) (Some 0%nat) (Sample.greeted_world answer)
     = Ok ((None, set_requestId 1 conn),
           after_read 0 (sk answer) (Frame.mkReader [] io_EOF [5; 2]%nat)
                      (flushed (Sample.greeted_world answer))) /\
   readAuthResponse 0 (flushed (Sample.greeted_world answer))
     = Ok (None, after_read 0 (sk answer) (Frame.mkReader [] io_EOF [5; 2]%nat)
                            (flushed (Sample.greeted_world answer)))) /\
  (auth conn (Some 0%nat) (Some 0%nat) (Sample.greeted_world [])
     = Ok ((Some "auth: read error EOF"%string, set_requestId 1 conn),
           after_read 0 (sk []) (Frame.mkReader [] io_EOF [5%nat])
                      (flushed (Sample.greeted_world []))) /\
   readAuthResponse 0 (flushed (Sample.greeted_world []))
     = Ok (Some "auth: read error EOF"%string,
           after_read 0 (sk []) (Frame.mkReader [] io_EOF [5%nat])
                      (flushed (Sample.greeted_world [])))) /\
  auth conn (Some 0%nat) (Some 0%nat) (Cases.world_with (Cases.clogged_peer answer))
    = Ok ((Some "auth: flush error broken pipe"%string, set_requestId 1 conn),
          flushed (Cases.world_with (Cases.clogged_peer answer))) /\
  auth conn (Some 0%nat) (Some 0%nat) (Cases.world_with (Cases.deaf_peer answer))
    = Ok ((Some "auth: write error broken pipe"%string, set_requestId 1 conn),
          written (Cases.world_with (Cases.deaf_peer answer))) /\
  auth Sample.user_conn (Some 0%nat) (Some 0%nat) (Sample.greeted_world answer)
    = Ok ((Some "auth: empty greeting"%string, Sample.user_conn),
          Sample.greeted_world answer) /\
  String.length (Greeting.auth (Greeting conn)) = 44%nat /\
  match auth conn (Some 0%nat) (Some 0%nat) (Sample.greeted_world []) with
  | Ok ((Some e, conn1), wd1) =>
    exists wd2,
      dial Sample.user_conn (Sample.empty_world [inr (Sample.peer [])])
        = Ok ((Some e, conn1), wd2) /\
      connection conn1 = None /\ r conn1 = None /\ w conn1 = None /\
      sock_is false 0 wd2 /\ last (trace wd2) = Some (EvClose 0)
  | _ => False
  end.
Proof.
  intros sk behind conn answer packet written flushed.
  assert (Huser : User (opts conn) <> ""%string) by discriminate.
  assert (Hsalt : Greeting.auth (Greeting conn) <> ""%string)
    by (vm_compute; discriminate).
  split; [| split; [| split; [| split; [| split; [| split; [| split; [| split]]]]]]].
  - destruct (auth_guest_or_chap Sample.live_conn 0%nat (sk []) (Sample.live_world []) eq_refl)
      as (Hguest & _).
    apply Hguest. reflexivity.
  - destruct (auth_guest_or_chap conn 0%nat (sk answer) (Sample.greeted_world answer) eq_refl)
      as (_ & Hchap & _).
    apply (Hchap Huser Hsalt (String.list_byte_of_string "secret") packet eq_refl eq_refl).
  - destruct (auth_guest_or_chap conn 0%nat (sk answer) (Sample.greeted_world answer) eq_refl)
      as (_ & _ & _ & _ & Hsteps).
    destruct (Hsteps Huser) as [_ Hrun].
    destruct (Hrun Hsalt (String.list_byte_of_string "secret") None eq_refl
                   packet None eq_refl
                   [x01; x2a]%byte None (Frame.mkReader [] io_EOF [5; 2]%nat) eq_refl)
      as (e & Hauth & Hresp & He).
    pose proof (He _ None eq_refl _ None eq_refl) as Hnone.
    rewrite Hnone in Hauth, Hresp. split; [exact Hauth | exact Hresp].
  - destruct (auth_guest_or_chap conn 0%nat (sk []) (Sample.greeted_world []) eq_refl)
      as (_ & _ & _ & _ & Hsteps).
    destruct (Hsteps Huser) as [_ Hrun].
    destruct (Hrun Hsalt (String.list_byte_of_string "secret") None eq_refl
                   packet None eq_refl
                   [] (Some io_EOF) (Frame.mkReader [] io_EOF [5%nat]) eq_refl)
      as (e & Hauth & Hresp & He).
    cbv beta iota in He. rewrite He in Hauth, Hresp. split; [exact Hauth | exact Hresp].
  - destruct (auth_guest_or_chap conn 0%nat (behind (Cases.clogged_peer answer))
                (Cases.world_with (Cases.clogged_peer answer)) eq_refl)
      as (_ & _ & _ & _ & Hsteps).
    destruct (Hsteps Huser) as [_ Hrun].
    exact (Hrun Hsalt (String.list_byte_of_string "secret") None eq_refl
                packet None eq_refl).
  - destruct (auth_guest_or_chap conn 0%nat (behind (Cases.deaf_peer answer))
                (Cases.world_with (Cases.deaf_peer answer)) eq_refl)
      as (_ & _ & _ & _ & Hsteps).
    destruct (Hsteps Huser) as [_ Hrun].
    exact (Hrun Hsalt (String.list_byte_of_string "secret") None eq_refl
                packet None eq_refl).
  - destruct (auth_guest_or_chap Sample.user_conn 0%nat (sk answer)
                (Sample.greeted_world answer) eq_refl)
      as (_ & _ & _ & _ & Hsteps).
    destruct (Hsteps ltac:(discriminate)) as [Hempty _].
    apply Hempty. reflexivity.
  - destruct (auth_guest_or_chap Sample.user_conn 0%nat (sk []) (Sample.greeted_world []) eq_refl)
      as (_ & _ & Hlen & _).
    apply (Hlen Sample.greeting_bytes). reflexivity.
  - destruct (auth_guest_or_chap Sample.user_conn 0%nat (sk []) (Sample.greeted_world []) eq_refl)
      as (_ & _ & _ & Hfatal & _).
    destruct (auth conn (Some 0%nat) (Some 0%nat) (Sample.greeted_world []))
      as [[[[e |] conn1] wd1] |] eqn:E.
    + apply (Hfatal (Sample.empty_world [inr (Sample.peer [])]) Sample.greeting_bytes
                    e conn1 wd1); [vm_compute; reflexivity | exact E].
    + vm_compute in E. discriminate E.
    + vm_compute in E. discriminate E.
Defined.

(** ** [Connect] *)

(** C3, as the code has it.  [Connect] is not synchronous: it starts
    the writer and the reader and returns at once, without an error and
    without any dial; the connection it returns has no socket, an empty
    registry and the counter at 0.  The dial, the greeting and the
    authentication are the work of [createConnection], which the loops
    call when they find no socket: when [dial] succeeds there,
    [createConnection] returns the reader and the writer that [dial] has
    set. *)
Theorem Connect_returns_at_once `{Package} (a : string) (o : Opts) (wd : World) :
  exists conn,
    Connect a o wd = Ok ((conn, None), add_event (EvGo GoReader) (add_event (EvGo GoWriter) wd)) /\
    connection conn = None /\ r conn = None /\ w conn = None /\
    requests conn = ∅ /\ requestId conn = 0 /\ closed conn = false /\
    control conn = ChanOpen /\ addr conn = a /\ opts conn = o /\
    forall fuel wd1 conn1 wd2,
      dial conn wd1 = Ok ((None, conn1), wd2) ->
      createConnection (S fuel) conn wd1 = Ok ((Some (r conn1, w conn1), conn1), wd2).
Proof.
  eexists. split; [reflexivity |]. repeat (split; [reflexivity |]).
  intros fuel wd1 conn1 wd2 Hdial.
  cbn [createConnection connection closed]. unfold bind. rewrite Hdial. reflexivity.
Qed.

Lemma Connect_returns_at_once_witness :
  let wd := Sample.empty_world [inr (Sample.peer [])] in
  exists conn,
    Connect "127.0.0.1:3301" Sample.guest wd
      = Ok ((conn, None), add_event (EvGo GoReader) (add_event (EvGo GoWriter) wd)) /\
    match createConnection 1 conn (add_event (EvGo GoReader) (add_event (EvGo GoWriter) wd)) with
    | Ok ((rw, conn1), _) => rw = Some (Some 0%nat, Some 0%nat) /\ connection conn1 = Some 0%nat
    | Panic _ => False
    end.
Proof.
  intros wd.
  destruct (Connect_returns_at_once "127.0.0.1:3301" Sample.guest wd)
    as (conn & Hrun & Hc & Hr & Hw & Hreq & Hid & Hcl & Hctl & Ha & Ho & Hcreate).
  exists conn. split; [exact Hrun |].
  injection Hrun as <-.
  match goal with
  | |- context [createConnection 1 ?c ?w0] =>
    destruct (dial c w0) as [[[[e |] conn1] wd2] |] eqn:E
  end.
  - vm_compute in E. discriminate E.
  - rewrite (Hcreate 0%nat _ conn1 wd2 E).
    vm_compute in E. injection E as <- <-. split; reflexivity.
  - vm_compute in E. discriminate E.
Defined.

(** C3 fails on the code: [Connect] returns a connection and no error
    for a server that refuses every dial; nothing was dialed. *)
Lemma Connect_counterexample :
  match Connect "127.0.0.1:3301" Sample.guest
          (Sample.empty_world [inl "connection refused"%string]) with
  | Ok ((conn, e), wd') =>
    e = None /\ connection conn = None /\
    trace wd' = [EvGo GoWriter; EvGo GoReader] /\
    network wd' = [inl "connection refused"%string]
  | Panic _ => False
  end.
Proof. vm_compute. repeat split. Qed.

(** ** The request-id counter *)

Lemma allocate_sorted (n : nat) :
  forall conn : Connection,
    0 <= requestId conn -> requestId conn + Z.of_nat n < 2 ^ 32 ->
    (allocate n conn).1
      = List.map (fun k => requestId conn + Z.of_nat k) (seq 1 n) /\
    Forall (fun v => requestId conn < v) (allocate n conn).1 /\
    StronglySorted Z.lt (allocate n conn).1 /\
    NoDup (allocate n conn).1.
Proof.
  induction n as [| n IH]; intros conn H0 Hn.
  - cbn. repeat split; constructor.
  - cbn [allocate]. unfold nextRequestId.
    assert (Hv : uint32_wrap (requestId conn + 1) = requestId conn + 1).
    { unfold uint32_wrap. apply Z.mod_small. lia. }
    rewrite Hv.
    destruct (IH (set_requestId (requestId conn + 1) conn)) as (Hids & Hgt & Hsort & Hnd).
    { cbn. lia. }
    { cbn. lia. }
    destruct (allocate n (set_requestId (requestId conn + 1) conn)) as [vs conn2].
    cbn [fst requestId set_requestId] in *.
    split; [| split; [| split]].
    + cbn [seq List.map]. f_equal.
      rewrite Hids, <- (seq_shift n 1), List.map_map.
      apply List.map_ext. intros k. lia.
    + constructor; [lia |]. eapply Forall_impl; [exact Hgt |]. cbn. intros v Hlt. lia.
    + constructor; [exact Hsort | exact Hgt].
    + constructor; [| exact Hnd].
      intros Hin. rewrite Forall_forall in Hgt. specialize (Hgt _ Hin). lia.
Qed.

(** C8, as the code has it.  The counter is a [uint32]: every
    allocation returns the counter plus one modulo 2^32, so from
    2^32 - 1 it goes back to 0.  As long as the counter does not pass
    2^32 - 1, the ids of any sequence of allocations (each is one atomic
    step, whoever makes it) are the successors of the counter: each is
    greater than the ones before it and they are pairwise distinct. *)
Theorem nextRequestId_monotonic_below_wrap (n : nat) (conn : Connection) :
  (nextRequestId conn).1 = (requestId conn + 1) mod 2 ^ 32 /\
  (requestId conn = 2 ^ 32 - 1 -> (nextRequestId conn).1 = 0) /\
  (0 <= requestId conn -> requestId conn + Z.of_nat n < 2 ^ 32 ->
   (allocate n conn).1
     = List.map (fun k => requestId conn + Z.of_nat k) (seq 1 n) /\
   Forall (fun v => requestId conn < v) (allocate n conn).1 /\
   StronglySorted Z.lt (allocate n conn).1 /\
   NoDup (allocate n conn).1).
Proof.
  split; [reflexivity |]. split.
  - intros Hmax. cbn. unfold uint32_wrap. rewrite Hmax. reflexivity.
  - apply allocate_sorted.
Qed.

Lemma nextRequestId_monotonic_below_wrap_witness :
  (nextRequestId (set_requestId (2 ^ 32 - 1) Sample.live_conn)).1 = 0 /\
  (allocate 3 Sample.live_conn).1 = [3; 4; 5] /\
  StronglySorted Z.lt (allocate 3 Sample.live_conn).1 /\
  NoDup (allocate 3 Sample.live_conn).1.
Proof.
  destruct (nextRequestId_monotonic_below_wrap 3 (set_requestId (2 ^ 32 - 1) Sample.live_conn))
    as (_ & Hwrap & _).
  destruct (nextRequestId_monotonic_below_wrap 3 Sample.live_conn) as (_ & _ & Hseq).
  split; [apply Hwrap; reflexivity |].
  destruct Hseq as (Hids & _ & Hsort & Hnd); [cbn; lia | cbn; lia |].
  split; [exact Hids |]. split; [exact Hsort | exact Hnd].
Defined.

(** C8 fails on the code: at 2^32 - 1 the next id is 0, which is not
    greater than the id returned before it. *)
Lemma nextRequestId_counterexample :
  (allocate 2 (set_requestId (2 ^ 32 - 2) Sample.live_conn)).1 = [4294967295; 0] /\
  ~ (4294967295 < 0).
Proof. split; [vm_compute; reflexivity | lia]. Qed.

(** ** The pool *)

Module PoolFacts.
Import Pool.

(** C7. A pool operation in mode [RW] while no instance is known as
    read-write returns the error "Can't find rw instance in pool", and
    one in mode [RO] while no instance is known as read-only returns
    "Can't find ro instance in pool"; in both cases no request is handed
    to a connection. *)
Theorem no_instance_for_mode {Req : Type} (req : Req) (p : ConnectionPool) :
  (rw_set p = [] ->
   Do req RW p = (Some "Can't find rw instance in pool"%string, [],
                  mkPool (instances p) (advance RW (cursors p)))) /\
  (ro_set p = [] ->
   Do req RO p = (Some "Can't find ro instance in pool"%string, [],
                  mkPool (instances p) (advance RO (cursors p)))).
Proof.
  split; intros Hempty; unfold Do, getNextConnection, eligible, mode_set;
    rewrite Hempty; reflexivity.
Qed.

Lemma no_instance_for_mode_witness :
  let masters := cluster [("127.0.0.1:3013", false); ("127.0.0.1:3014", false)]%string in
  let replicas := cluster [("127.0.0.1:3013", true); ("127.0.0.1:3014", true)]%string in
  Do "return box.cfg.listen"%string RW replicas
    = (Some "Can't find rw instance in pool"%string, [],
       mkPool (instances replicas) (advance RW (cursors replicas))) /\
  Do "return box.cfg.listen"%string RO masters
    = (Some "Can't find ro instance in pool"%string, [],
       mkPool (instances masters) (advance RO (cursors masters))).
Proof.
  intros masters replicas. split.
  - destruct (no_instance_for_mode "return box.cfg.listen"%string replicas) as [Hrw _].
    apply Hrw. reflexivity.
  - destruct (no_instance_for_mode "return box.cfg.listen"%string masters) as [_ Hro].
    apply Hro. reflexivity.
Defined.

End PoolFacts.

(** ** Runs on concrete inputs *)

(** Two frames in a row: the reader takes them one after the other. *)
Example read_two_frames :
  let rd := Frame.mkReader [xce; x00; x00; x00; x01; x2a; xce; x00; x00; x00; x02; x01; x02]%byte
                           io_EOF [] in
  let '(first, _, rd1) := Frame.read rd in
  let '(second, _, rd2) := Frame.read rd1 in
  first = [x2a]%byte /\ second = [x01; x02]%byte /\
  Frame.pending rd2 = [] /\ Frame.calls rd2 = [5; 1; 5; 2]%nat.
Proof. vm_compute. repeat split. Qed.

(** A stream that ends inside the prefix, and one that ends inside the
    body. *)
Example read_truncated :
  (Frame.read (Frame.mkReader [xce; x00]%byte io_EOF [])).1.2 = Some io_ErrUnexpectedEOF /\
  (Frame.read (Frame.mkReader [] io_EOF [])).1.2 = Some io_EOF /\
  (Frame.read (Frame.mkReader [xce; x00; x00; x00; x03; x01]%byte io_EOF [])).1.2
    = Some io_ErrUnexpectedEOF.
Proof. vm_compute. repeat split. Qed.

(** The cluster [M, R, M, M, R]: three operations in mode [RW] go to the
    servers 0, 2 and 3 in turn, the fourth to server 0 again. *)
Example pool_rw_round_robin :
  let p0 := Pool.cluster [("127.0.0.1:3013", false); ("127.0.0.1:3014", true);
                          ("127.0.0.1:3015", false); ("127.0.0.1:3016", false);
                          ("127.0.0.1:3017", true)]%string in
  let '(_, d1, p1) := Pool.Do tt Pool.RW p0 in
  let '(_, d2, p2) := Pool.Do tt Pool.RW p1 in
  let '(_, d3, p3) := Pool.Do tt Pool.RW p2 in
  let '(_, d4, _) := Pool.Do tt Pool.RW p3 in
  d1 ++ d2 ++ d3 ++ d4
  = [("127.0.0.1:3013", tt); ("127.0.0.1:3015", tt); ("127.0.0.1:3016", tt);
     ("127.0.0.1:3013", tt)]%string.
Proof. vm_compute. reflexivity. Qed.

(** A guest session from [Connect] to the first socket: the trace shows
    that the dial is made by [createConnection]. *)
Example guest_session :
  match Connect "127.0.0.1:3301" Sample.guest (Sample.empty_world [inr (Sample.peer [])]) with
  | Ok ((conn, _), wd) =>
    match createConnection 1 conn wd with
    | Ok ((_, conn1), wd1) =>
      connection conn1 = Some 0%nat /\
      String.length (Greeting.auth (Greeting conn1)) = 44%nat /\
      trace wd1 = [EvGo GoWriter; EvGo GoReader; EvDial "127.0.0.1:3301";
                   EvSetNoDelay 0; EvRead 0 128]
    | Panic _ => False
    end
  | Panic _ => False
  end.
Proof. vm_compute. repeat split. Qed.

(** * More of the engine *)

(** ** Frames on a stream *)

Module WireFacts.
Import Frame Wire.

Lemma int_of_byte_of_Z (z : Z) : int_of_byte (byte_of_Z z) = z mod 256.
Proof.
  unfold int_of_byte, byte_of_Z.
  assert (Hr : 0 <= z mod 256 < 256) by (apply Z.mod_pos_bound; lia).
  destruct (Byte.of_N (Z.to_N (z mod 256))) as [b |] eqn:E.
  - apply Byte.to_of_N in E. cbn. rewrite E. lia.
  - apply Byte.of_N_None_iff in E. lia.
Qed.

Lemma BE32_be32 (n : Z) :
  0 <= n < 2 ^ 32 ->
  BE32 (byte_of_Z (n / 2 ^ 24)) (byte_of_Z (n / 2 ^ 16)) (byte_of_Z (n / 2 ^ 8)) (byte_of_Z n)
  = n.
Proof.
  intros Hn. unfold BE32. rewrite !int_of_byte_of_Z.
  change (2 ^ 24) with 16777216. change (2 ^ 16) with 65536. change (2 ^ 8) with 256.
  change (2 ^ 32) with 4294967296 in Hn.
  Z.div_mod_to_equations. lia.
Qed.

(** [read] on a stream that begins with the frame of [body]. *)
Lemma read_one_frame (body rest : list byte) (te : error) (cs : list nat) :
  body <> [] -> Z.of_nat (length body) < 2 ^ 32 ->
  read (mkReader (frame body ++ rest) te cs)
  = (body, None, mkReader rest te (cs ++ [5%nat; length body])).
Proof.
  intros Hne Hlen. unfold frame, be32. cbn [app].
  rewrite FrameFacts.read_prefix. cbv zeta.
  replace (Byte.eqb xce xce)%byte with true by reflexivity. cbn [negb].
  rewrite BE32_be32 by lia.
  assert (Hpos : (0 < length body)%nat) by (destruct body; [done | cbn; lia]).
  destruct (Z.eqb_spec (Z.of_nat (length body)) 0) as [Hz | _]; [lia |].
  rewrite Nat2Z.id. unfold ReadFull, logged. cbn [pending tail_err calls].
  destruct (Nat.eqb_spec (length body) 0); [lia |].
  rewrite length_app.
  destruct (Nat.leb_spec (length body) (length body + length rest)); [| lia].
  rewrite take_app_length, drop_app_length, <- app_assoc. reflexivity.
Qed.

Lemma read_short (rd : Reader) :
  (length (pending rd) < 5)%nat ->
  read rd = ([], Some (short_read (pending rd) (tail_err rd)),
             mkReader [] (tail_err rd) (calls rd ++ [5%nat])).
Proof.
  intros Hshort. unfold read, ReadFull, PacketLengthBytes, logged.
  cbn [pending tail_err calls Nat.eqb].
  destruct (Nat.leb_spec 5 (length (pending rd))); [lia |]. reflexivity.
Qed.

(** X1. A stream made of the frames of non-empty bodies (each shorter
    than 2^32), one after the other, is read back body by body: as many
    calls of [read] as there are frames return the bodies in order,
    without an error, with two requests per frame (5 bytes, then the
    body), and leave what follows the last frame unread. *)
Theorem read_all_frames (bodies : list (list byte)) (rest : list byte)
    (te : error) (cs : list nat) :
  Forall (fun b : list byte => b <> [] /\ Z.of_nat (length b) < 2 ^ 32) bodies ->
  read_all (length bodies) (mkReader (List.concat (List.map frame bodies) ++ rest) te cs)
  = (bodies, None,
     mkReader rest te (cs ++ List.concat (List.map (fun b => [5%nat; length b]) bodies))).
Proof.
  revert cs. induction bodies as [| body bodies IH]; intros cs Hall.
  - cbn. by rewrite app_nil_r.
  - apply Forall_cons in Hall as [[Hne Hlen] Hall].
    cbn [length read_all List.map List.concat].
    rewrite <- app_assoc, read_one_frame by done.
    rewrite IH by done. by rewrite <- app_assoc.
Qed.

Lemma read_all_frames_witness :
  let bodies := [[x01; x02]; [x2a]]%byte in
  read_all (length bodies)
    (mkReader (List.concat (List.map frame bodies) ++ [x07]%byte) io_EOF [])
  = (bodies, None,
     mkReader [x07]%byte io_EOF
       ([] ++ List.concat (List.map (fun b => [5%nat; length b]) bodies))).
Proof.
  intros bodies.
  apply (read_all_frames bodies [x07]%byte io_EOF []).
  repeat constructor; (discriminate || (cbn; lia)).
Defined.

(** X2. Whatever [read] returns without an error is a frame at the
    head of the stream: the stream began with 0xCE and four length bytes,
    the response is the non-empty run of exactly that many bytes after
    them, and the reader is left right behind it. *)
Theorem read_success_is_frame (rd rd' : Reader) (response : list byte) :
  read rd = (response, None, rd') ->
  exists b1 b2 b3 b4,
    pending rd = xce%byte :: b1 :: b2 :: b3 :: b4 :: response ++ pending rd' /\
    Z.of_nat (length response) = BE32 b1 b2 b3 b4 /\
    response <> [] /\
    tail_err rd' = tail_err rd /\
    calls rd' = calls rd ++ [5%nat; length response].
Proof.
  destruct rd as [p te cs]. intros Hread.
  destruct (Nat.le_gt_cases 5 (length p)) as [Hlong | Hshort].
  2: { rewrite (read_short (mkReader p te cs)) in Hread by exact Hshort.
       discriminate Hread. }
  destruct p as [| b0 [| b1 [| b2 [| b3 [| b4 rest]]]]]; try (cbn in Hlong; lia).
  rewrite FrameFacts.read_prefix in Hread. cbv zeta in Hread.
  destruct (Byte.eqb b0 xce) eqn:Eb; cbn [negb] in Hread; [| discriminate Hread].
  apply Byte.byte_dec_bl in Eb. subst b0.
  destruct (Z.eqb_spec (BE32 b1 b2 b3 b4) 0) as [| Hnz]; [discriminate Hread |].
  pose proof (FrameFacts.BE32_range b1 b2 b3 b4) as Hr.
  unfold ReadFull, logged in Hread. cbn [pending tail_err calls] in Hread.
  destruct (Nat.eqb_spec (Z.to_nat (BE32 b1 b2 b3 b4)) 0) as [| _]; [lia |].
  destruct (Nat.leb_spec (Z.to_nat (BE32 b1 b2 b3 b4)) (length rest)) as [Hle |];
    [| discriminate Hread].
  injection Hread as <- <-. exists b1, b2, b3, b4. cbn [pending tail_err calls].
  rewrite take_drop, length_take, <- app_assoc, Nat.min_l by exact Hle.
  split; [reflexivity |]. split; [lia |]. split; [| split; reflexivity].
  intros Hnil. apply (f_equal length) in Hnil. rewrite length_take in Hnil. cbn in Hnil. lia.
Qed.

Lemma read_success_is_frame_witness :
  exists b1 b2 b3 b4,
    [xce; x00; x00; x00; x01; x2a; x07]%byte
      = xce%byte :: b1 :: b2 :: b3 :: b4 :: [x2a]%byte ++ [x07]%byte /\
    Z.of_nat (length [x2a]%byte) = BE32 b1 b2 b3 b4 /\
    [x2a]%byte <> [] /\
    io_EOF = io_EOF /\
    [5; 1]%nat = [] ++ [5%nat; length [x2a]%byte].
Proof.
  exact (read_success_is_frame
           (mkReader [xce; x00; x00; x00; x01; x2a; x07]%byte io_EOF [])
           (mkReader [x07]%byte io_EOF [5; 1]%nat) [x2a]%byte eq_refl).
Defined.

(** X3. A stream that ends too early.  With fewer than 5 bytes left,
    [read] returns no response and the error of the short read ([io.EOF]
    on an empty stream, [io.ErrUnexpectedEOF] after some bytes, or the
    network error).  With a good prefix but fewer body bytes than it
    declares, [read] returns the partly filled buffer of the declared
    length together with the error of the short read.  In both cases the
    stream is drained. *)
Theorem read_truncated_stream (rd : Reader) :
  ((length (pending rd) < 5)%nat ->
   read rd = ([], Some (short_read (pending rd) (tail_err rd)),
              mkReader [] (tail_err rd) (calls rd ++ [5%nat]))) /\
  (forall b1 b2 b3 b4 rest,
     pending rd = xce%byte :: b1 :: b2 :: b3 :: b4 :: rest ->
     let n := Z.to_nat (BE32 b1 b2 b3 b4) in
     (length rest < n)%nat ->
     read rd = (zero_fill n rest, Some (short_read rest (tail_err rd)),
                mkReader [] (tail_err rd) (calls rd ++ [5%nat; n])) /\
     length (zero_fill n rest) = n).
Proof.
  split; [apply read_short |].
  destruct rd as [p te cs]. intros b1 b2 b3 b4 rest Hp n Hlen.
  cbn [pending tail_err calls] in Hp |- *. subst p.
  - rewrite FrameFacts.read_prefix. cbv zeta.
    replace (Byte.eqb xce xce)%byte with true by reflexivity. cbn [negb].
    destruct (Z.eqb_spec (BE32 b1 b2 b3 b4) 0) as [Hz | _].
    { subst n. rewrite Hz in Hlen. cbn in Hlen. lia. }
    unfold ReadFull, logged. cbn [pending tail_err calls]. fold n.
    destruct (Nat.eqb_spec n 0); [lia |].
    destruct (Nat.leb_spec n (length rest)); [lia |].
    rewrite <- app_assoc. split; [reflexivity |].
    unfold zero_fill. rewrite length_app, length_replicate. lia.
Qed.

Lemma read_truncated_stream_witness :
  read (mkReader [xce; x00]%byte io_EOF [])
    = ([], Some io_ErrUnexpectedEOF, mkReader [] io_EOF [5%nat]) /\
  read (mkReader [xce; x00; x00; x00; x03; x01]%byte "connection reset"%string [])
    = ([x01; x00; x00]%byte, Some "connection reset"%string,
       mkReader [] "connection reset"%string [5; 3]%nat).
Proof.
  split.
  - destruct (read_truncated_stream (mkReader [xce; x00]%byte io_EOF [])) as [Hshort _].
    apply Hshort. cbn. lia.
  - destruct (read_truncated_stream
                (mkReader [xce; x00; x00; x00; x03; x01]%byte "connection reset"%string []))
      as [_ Hbody].
    destruct (Hbody x00 x00 x00 x03 [x01]%byte eq_refl) as [Hread _]; [vm_compute; lia |].
    exact Hread.
Defined.

End WireFacts.

(** ** The request-id counter, beyond the first wrap *)

Lemma allocate_mod (n : nat) :
  forall conn : Connection,
    (allocate n conn).1
      = List.map (fun k => (requestId conn + Z.of_nat k) mod 2 ^ 32) (seq 1 n) /\
    requestId (allocate n conn).2 = (requestId conn + Z.of_nat n) mod 2 ^ 32
    \/ n = O.
Proof.
  induction n as [| n IH]; intros conn; [by right | left].
  cbn [allocate]. unfold nextRequestId, uint32_wrap.
  destruct (IH (set_requestId ((requestId conn + 1) mod 2 ^ 32) conn)) as [[Hids Hc] | ->].
  - destruct (allocate n _) as [vs conn2]. cbn [fst snd requestId set_requestId] in *.
    split.
    + cbn [seq List.map]. f_equal.
      rewrite Hids, <- (seq_shift n 1), List.map_map.
      apply List.map_ext. intros k.
      rewrite Zplus_mod_idemp_l. f_equal. lia.
    + rewrite Hc, Zplus_mod_idemp_l. f_equal. lia.
  - cbn. split; [reflexivity |]. f_equal.
Qed.

Lemma mod_eq_iff (a b : Z) : a mod 2 ^ 32 = b mod 2 ^ 32 <-> (a - b) mod 2 ^ 32 = 0.
Proof.
  split.
  - intros Heq. rewrite Zminus_mod, Heq, Z.sub_diag. reflexivity.
  - intros Hz. apply Z.mod_divide in Hz; [| lia]. destruct Hz as [q Hq].
    replace a with (b + q * 2 ^ 32) by lia. apply Z_mod_plus_full.
Qed.

(** X4. For any number of allocations, the k-th id is the counter plus
    k modulo 2^32, and the counter ends at the counter plus the number of
    allocations modulo 2^32.  So two allocations of a sequence return the
    same id exactly when their positions differ by a multiple of 2^32:
    an id comes back after 2^32 allocations and not before. *)
Theorem request_ids_cycle (n : nat) (conn : Connection) :
  (allocate n conn).1
    = List.map (fun k => (requestId conn + Z.of_nat k) mod 2 ^ 32) (seq 1 n) /\
  (n <> O -> requestId (allocate n conn).2 = (requestId conn + Z.of_nat n) mod 2 ^ 32) /\
  (forall i j a b,
     (allocate n conn).1 !! i = Some a -> (allocate n conn).1 !! j = Some b ->
     (a = b <-> (Z.of_nat i - Z.of_nat j) mod 2 ^ 32 = 0)).
Proof.
  destruct (allocate_mod n conn) as [[Hids Hc] | ->].
  - split; [exact Hids |]. split; [done |].
    intros i j a b Hi Hj. rewrite Hids in Hi, Hj.
    rewrite list_lookup_fmap in Hi, Hj.
    destruct (seq 1 n !! i) as [x |] eqn:Ei; [| discriminate Hi].
    destruct (seq 1 n !! j) as [y |] eqn:Ej; [| discriminate Hj].
    apply lookup_seq in Ei as [-> _], Ej as [-> _].
    cbn in Hi, Hj. injection Hi as <-. injection Hj as <-.
    rewrite mod_eq_iff.
    match goal with
    | |- (?x mod _ = 0) <-> _ => replace x with (Z.of_nat i - Z.of_nat j) by lia
    end.
    reflexivity.
  - split; [reflexivity |]. split; [done |]. intros i j a b Hi. discriminate Hi.
Qed.

Lemma request_ids_cycle_witness :
  (allocate 3 (set_requestId (2 ^ 32 - 2) Sample.live_conn)).1 = [4294967295; 0; 1] /\
  requestId (allocate 3 (set_requestId (2 ^ 32 - 2) Sample.live_conn)).2 = 1 /\
  (4294967295 = 1 <-> (Z.of_nat 0 - Z.of_nat 2) mod 2 ^ 32 = 0).
Proof.
  destruct (request_ids_cycle 3 (set_requestId (2 ^ 32 - 2) Sample.live_conn))
    as (Hids & Hc & Hsame).
  split; [exact Hids |]. split; [apply Hc; discriminate |].
  apply (Hsame 0%nat 2%nat); rewrite Hids; reflexivity.
Defined.

(** ** Dialing and reconnecting *)

Section Reconnect.
Context `{Package}.

Lemma same_session_trans (c1 c2 c3 : Connection) :
  same_session c1 c2 -> same_session c2 c3 -> same_session c1 c3.
Proof.
  unfold same_session. intros (? & ? & ? & ? & ? & ?) (? & ? & ? & ? & ? & ?).
  repeat split; congruence.
Qed.

(** [dial] returns; it touches no future; on success the three socket
    fields are the new socket, on failure they are what they were. *)
Lemma dial_ok (conn : Connection) (wd : World) :
  exists e conn' wd',
    dial conn wd = Ok ((e, conn'), wd') /\
    same_session conn conn' /\
    futures wd' = futures wd /\
    match e with
    | None =>
      exists s, connection conn' = Some s /\ r conn' = Some s /\ w conn' = Some s /\
                sock_is true s wd'
    | Some _ =>
      connection conn' = connection conn /\ r conn' = r conn /\ w conn' = w conn
    end.
Proof.
  rewrite dial_split.
  destruct (dial_greeting_ok conn wd) as (g & wd1 & Hg & Hf1 & Hm).
  unfold bind at 1. rewrite Hg.
  destruct g as [e | [s [greeting [e |]]]].
  - eexists _, _, _. split; [reflexivity |]. done.
  - destruct Hm as [Hopen _].
    destruct (sock_Close_ok s wd1 true Hopen) as (e' & wd2 & Hrun & _ & Hf2 & _).
    unfold bind. rewrite Hrun.
    eexists _, _, _. split; [reflexivity |]. split; [done |].
    split; [congruence | done].
  - destruct Hm as [Hopen _].
    destruct (auth_ok (with_greeting greeting conn) s wd1 true Hopen)
      as (e & conn1 & wd2 & Hrun & Hopen2 & Hf2 & Hconn1).
    unfold bind at 1. rewrite Hrun. destruct e as [e |].
    + destruct (sock_Close_ok s wd2 true Hopen2) as (e' & wd3 & Hrun3 & _ & Hf3 & _).
      unfold bind. rewrite Hrun3.
      eexists _, _, _. split; [reflexivity |].
      rewrite Hconn1. split; [done |]. split; [congruence | done].
    + eexists _, _, _. split; [reflexivity |].
      split; [by rewrite Hconn1 |]. split; [congruence |].
      exists s. done.
Qed.

Lemma createConnection_ok (fuel : nat) :
  forall (conn : Connection) (wd : World),
    attached conn wd ->
    exists res conn' wd',
      createConnection fuel conn wd = Ok ((res, conn'), wd') /\
      attached conn' wd' /\
      same_session conn conn' /\
      futures wd' = futures wd /\
      match res with
      | Some (rd, wr) => rd = r conn' /\ wr = w conn'
      | None => connection conn' = None /\ closed conn' = false
      end.
Proof.
  induction fuel as [| fuel IH]; intros conn wd Hat.
  - cbn. destruct (connection conn) eqn:Hc; [| destruct (closed conn) eqn:Hcl].
    + eexists _, _, _. split; [reflexivity |]. done.
    + eexists _, _, _. split; [reflexivity |]. repeat split; try done.
      all: unfold attached in Hat; rewrite Hc in Hat; by destruct Hat.
    + eexists _, _, _. split; [reflexivity |]. done.
  - cbn [createConnection].
    destruct (connection conn) eqn:Hc; [| destruct (closed conn) eqn:Hcl].
    + eexists _, _, _. split; [reflexivity |]. done.
    + eexists _, _, _. split; [reflexivity |]. repeat split; try done.
      all: unfold attached in Hat; rewrite Hc in Hat; by destruct Hat.
    + destruct (dial_ok conn wd) as (e & conn1 & wd1 & Hrun & Hsame & Hf & Hm).
      unfold bind at 1. rewrite Hrun. destruct e as [e |].
      * destruct Hm as (Hc1 & Hr1 & Hw1).
        assert (Hat1 : forall tr, attached conn1 (add_event tr wd1)).
        { intros tr. unfold attached in Hat |- *. rewrite Hc1, Hc. rewrite Hc in Hat.
          by rewrite Hr1, Hw1. }
        destruct (0 <? Reconnect (opts conn1)).
        -- unfold bind, emit.
           destruct (IH conn1 (add_event (EvSleep (Reconnect (opts conn1))) wd1) (Hat1 _))
             as (res & conn' & wd' & Hrun' & Hat' & Hsame' & Hf' & Hres).
           rewrite Hrun'. eexists _, _, _. split; [reflexivity |].
           split; [done |]. split; [by eapply same_session_trans |].
           split; [| done]. rewrite Hf'. exact Hf.
        -- eexists _, _, _. split; [reflexivity |].
           assert (Hat0 : attached conn1 wd1).
           { unfold attached in Hat |- *. rewrite Hc1, Hc. rewrite Hc in Hat.
             by rewrite Hr1, Hw1. }
           split; [done |]. split; [done |]. split; [done |].
           unfold attached in Hat. rewrite Hc in Hat. destruct Hat.
           split; congruence.
      * destruct Hm as (s & Hc1 & Hr1 & Hw1 & sk & Hsk & _).
        eexists _, _, _. split; [reflexivity |].
        split; [| done]. unfold attached. rewrite Hc1. eauto.
Qed.

Lemma dial_refused (conn : Connection) (wd : World) (e : error)
    (net : list (error + Remote)) :
  network wd = inl e :: net ->
  dial conn wd = Ok ((Some e, conn), refused (addr conn) net wd).
Proof.
  intros Hnet. unfold dial, bind, net_Dial. rewrite Hnet. reflexivity.
Qed.

Lemma dial_guest_ok (conn : Connection) (wd : World) (rm : Remote) (k : nat)
    (net : list (error + Remote)) :
  User (opts conn) = ""%string ->
  network wd = inr rm :: net ->
  rm_first_read rm = inr k ->
  dial conn wd = Ok ((None, (guest_dialed conn rm k net wd).1),
                     (guest_dialed conn rm k net wd).2).
Proof.
  intros Huser Hnet Hfirst.
  unfold dial, bind at 1, net_Dial. rewrite Hnet. cbv zeta.
  unfold bind at 1, emit. unfold bind at 1, conn_Read.
  cbn [socks set_socks add_event]. rewrite lookup_insert_eq.
  cbn [sk_remote]. rewrite Hfirst.
  unfold bind at 1, auth.
  cbn [opts set_Greeting]. rewrite Huser. cbn [String.eqb].
  unfold ret, guest_dialed, with_greeting. cbn [fst snd sk_reader Frame.pending
    Frame.tail_err Frame.calls sk_open futures network trace set_socks add_event tail].
  unfold set_socks, add_event, set_Greeting.
  cbn [futures socks network trace tail].
  rewrite insert_insert_eq, <- !app_assoc. reflexivity.
Qed.

Lemma retried_step (a : string) (d : Z) (n : nat) (net0 net : list (error + Remote))
    (wd : World) :
  retried a d n net (add_event (EvSleep d) (refused a net0 wd)) = retried a d (S n) net wd.
Proof.
  unfold retried, refused, add_event. cbn [futures socks network trace replicate List.concat].
  f_equal. by rewrite <- !app_assoc.
Qed.

Lemma createConnection_retry (errs : list error) :
  forall (conn : Connection) (wd : World) (rm : Remote) (k : nat)
         (net : list (error + Remote)),
    0 < Reconnect (opts conn) ->
    connection conn = None -> closed conn = false ->
    User (opts conn) = ""%string ->
    network wd = List.map inl errs ++ inr rm :: net ->
    rm_first_read rm = inr k ->
    let wd1 := retried (addr conn) (Reconnect (opts conn)) (length errs) (inr rm :: net) wd in
    let s : nat := fresh (dom (socks wd)) in
    createConnection (S (length errs)) conn wd
      = Ok ((Some (Some s, Some s), (guest_dialed conn rm k net wd1).1),
            (guest_dialed conn rm k net wd1).2) /\
    createConnection (length errs) conn wd = Ok ((None, conn), wd1).
Proof.
  induction errs as [| e errs IH]; intros conn wd rm k net Hre Hc Hcl Huser Hnet Hfirst wd1 s.
  - assert (Hwd : wd1 = wd).
    { unfold wd1, retried. cbn [length replicate List.concat]. rewrite app_nil_r.
      cbn in Hnet. rewrite <- Hnet. by destruct wd. }
    rewrite Hwd. split.
    + cbn [length createConnection]. rewrite Hc, Hcl.
      unfold bind. rewrite (dial_guest_ok conn wd rm k net) by done. reflexivity.
    + cbn [length createConnection]. by rewrite Hc, Hcl.
  - cbn [List.map app] in Hnet.
    assert (Hstep : forall fuel,
      createConnection (S fuel) conn wd
      = createConnection fuel conn
          (add_event (EvSleep (Reconnect (opts conn)))
             (refused (addr conn) (List.map inl errs ++ inr rm :: net) wd))).
    { intros fuel. cbn [createConnection]. rewrite Hc, Hcl.
      unfold bind at 1. rewrite (dial_refused conn wd e _ Hnet).
      destruct (Z.ltb_spec 0 (Reconnect (opts conn))); [| lia]. reflexivity. }
    cbn [length]. rewrite !Hstep.
    destruct (IH conn (add_event (EvSleep (Reconnect (opts conn)))
                         (refused (addr conn) (List.map inl errs ++ inr rm :: net) wd))
                 rm k net Hre Hc Hcl Huser eq_refl Hfirst) as [Hfull Hshort].
    rewrite retried_step in Hfull, Hshort. split; [exact Hfull | exact Hshort].
Qed.

(** X5. [createConnection] returns (or runs out of fuel) without a
    panic, whatever the network does.  It keeps the socket fields in
    step, touches no future, and changes nothing of the connection but
    the socket fields, the greeting and the request-id counter.  The
    reader and writer it returns are the ones the connection then holds;
    when it runs out of fuel the connection is still without a socket and
    not closed. *)
Theorem createConnection_keeps_session (fuel : nat) (conn : Connection) (wd : World) :
  attached conn wd ->
  exists res conn' wd',
    createConnection fuel conn wd = Ok ((res, conn'), wd') /\
    attached conn' wd' /\
    same_session conn conn' /\
    futures wd' = futures wd /\
    match res with
    | Some (rd, wr) => rd = r conn' /\ wr = w conn'
    | None => connection conn' = None /\ closed conn' = false
    end.
Proof. apply createConnection_ok. Qed.

(** X6. Reconnection.  With a positive reconnect delay and a guest
    user, when the server refuses the next dials and then answers,
    [createConnection] dials once per refusal, sleeps the delay after
    each, and returns the socket of the first dial that is answered:
    one more dial than there are refusals is enough, and as many dials
    as there are refusals are not. *)
Theorem createConnection_retries (errs : list error) (conn : Connection) (wd : World)
    (rm : Remote) (k : nat) (net : list (error + Remote)) :
  0 < Reconnect (opts conn) ->
  connection conn = None -> closed conn = false ->
  User (opts conn) = ""%string ->
  network wd = List.map inl errs ++ inr rm :: net ->
  rm_first_read rm = inr k ->
  let wd1 := retried (addr conn) (Reconnect (opts conn)) (length errs) (inr rm :: net) wd in
  let s : nat := fresh (dom (socks wd)) in
  createConnection (S (length errs)) conn wd
    = Ok ((Some (Some s, Some s), (guest_dialed conn rm k net wd1).1),
          (guest_dialed conn rm k net wd1).2) /\
  createConnection (length errs) conn wd = Ok ((None, conn), wd1).
Proof. apply createConnection_retry. Qed.

(** X7. A guest dial does not check how much of the greeting it got.
    With an empty user name, [dial] succeeds as soon as [net.Dial] and
    the first [Read] return no error, however few bytes that [Read]
    delivered: the version and the salt are cut out of the zero-padded
    128-byte buffer (64 and 44 bytes), and the bytes the [Read] did not
    deliver, the rest of the greeting among them, stay in the stream of
    the frame reader. *)
Theorem dial_guest_short_greeting (conn : Connection) (wd : World) (rm : Remote) (k : nat)
    (net : list (error + Remote)) :
  User (opts conn) = ""%string ->
  network wd = inr rm :: net ->
  rm_first_read rm = inr k ->
  let conn' := (guest_dialed conn rm k net wd).1 in
  let wd' := (guest_dialed conn rm k net wd).2 in
  dial conn wd = Ok ((None, conn'), wd') /\
  String.length (Greeting.version (Greeting conn')) = 64%nat /\
  String.length (Greeting.auth (Greeting conn')) = 44%nat /\
  exists sk,
    socks wd' !! (fresh (dom (socks wd)) : nat) = Some sk /\
    rm_input rm = take (min k 128) (rm_input rm) ++ Frame.pending (sk_reader sk).
Proof.
  intros Huser Hnet Hfirst conn' wd'.
  split; [by apply dial_guest_ok |].
  assert (Hlen : length (Frame.zero_fill 128 (take (min k 128) (rm_input rm))) = 128%nat).
  { apply zero_fill_length. rewrite length_take. lia. }
  unfold conn', wd', guest_dialed, with_greeting.
  cbn [fst snd Greeting set_socket set_Greeting Greeting.version Greeting.auth socks].
  rewrite !string_of_list_byte_length, !length_take, length_drop, Hlen.
  split; [lia |]. split; [lia |].
  eexists. split; [apply lookup_insert_eq |].
  cbn [sk_reader Frame.pending]. rewrite ?length_take.
  rewrite <- (take_drop (min k 128) (rm_input rm)) at 1. f_equal.
  destruct (Nat.le_gt_cases (min k 128) (length (rm_input rm))) as [Hle | Hgt].
  - by rewrite (Nat.min_l (min k 128) (length (rm_input rm))) by exact Hle.
  - rewrite (Nat.min_r (min k 128) (length (rm_input rm))) by lia.
    rewrite !drop_ge; [done | lia | lia].
Qed.

End Reconnect.

Lemma createConnection_keeps_session_witness :
  exists res conn' wd',
    createConnection 2 Cases.retry_conn
      (Sample.empty_world [inl "connection refused"%string; inr (Sample.peer [])])
      = Ok ((res, conn'), wd') /\
    attached conn' wd' /\
    same_session Cases.retry_conn conn' /\
    futures wd' = ∅ /\
    match res with
    | Some (rd, wr) => rd = r conn' /\ wr = w conn'
    | None => connection conn' = None /\ closed conn' = false
    end.
Proof.
  apply (createConnection_keeps_session 2 Cases.retry_conn
           (Sample.empty_world [inl "connection refused"%string; inr (Sample.peer [])])).
  split; reflexivity.
Defined.

Lemma createConnection_retries_witness :
  let wd := Sample.empty_world
              [inl "connection refused"%string; inl "timeout"%string; inr (Sample.peer [])] in
  let wd1 := retried "127.0.0.1:3301" 100 2 [inr (Sample.peer [])] wd in
  createConnection 3 Cases.retry_conn wd
    = Ok ((Some (Some 0%nat, Some 0%nat),
           (guest_dialed Cases.retry_conn (Sample.peer []) 128 [] wd1).1),
          (guest_dialed Cases.retry_conn (Sample.peer []) 128 [] wd1).2) /\
  createConnection 2 Cases.retry_conn wd = Ok ((None, Cases.retry_conn), wd1).
Proof.
  intros wd wd1.
  apply (createConnection_retries ["connection refused"; "timeout"]%string
           Cases.retry_conn wd (Sample.peer []) 128 []).
  - cbn. lia.
  - reflexivity.
  - reflexivity.
  - reflexivity.
  - reflexivity.
  - reflexivity.
Defined.

Lemma dial_guest_short_greeting_witness :
  let rm := {| rm_first_read := inr 3%nat; rm_input := Sample.greeting_bytes;
               rm_tail := io_EOF; rm_write := WriteAll; rm_flush := None;
               rm_close := None |} in
  let wd := Sample.empty_world [inr rm] in
  let conn' := (guest_dialed Cases.retry_conn rm 3 [] wd).1 in
  let wd' := (guest_dialed Cases.retry_conn rm 3 [] wd).2 in
  dial Cases.retry_conn wd = Ok ((None, conn'), wd') /\
  String.length (Greeting.version (Greeting conn')) = 64%nat /\
  String.length (Greeting.auth (Greeting conn')) = 44%nat /\
  exists sk,
    socks wd' !! (fresh (dom (socks wd)) : nat) = Some sk /\
    rm_input rm = take (min 3 128) (rm_input rm) ++ Frame.pending (sk_reader sk).
Proof.
  intros rm wd conn' wd'.
  apply (dial_guest_short_greeting Cases.retry_conn wd rm 3 []); reflexivity.
Defined.

(** ** The reader and the writer *)

Section Loops.
Context `{Package}.

Lemma attached_socket (conn : Connection) (wd : World) (s : nat) :
  attached conn wd -> (r conn = Some s \/ w conn = Some s) ->
  connection conn = Some s /\ r conn = Some s /\ w conn = Some s /\
  exists sk, socks wd !! s = Some sk.
Proof.
  unfold attached. intros Hat Hs. destruct (connection conn) as [s' |].
  - destruct Hat as (Hr & Hw & Hsk).
    assert (s' = s) as -> by (destruct Hs; congruence). done.
  - destruct Hat as [Hr Hw]. destruct Hs; congruence.
Qed.

(** [closeConnection] keeps the invariants, with or without a socket. *)
Lemma closeConnection_inv (neterr : error) (conn : Connection) (wd : World) :
  attached conn wd -> registry_pending conn wd ->
  exists e conn' wd',
    closeConnection neterr conn wd = Ok ((e, conn'), wd') /\
    attached conn' wd' /\ registry_pending conn' wd' /\
    connection conn' = None /\ packets conn' = packets conn /\
    control conn' = control conn /\ closed conn' = closed conn.
Proof.
  intros Hat Hreg. destruct (connection conn) as [s |] eqn:Hc.
  - unfold attached in Hat. rewrite Hc in Hat. destruct Hat as (_ & _ & sk & Hsk).
    destruct (closeConnection_ok neterr conn wd s sk Hc Hsk Hreg) as (wd' & Hrun & _).
    eexists _, _, wd'. split; [exact Hrun |]. split; [by split |].
    split; [| done]. split; intros *; cbn; by rewrite lookup_empty.
  - eexists _, _, _. split; [by apply closeConnection_idle |]. done.
Qed.

Lemma deliver_ok (rs : Response) (conn : Connection) (wd : World) :
  registry_pending conn wd ->
  exists conn' wd',
    deliver rs conn wd = Ok (conn', wd') /\
    registry_pending conn' wd' /\
    connection conn' = connection conn /\ r conn' = r conn /\ w conn' = w conn /\
    socks wd' = socks wd.
Proof.
  intros Hreg.
  destruct (requests conn !! RequestId rs) as [f |] eqn:Hf.
  - destruct Hreg as [Hopen Hinj]. destruct (Hopen _ _ Hf) as (fu & Hfu & Hc).
    eexists _, _. split; [by apply (deliver_present rs conn wd f fu) |].
    split; [| done].
    eapply deliver_keeps_pending; [split; [exact Hopen | exact Hinj] |].
    by apply (deliver_present rs conn wd f fu).
  - eexists _, _. split; [by apply deliver_absent |]. done.
Qed.

(** A turn of the reader that starts with a socket. *)
Lemma reader_turn_connected (fuel : nat) (conn : Connection) (wd : World) (s : nat) :
  attached conn wd -> registry_pending conn wd -> r conn = Some s ->
  exists conn' wd',
    reader_turn fuel conn wd = Ok ((Some true, conn'), wd') /\
    attached conn' wd' /\ registry_pending conn' wd'.
Proof.
  intros Hat Hreg Hr.
  destruct (attached_socket conn wd s Hat (or_introl Hr)) as (Hc & _ & Hw & sk & Hsk).
  unfold reader_turn. rewrite Hr. unfold bind at 1, ret at 1.
  unfold bind at 1. rewrite (read_ok s sk wd Hsk).
  destruct (Frame.read (sk_reader sk)) as [[bytes e] rd']. cbn [fst snd].
  assert (Hat1 : attached conn (after_read s sk rd' wd)).
  { unfold attached. rewrite Hc. split; [done |]. split; [done |].
    eexists. cbn. apply lookup_insert_eq. }
  assert (Hreg1 : registry_pending conn (after_read s sk rd' wd)) by exact Hreg.
  destruct e as [e |].
  - destruct (closeConnection_inv e conn _ Hat1 Hreg1)
      as (e' & conn' & wd' & Hrun & Hat' & Hreg' & _).
    unfold bind. rewrite Hrun. by eexists _, _.
  - destruct (decodeHeader (Response_of bytes)) as [rs [e |]].
    + destruct (closeConnection_inv e conn _ Hat1 Hreg1)
        as (e' & conn' & wd' & Hrun & Hat' & Hreg' & _).
      unfold bind. rewrite Hrun. by eexists _, _.
    + destruct (deliver_ok rs conn _ Hreg1)
        as (conn' & wd' & Hrun & Hreg' & Hc' & Hr' & Hw' & Hsocks).
      unfold bind. rewrite Hrun. eexists _, _. split; [reflexivity |].
      split; [| done]. unfold attached in Hat1 |- *.
      rewrite Hc', Hr', Hw', Hsocks. exact Hat1.
Qed.

(** A turn that had to call [createConnection] and got a reader goes on
    like a turn that starts with that reader. *)
Lemma reader_turn_after_dial (fuel fuel' : nat) (conn conn1 : Connection) (wd wd1 : World)
    (s : nat) (wr : option nat) :
  r conn = None ->
  createConnection fuel conn wd = Ok ((Some (Some s, wr), conn1), wd1) ->
  r conn1 = Some s ->
  reader_turn fuel conn wd = reader_turn fuel' conn1 wd1.
Proof.
  intros Hr Hcc Hr1. unfold reader_turn. rewrite Hr, Hr1.
  unfold bind at 1. unfold bind at 1. rewrite Hcc. reflexivity.
Qed.

(** X8. The reader loop keeps the invariants of the connection.  From
    a state where the socket fields are in step and the registered
    futures are pending, a turn of the reader never panics (no channel is
    closed twice, no nil reader is used), whatever arrives and whatever
    the network does, and it ends in such a state again. *)
Theorem reader_turn_safe (fuel : nat) (conn : Connection) (wd : World) :
  attached conn wd -> registry_pending conn wd ->
  exists res conn' wd',
    reader_turn fuel conn wd = Ok ((res, conn'), wd') /\
    attached conn' wd' /\ registry_pending conn' wd'.
Proof.
  intros Hat Hreg. destruct (r conn) as [s |] eqn:Hr.
  - destruct (reader_turn_connected fuel conn wd s Hat Hreg Hr) as (conn' & wd' & Hrun & Hinv).
    by eexists _, _, _.
  - destruct (createConnection_ok fuel conn wd Hat)
      as (res & conn1 & wd1 & Hcc & Hat1 & Hsame & Hf & Hres).
    assert (Hreg1 : registry_pending conn1 wd1).
    { destruct Hsame as (_ & Hrq & _). unfold registry_pending. by rewrite <- Hrq, Hf. }
    destruct res as [[[s |] wr] |].
    + destruct Hres as [Hr1 _].
      rewrite (reader_turn_after_dial fuel fuel conn conn1 wd wd1 s wr) by done.
      destruct (reader_turn_connected fuel conn1 wd1 s Hat1 Hreg1 (eq_sym Hr1))
        as (conn' & wd' & Hrun & Hinv).
      by eexists _, _, _.
    + unfold reader_turn. rewrite Hr. unfold bind at 1. unfold bind at 1. rewrite Hcc.
      by eexists _, _, _.
    + unfold reader_turn. rewrite Hr. unfold bind at 1. unfold bind at 1. rewrite Hcc.
      by eexists _, _, _.
Qed.

(** X9. A failed read, or a response whose header does not decode,
    ends the session: the reader closes the socket and fails every
    pending future with that very error; the connection is left without
    a socket and with an empty registry, and the loop goes on. *)
Theorem reader_error_fails_all (fuel : nat) (conn : Connection) (wd : World) (s : nat)
    (sk : Sock) (bytes : list byte) (rd' : Frame.Reader) (e : error) :
  connection conn = Some s -> r conn = Some s ->
  socks wd !! s = Some sk ->
  registry_pending conn wd ->
  (Frame.read (sk_reader sk) = (bytes, Some e, rd') \/
   exists rs, Frame.read (sk_reader sk) = (bytes, None, rd') /\
              decodeHeader (Response_of bytes) = (rs, Some e)) ->
  exists wd',
    reader_turn fuel conn wd
      = Ok ((Some true, set_requests ∅ (set_socket None None None conn)), wd') /\
    (forall rid f fu, requests conn !! rid = Some f -> futures wd !! f = Some fu ->
       futures wd' !! f = Some (failed_with e fu)) /\
    trace wd' = trace wd ++ [EvReadPacket s; EvClose s].
Proof.
  intros Hc Hr Hsk Hreg Hfail.
  destruct (closeConnection_ok e conn (after_read s sk rd' wd) s
              {| sk_remote := sk_remote sk; sk_reader := rd'; sk_open := sk_open sk |}
              Hc) as (wd' & Hrun & Hdone & _ & Ht); [apply lookup_insert_eq | exact Hreg |].
  exists wd'. split; [| split; [exact Hdone |]].
  - unfold reader_turn. rewrite Hr. unfold bind at 1, ret at 1.
    unfold bind at 1. rewrite (read_ok s sk wd Hsk).
    destruct Hfail as [Hread | (rs & Hread & Hdec)]; rewrite Hread; cbn [fst snd].
    + unfold bind. rewrite Hrun. reflexivity.
    + rewrite Hdec. unfold bind. rewrite Hrun. reflexivity.
  - rewrite Ht. cbn. by rewrite <- app_assoc.
Qed.

End Loops.

Lemma reader_turn_safe_witness :
  exists res conn' wd',
    reader_turn 0 Sample.live_conn (Sample.live_world [xce; x00]%byte)
      = Ok ((res, conn'), wd') /\
    attached conn' wd' /\ registry_pending conn' wd'.
Proof.
  apply (reader_turn_safe 0 Sample.live_conn (Sample.live_world [xce; x00]%byte)).
  - split; [reflexivity |]. split; [reflexivity |]. eexists. reflexivity.
  - apply registry_pendingb_sound. vm_compute. reflexivity.
Defined.

Lemma reader_error_fails_all_witness :
  let wd := Sample.live_world [xce; x00]%byte in
  exists wd',
    reader_turn 0 Sample.live_conn wd
      = Ok ((Some true, set_requests ∅ (set_socket None None None Sample.live_conn)), wd') /\
    (forall rid f fu, requests Sample.live_conn !! rid = Some f -> futures wd !! f = Some fu ->
       futures wd' !! f = Some (failed_with io_ErrUnexpectedEOF fu)) /\
    trace wd' = trace wd ++ [EvReadPacket 0; EvClose 0].
Proof.
  intros wd.
  apply (reader_error_fails_all 0 Sample.live_conn wd 0%nat
           {| sk_remote := Sample.peer [xce; x00]%byte;
              sk_reader := Frame.mkReader [xce; x00]%byte io_EOF []; sk_open := true |}
           [] (Frame.mkReader [] io_EOF [5%nat]) io_ErrUnexpectedEOF).
  - reflexivity.
  - reflexivity.
  - reflexivity.
  - apply registry_pendingb_sound. vm_compute. reflexivity.
  - left. reflexivity.
Defined.

Section WriterFacts.
Context `{Package}.

Lemma write_ok (s : nat) (sk : Sock) (data : list byte) (wd : World) :
  socks wd !! s = Some sk ->
  write s data wd = Ok (write_error (rm_write (sk_remote sk)), add_event (EvWrite s data) wd).
Proof.
  intros Hsk. unfold write, bind, w_Write. rewrite Hsk.
  destruct (rm_write (sk_remote sk)); cbn; [| reflexivity].
  rewrite Nat.eqb_refl. reflexivity.
Qed.

(** A turn of the writer that finds a packet and a writer. *)
Lemma writer_turn_packet (fuel : nat) (conn : Connection) (wd : World) (s : nat) (sk : Sock)
    (b : byte) (bs : list byte) (rest : list (list byte)) :
  packets conn = (b :: bs) :: rest ->
  w conn = Some s ->
  socks wd !! s = Some sk ->
  writer_turn fuel conn wd
  = match write_error (rm_write (sk_remote sk)) with
    | Some e =>
      (run (_, conn) <- closeConnection e (set_packets rest conn) ;;
       ret (Some Continue, conn)) (add_event (EvWrite s (b :: bs)) wd)
    | None => Ok ((Some Continue, set_packets rest conn), add_event (EvWrite s (b :: bs)) wd)
    end.
Proof.
  intros Hq Hw Hsk. unfold writer_turn. rewrite Hq.
  unfold bind at 1, ret at 1. cbn [w set_packets]. rewrite Hw.
  unfold bind at 1, ret at 1. unfold bind at 1. rewrite (write_ok s sk _ wd Hsk).
  destruct (write_error _); reflexivity.
Qed.

Lemma writer_run_fifo (fuel : nat) (s : nat) (sk : Sock) (q : list (list byte)) :
  forall (conn : Connection) (wd : World),
    packets conn = q ->
    Forall (fun p : list byte => p <> []) q ->
    w conn = Some s ->
    socks wd !! s = Some sk ->
    rm_write (sk_remote sk) = WriteAll ->
    writer_run (length q) fuel conn wd
    = Ok ((Some Continue, set_packets [] conn), add_events (List.map (EvWrite s) q) wd).
Proof.
  induction q as [| p q IH]; intros conn wd Hq Hall Hw Hsk Hwrite.
  - cbn. unfold ret, add_events. rewrite app_nil_r.
    destruct conn, wd. cbn in Hq. by subst.
  - apply Forall_cons in Hall as [Hp Hall].
    destruct p as [| b bs]; [done |].
    cbn [length writer_run]. unfold bind at 1.
    rewrite (writer_turn_packet fuel conn wd s sk b bs q Hq Hw Hsk), Hwrite.
    cbn [write_error].
    rewrite (IH (set_packets q conn) (add_event (EvWrite s (b :: bs)) wd)); try done.
    unfold add_events, add_event. cbn [futures socks network trace List.map].
    by rewrite <- app_assoc.
Qed.

(** X10. The writer sends the queue in order.  With a writer whose
    writes succeed and a queue of non-nil packets, as many turns as there
    are packets write them to the socket one by one in the order of the
    queue, empty the queue, and change nothing else: no flush, no future
    touched, the registry as it was. *)
Theorem writer_sends_in_order (fuel : nat) (conn : Connection) (wd : World) (s : nat)
    (sk : Sock) :
  Forall (fun p : list byte => p <> []) (packets conn) ->
  w conn = Some s ->
  socks wd !! s = Some sk ->
  rm_write (sk_remote sk) = WriteAll ->
  writer_run (length (packets conn)) fuel conn wd
  = Ok ((Some Continue, set_packets [] conn),
        add_events (List.map (EvWrite s) (packets conn)) wd).
Proof. intros. by eapply writer_run_fifo. Qed.

(** X11. A packet whose write fails is lost, not retried.  The writer
    has taken it off the queue; on the write error it closes the socket
    and fails every pending future with that error, and goes on with the
    rest of the queue on a connection without a socket. *)
Theorem writer_error_drops_packet (fuel : nat) (conn : Connection) (wd : World) (s : nat)
    (sk : Sock) (p : list byte) (rest : list (list byte)) (n : nat) (e : error) :
  packets conn = p :: rest -> p <> [] ->
  connection conn = Some s -> w conn = Some s ->
  socks wd !! s = Some sk ->
  rm_write (sk_remote sk) = WriteFails n e ->
  registry_pending conn wd ->
  exists wd',
    writer_turn fuel conn wd
      = Ok ((Some Continue,
             set_requests ∅ (set_socket None None None (set_packets rest conn))), wd') /\
    (forall rid f fu, requests conn !! rid = Some f -> futures wd !! f = Some fu ->
       futures wd' !! f = Some (failed_with e fu)) /\
    trace wd' = trace wd ++ [EvWrite s p; EvClose s].
Proof.
  intros Hq Hp Hc Hw Hsk Hwrite Hreg. destruct p as [| b bs]; [done |].
  destruct (closeConnection_ok e (set_packets rest conn)
              (add_event (EvWrite s (b :: bs)) wd) s sk Hc Hsk Hreg)
    as (wd' & Hrun & Hdone & _ & Ht).
  exists wd'. split; [| split; [exact Hdone |]].
  - rewrite (writer_turn_packet fuel conn wd s sk b bs rest Hq Hw Hsk), Hwrite.
    cbn [write_error]. unfold bind. rewrite Hrun. reflexivity.
  - rewrite Ht. cbn. by rewrite <- app_assoc.
Qed.

(** X12. The idle writer flushes before it waits.  With an empty
    queue and a writer, a turn flushes the writer and then returns if the
    control channel is closed and blocks otherwise.  A failed flush ends
    the session like a failed write: the socket is closed and every
    pending future fails with the error of the flush. *)
Theorem writer_idle_flushes (fuel : nat) (conn : Connection) (wd : World) (s : nat)
    (sk : Sock) :
  packets conn = [] ->
  connection conn = Some s -> w conn = Some s ->
  socks wd !! s = Some sk ->
  let step := match control conn with ChanClosed => Return | ChanOpen => Parked end in
  (rm_flush (sk_remote sk) = None ->
   writer_turn fuel conn wd = Ok ((Some step, conn), add_event (EvFlush s) wd)) /\
  (forall e, rm_flush (sk_remote sk) = Some e -> registry_pending conn wd ->
   exists wd',
     writer_turn fuel conn wd
       = Ok ((Some step, set_requests ∅ (set_socket None None None conn)), wd') /\
     (forall rid f fu, requests conn !! rid = Some f -> futures wd !! f = Some fu ->
        futures wd' !! f = Some (failed_with e fu)) /\
     trace wd' = trace wd ++ [EvFlush s; EvClose s]).
Proof.
  intros Hq Hc Hw Hsk step. split.
  - intros Hflush. unfold writer_turn. rewrite Hq, Hw.
    unfold bind at 1. unfold bind at 1. unfold bind at 1, w_Flush. rewrite Hsk, Hflush.
    unfold ret at 1. subst step. by destruct (control conn).
  - intros e Hflush Hreg.
    destruct (closeConnection_ok e conn (add_event (EvFlush s) wd) s sk Hc Hsk Hreg)
      as (wd' & Hrun & Hdone & _ & Ht).
    exists wd'. split; [| split; [exact Hdone |]].
    + unfold writer_turn. rewrite Hq, Hw.
      unfold bind at 1. unfold bind at 1. unfold bind at 1, w_Flush. rewrite Hsk, Hflush.
      unfold bind at 1. rewrite Hrun. unfold ret at 1.
      cbn [control set_requests set_socket]. subst step. by destruct (control conn).
    + rewrite Ht. cbn. by rewrite <- app_assoc.
Qed.

End WriterFacts.

Lemma writer_sends_in_order_witness :
  writer_run 2 0 (Cases.queued [[x01]; [x02; x03]]%byte) (Sample.live_world [])
  = Ok ((Some Continue, set_packets [] (Cases.queued [[x01]; [x02; x03]]%byte)),
        add_events [EvWrite 0 [x01]%byte; EvWrite 0 [x02; x03]%byte] (Sample.live_world [])).
Proof.
  apply (writer_sends_in_order 0 (Cases.queued [[x01]; [x02; x03]]%byte)
           (Sample.live_world []) 0%nat
           {| sk_remote := Sample.peer []; sk_reader := Frame.mkReader [] io_EOF [];
              sk_open := true |}).
  - repeat constructor; discriminate.
  - reflexivity.
  - reflexivity.
  - reflexivity.
Defined.

Lemma writer_error_drops_packet_witness :
  let conn := Cases.queued [[x01]; [x02]]%byte in
  let wd := Cases.world_with (Cases.deaf_peer []) in
  exists wd',
    writer_turn 0 conn wd
      = Ok ((Some Continue,
             set_requests ∅ (set_socket None None None (set_packets [[x02]%byte] conn))), wd') /\
    (forall rid f fu, requests conn !! rid = Some f -> futures wd !! f = Some fu ->
       futures wd' !! f = Some (failed_with "broken pipe" fu)) /\
    trace wd' = trace wd ++ [EvWrite 0 [x01]%byte; EvClose 0].
Proof.
  intros conn wd.
  apply (writer_error_drops_packet 0 conn wd 0%nat
           {| sk_remote := Cases.deaf_peer []; sk_reader := Frame.mkReader [] io_EOF [];
              sk_open := true |} [x01]%byte [[x02]%byte] 0 "broken pipe").
  - reflexivity.
  - discriminate.
  - reflexivity.
  - reflexivity.
  - reflexivity.
  - reflexivity.
  - apply registry_pendingb_sound. vm_compute. reflexivity.
Defined.

Lemma writer_idle_flushes_witness :
  writer_turn 0 Sample.live_conn (Sample.live_world [])
    = Ok ((Some Parked, Sample.live_conn), add_event (EvFlush 0) (Sample.live_world [])) /\
  exists wd',
    writer_turn 0 Sample.live_conn (Cases.world_with (Cases.clogged_peer []))
      = Ok ((Some Parked, set_requests ∅ (set_socket None None None Sample.live_conn)), wd') /\
    (forall rid f fu, requests Sample.live_conn !! rid = Some f ->
       futures (Cases.world_with (Cases.clogged_peer [])) !! f = Some fu ->
       futures wd' !! f = Some (failed_with "broken pipe" fu)) /\
    trace wd' = trace (Cases.world_with (Cases.clogged_peer [])) ++ [EvFlush 0; EvClose 0].
Proof.
  split.
  - destruct (writer_idle_flushes 0 Sample.live_conn (Sample.live_world []) 0%nat
                {| sk_remote := Sample.peer []; sk_reader := Frame.mkReader [] io_EOF [];
                   sk_open := true |} eq_refl eq_refl eq_refl eq_refl) as [Hok _].
    apply Hok. reflexivity.
  - destruct (writer_idle_flushes 0 Sample.live_conn (Cases.world_with (Cases.clogged_peer []))
                0%nat
                {| sk_remote := Cases.clogged_peer [];
                   sk_reader := Frame.mkReader [] io_EOF []; sk_open := true |}
                eq_refl eq_refl eq_refl eq_refl) as [_ Herr].
    apply (Herr "broken pipe"%string); [reflexivity |].
    apply registry_pendingb_sound. vm_compute. reflexivity.
Defined.

Section Lifecycle.
Context `{Package}.

Lemma attached_set_packets (q : list (list byte)) (conn : Connection) (wd : World) :
  attached conn wd -> attached (set_packets q conn) wd.
Proof. intros Hat. exact Hat. Qed.

(** The end of a writer's turn, once it holds a non-nil packet. *)
Lemma writer_turn_send_safe (conn : Connection) (wd : World) (s : nat) (data : list byte) :
  attached conn wd -> registry_pending conn wd -> w conn = Some s ->
  exists conn' wd',
    (run e <- write s data ;;
     match e with
     | Some e =>
       run (_, conn) <- closeConnection e conn ;;
       ret (Some Continue, conn)
     | None => ret (Some Continue, conn)
     end) wd = Ok ((Some Continue, conn'), wd') /\
    attached conn' wd' /\ registry_pending conn' wd'.
Proof.
  intros Hat Hreg Hw.
  destruct (attached_socket conn wd s Hat (or_intror Hw)) as (Hc & _ & _ & sk & Hsk).
  unfold bind at 1. rewrite (write_ok s sk data wd Hsk).
  destruct (write_error _) as [e |].
  - destruct (closeConnection_inv e conn (add_event (EvWrite s data) wd) Hat Hreg)
      as (e' & conn' & wd' & Hrun & Hat' & Hreg' & _).
    unfold bind. rewrite Hrun. by eexists _, _.
  - by eexists _, _.
Qed.

(** X13. The writer loop keeps the invariants of the connection.  From
    a state where the socket fields are in step and the registered
    futures are pending, a turn of the writer never panics, whatever is
    in the queue and whatever the network does, and it ends in such a
    state again. *)
Theorem writer_turn_safe (fuel : nat) (conn : Connection) (wd : World) :
  attached conn wd -> registry_pending conn wd ->
  exists res conn' wd',
    writer_turn fuel conn wd = Ok ((res, conn'), wd') /\
    attached conn' wd' /\ registry_pending conn' wd'.
Proof.
  intros Hat Hreg. unfold writer_turn.
  destruct (packets conn) as [| [| b bs] rest] eqn:Hq.
  - (* empty queue *)
    destruct (w conn) as [s |] eqn:Hw.
    + destruct (attached_socket conn wd s Hat (or_intror Hw)) as (Hc & _ & _ & sk & Hsk).
      unfold bind at 1. unfold bind at 1. unfold bind at 1, w_Flush. rewrite Hsk.
      destruct (rm_flush (sk_remote sk)) as [e |].
      * destruct (closeConnection_inv e conn (add_event (EvFlush s) wd) Hat Hreg)
          as (e' & conn' & wd' & Hrun & Hat' & Hreg' & _).
        unfold bind at 1. rewrite Hrun. unfold ret at 1.
        destruct (control conn'); by eexists _, _, _.
      * unfold ret at 1. destruct (control conn); by eexists _, _, _.
    + unfold bind at 1. unfold bind at 1, ret at 1.
      destruct (control conn); by eexists _, _, _.
  - (* a nil packet *)
    unfold bind, ret. by eexists _, _, _.
  - (* a packet *)
    unfold bind at 1, ret at 1. cbn [w set_packets].
    destruct (w conn) as [s |] eqn:Hw.
    + unfold bind at 1, ret at 1.
      destruct (writer_turn_send_safe (set_packets rest conn) wd s (b :: bs))
        as (conn' & wd' & Hrun & Hinv); [done | done | done |].
      rewrite Hrun. by eexists _, _, _.
    + destruct (createConnection_ok fuel (set_packets rest conn) wd)
        as (res & conn1 & wd1 & Hcc & Hat1 & Hsame & Hf & Hres); [done |].
      assert (Hreg1 : registry_pending conn1 wd1).
      { destruct Hsame as (_ & Hrq & _). unfold registry_pending.
        rewrite <- Hrq, Hf. exact Hreg. }
      unfold bind at 1. unfold bind at 1. rewrite Hcc. unfold ret at 1.
      destruct res as [[rd [s |]] |]; cbn [option_map snd].
      * destruct Hres as [_ Hw1].
        destruct (writer_turn_send_safe conn1 wd1 s (b :: bs))
          as (conn' & wd' & Hrun & Hinv); [done | done | done |].
        rewrite Hrun. by eexists _, _, _.
      * by eexists _, _, _.
      * by eexists _, _, _.
Qed.

Lemma reader_turn_closed (fuel : nat) (conn : Connection) (wd : World) :
  connection conn = None -> r conn = None -> closed conn = true ->
  reader_turn fuel conn wd = Ok ((Some false, conn), wd).
Proof.
  intros Hc Hr Hcl. unfold reader_turn. rewrite Hr.
  unfold bind at 1. unfold bind at 1.
  destruct fuel; cbn [createConnection]; rewrite Hc, Hcl; reflexivity.
Qed.

Lemma writer_turn_closed (fuel : nat) (conn : Connection) (wd : World) :
  connection conn = None -> w conn = None -> closed conn = true ->
  control conn = ChanClosed ->
  writer_turn fuel conn wd
  = Ok ((Some Return, set_packets (tail (packets conn)) conn), wd).
Proof.
  intros Hc Hw Hcl Hctl. unfold writer_turn.
  destruct (packets conn) as [| [| b bs] rest] eqn:Hq.
  - rewrite Hw. unfold bind, ret. rewrite Hctl. cbn [tail]. rewrite <- Hq. by destruct conn.
  - reflexivity.
  - unfold bind at 1, ret at 1. cbn [w set_packets]. rewrite Hw.
    unfold bind at 1. unfold bind at 1.
    destruct fuel; cbn [createConnection connection closed set_packets];
      rewrite Hc, Hcl; reflexivity.
Qed.

(** X14. After [Close] both loops end.  A first [Close] (control
    channel open, socket fields in step, registered futures pending)
    returns and leaves the connection closed and without a socket,
    whether it had one or not.  From then on the next turn of the reader
    returns, and so does the next turn of the writer, which takes at most
    one packet off the queue and drops it; neither dials, reads or writes
    anything. *)
Theorem loops_end_after_Close (conn : Connection) (wd : World) :
  attached conn wd -> registry_pending conn wd -> control conn = ChanOpen ->
  exists e conn' wd',
    Close conn wd = Ok ((e, conn'), wd') /\
    closed conn' = true /\ control conn' = ChanClosed /\ connection conn' = None /\
    packets conn' = packets conn /\
    (forall fuel, reader_turn fuel conn' wd' = Ok ((Some false, conn'), wd')) /\
    (forall fuel,
       writer_turn fuel conn' wd'
       = Ok ((Some Return, set_packets (tail (packets conn')) conn'), wd')).
Proof.
  intros Hat Hreg Hctl.
  destruct (closeConnection_inv (errors_New "client closed connection")
              (set_control ChanClosed (set_closed true conn)) wd Hat Hreg)
    as (e & conn' & wd' & Hrun & Hat' & _ & Hc' & Hq' & Hctl' & Hcl').
  exists e, conn', wd'.
  assert (Hrw : r conn' = None /\ w conn' = None).
  { unfold attached in Hat'. by rewrite Hc' in Hat'. }
  destruct Hrw as [Hr' Hw'].
  split; [| repeat split; try done].
  - unfold Close, bind, close_control. cbn [control set_closed]. rewrite Hctl. exact Hrun.
  - intros fuel. by apply reader_turn_closed.
  - intros fuel. by apply writer_turn_closed.
Qed.

End Lifecycle.

Lemma writer_turn_safe_witness :
  exists res conn' wd',
    writer_turn 0 (Cases.queued [[x01]]%byte) (Cases.world_with (Cases.deaf_peer []))
      = Ok ((res, conn'), wd') /\
    attached conn' wd' /\ registry_pending conn' wd'.
Proof.
  apply (writer_turn_safe 0 (Cases.queued [[x01]]%byte)
           (Cases.world_with (Cases.deaf_peer []))).
  - split; [reflexivity |]. split; [reflexivity |]. eexists. reflexivity.
  - apply registry_pendingb_sound. vm_compute. reflexivity.
Defined.

Lemma loops_end_after_Close_witness :
  let conn := Cases.queued [[x01]]%byte in
  let wd := Sample.live_world [] in
  exists e conn' wd',
    Close conn wd = Ok ((e, conn'), wd') /\
    closed conn' = true /\ control conn' = ChanClosed /\ connection conn' = None /\
    packets conn' = packets conn /\
    (forall fuel, reader_turn fuel conn' wd' = Ok ((Some false, conn'), wd')) /\
    (forall fuel,
       writer_turn fuel conn' wd'
       = Ok ((Some Return, set_packets (tail (packets conn')) conn'), wd')).
Proof.
  intros conn wd.
  apply (loops_end_after_Close conn wd).
  - split; [reflexivity |]. split; [reflexivity |]. eexists. reflexivity.
  - apply registry_pendingb_sound. vm_compute. reflexivity.
  - reflexivity.
Defined.

(** ** The errors of [auth] *)

Section AuthErrors.
Context `{Package}.

Lemma writeAuthRequest_tagged (conn conn' : Connection) (s : nat) (scr : list byte)
    (wd wd' : World) (e : error) :
  writeAuthRequest conn s scr wd = Ok ((Some e, conn'), wd') ->
  String.prefix "auth: " e = true.
Proof.
  unfold writeAuthRequest.
  destruct (NewRequest (requestId conn) AuthRequest) as [request counter].
  destruct (pack _) as [packet [e0 |]].
  { intros [= <- _ _]. reflexivity. }
  unfold bind at 1. destruct (write s packet wd) as [[[e0 |] wd1] |]; [| | discriminate].
  { intros [= <- _ _]. reflexivity. }
  unfold bind. destruct (w_Flush s wd1) as [[[e0 |] wd2] |]; [| | discriminate].
  { intros [= <- _ _]. reflexivity. }
  discriminate.
Qed.

Lemma readAuthResponse_tagged (s : nat) (wd wd' : World) (e : error) :
  readAuthResponse s wd = Ok (Some e, wd') ->
  String.prefix "auth: " e = true.
Proof.
  unfold readAuthResponse, bind.
  destruct (read s wd) as [[[bytes [e0 |]] wd1] |]; [| | discriminate].
  { intros [= <- _]. reflexivity. }
  destruct (decodeHeader _) as [rs [e0 |]].
  { intros [= <- _]. reflexivity. }
  destruct (decodeBody _) as [rs' [e0 |]].
  { intros [= <- _]. reflexivity. }
  discriminate.
Qed.

(** X15. Every error [auth] returns says that it comes from the
    authentication: its message begins with "auth: ", whichever step
    failed (missing reader or writer, empty salt, scramble, pack, write,
    flush, read or decoding of the response).  With a user name, a
    missing reader or writer and an empty salt are reported before
    anything is sent, and leave the connection and the world as they
    were. *)
Theorem auth_errors_are_tagged (conn : Connection) (rd wr : option nat) (wd : World) :
  (forall e conn' wd',
     auth conn rd wr wd = Ok ((Some e, conn'), wd') ->
     String.prefix "auth: " e = true) /\
  (User (opts conn) <> ""%string -> rd = None \/ wr = None ->
   auth conn rd wr wd = Ok ((Some (errors_New "auth: reader/writer not ready"), conn), wd)) /\
  (User (opts conn) <> ""%string -> Greeting.auth (Greeting conn) = ""%string ->
   forall s1 s2, rd = Some s1 -> wr = Some s2 ->
   auth conn rd wr wd = Ok ((Some (errors_New "auth: empty greeting"), conn), wd)).
Proof.
  split; [| split].
  - intros e conn' wd'. unfold auth.
    destruct (String.eqb (User (opts conn)) ""); [discriminate |].
    destruct rd as [s1 |]; [| intros [= <- _ _]; reflexivity].
    destruct wr as [s2 |]; [| intros [= <- _ _]; reflexivity].
    destruct (String.eqb (Greeting.auth (Greeting conn)) "").
    { intros [= <- _ _]. reflexivity. }
    destruct (scramble _ _) as [scr [e0 |]].
    { intros [= <- _ _]. reflexivity. }
    unfold bind at 1.
    destruct (writeAuthRequest conn s2 scr wd) as [[[[e0 |] conn1] wd1] |] eqn:Hw;
      [| | discriminate].
    { intros [= <- _ _]. by eapply writeAuthRequest_tagged. }
    unfold bind.
    destruct (readAuthResponse s1 wd1) as [[[e0 |] wd2] |] eqn:Hr; [| | discriminate].
    { intros [= <- _ _]. by eapply readAuthResponse_tagged. }
    discriminate.
  - intros Huser Hnil. unfold auth. apply String.eqb_neq in Huser. rewrite Huser.
    destruct Hnil as [-> | ->]; [reflexivity | by destruct rd].
  - intros Huser Hsalt s1 s2 -> ->. unfold auth.
    apply String.eqb_neq in Huser. rewrite Huser, Hsalt. reflexivity.
Qed.

End AuthErrors.

Lemma auth_errors_are_tagged_witness :
  String.prefix "auth: " "auth: read error EOF" = true /\
  auth Sample.user_conn None (Some 0%nat) (Sample.greeted_world [])
    = Ok ((Some (errors_New "auth: reader/writer not ready"), Sample.user_conn),
          Sample.greeted_world []) /\
  auth Sample.user_conn (Some 0%nat) (Some 0%nat) (Sample.greeted_world [])
    = Ok ((Some (errors_New "auth: empty greeting"), Sample.user_conn),
          Sample.greeted_world []).
Proof.
  split; [| split].
  - destruct (auth_errors_are_tagged (with_greeting Sample.greeting_bytes Sample.user_conn)
                (Some 0%nat) (Some 0%nat) (Sample.greeted_world [])) as (Htag & _).
    destruct (auth (with_greeting Sample.greeting_bytes Sample.user_conn)
                (Some 0%nat) (Some 0%nat) (Sample.greeted_world []))
      as [[[[e |] conn'] wd'] |] eqn:E.
    + specialize (Htag e conn' wd' eq_refl).
      vm_compute in E. injection E as <- _ _. exact Htag.
    + vm_compute in E. discriminate E.
    + vm_compute in E. discriminate E.
  - destruct (auth_errors_are_tagged Sample.user_conn None (Some 0%nat)
                (Sample.greeted_world [])) as (_ & Hnil & _).
    apply Hnil; [discriminate | by left].
  - destruct (auth_errors_are_tagged Sample.user_conn (Some 0%nat) (Some 0%nat)
                (Sample.greeted_world [])) as (_ & _ & Hsalt).
    apply (Hsalt ltac:(discriminate) eq_refl 0%nat 0%nat eq_refl eq_refl).
Defined.

(** ** Responses that come late, and connections that give up *)

Section Edges.
Context `{Package}.

(** X16. A future is completed once.  After the reader has handed a
    response to the future registered under its id, a second response
    with the same id finds no entry: it is logged as unexpected and
    dropped, and the future keeps the first response.  The same happens
    to any response that arrives after [closeConnection] has emptied the
    registry. *)
Theorem late_response_is_dropped (rs rs2 : Response) (conn : Connection) (wd : World)
    (f : nat) (fu : Future) :
  requests conn !! RequestId rs = Some f ->
  futures wd !! f = Some fu ->
  c fu = ChanOpen ->
  RequestId rs2 = RequestId rs ->
  (run conn <- deliver rs conn ;; deliver rs2 conn) wd
    = Ok (set_requests (delete (RequestId rs) (requests conn)) conn,
          add_event (unexpected rs2)
            (set_futures (<[f := fulfilled_with rs fu]> (futures wd)) wd)) /\
  (forall conn0 wd0, requests conn0 = ∅ ->
     deliver rs conn0 wd0 = Ok (conn0, add_event (unexpected rs) wd0)).
Proof.
  intros Hf Hfu Hc Hid. split.
  - unfold bind. rewrite (deliver_present rs conn wd f fu Hf Hfu Hc).
    rewrite deliver_absent; [reflexivity |].
    cbn [requests set_requests]. rewrite Hid. apply lookup_delete_eq.
  - intros conn0 wd0 Hempty. apply deliver_absent. by rewrite Hempty, lookup_empty.
Qed.

(** X17. [Close] on a connection without a socket fails nobody.  It
    sets the closed flag and closes the control channel, and
    [closeConnection] returns at once: the registry and the futures are
    what they were.  Both loops then return at their next turn, so a
    future registered while the connection was down stays pending. *)
Theorem Close_while_disconnected (conn : Connection) (wd : World) :
  connection conn = None -> r conn = None -> w conn = None ->
  control conn = ChanOpen ->
  let conn' := set_control ChanClosed (set_closed true conn) in
  Close conn wd = Ok ((None, conn'), wd) /\
  requests conn' = requests conn /\
  (forall fuel, reader_turn fuel conn' wd = Ok ((Some false, conn'), wd)) /\
  (forall fuel,
     writer_turn fuel conn' wd
     = Ok ((Some Return, set_packets (tail (packets conn')) conn'), wd)).
Proof.
  intros Hc Hr Hw Hctl conn'. split; [| split; [done | split]].
  - unfold Close, bind, close_control. cbn [control set_closed]. rewrite Hctl.
    unfold ret. by apply closeConnection_idle.
  - intros fuel. by apply reader_turn_closed.
  - intros fuel. by apply writer_turn_closed.
Qed.

(** X18. Without a reconnect delay a refused dial is final.  When the
    connection has no socket, is not closed, and [Reconnect] is not
    positive, one refused dial makes [createConnection] return nothing:
    the reader goroutine returns, and so does the writer, after taking a
    packet off the queue and dropping it.  One dial was made, no sleep. *)
Theorem refused_dial_ends_loops (fuel : nat) (conn : Connection) (wd : World) (e : error)
    (net : list (error + Remote)) :
  connection conn = None -> r conn = None -> w conn = None ->
  closed conn = false ->
  Reconnect (opts conn) <= 0 ->
  network wd = inl e :: net ->
  let wd' := refused (addr conn) net wd in
  createConnection (S fuel) conn wd = Ok ((Some (None, None), conn), wd') /\
  reader_turn (S fuel) conn wd = Ok ((Some false, conn), wd') /\
  (forall b bs rest, packets conn = (b :: bs) :: rest ->
     writer_turn (S fuel) conn wd = Ok ((Some Return, set_packets rest conn), wd')).
Proof.
  intros Hc Hr Hw Hcl Hre Hnet wd'.
  assert (Hcc : forall q,
    createConnection (S fuel) (set_packets q conn) wd
    = Ok ((Some (None, None), set_packets q conn), wd')).
  { intros q. cbn [createConnection connection closed set_packets]. rewrite Hc, Hcl.
    unfold bind. rewrite (dial_refused (set_packets q conn) wd e net Hnet).
    cbn [opts set_packets]. destruct (Z.ltb_spec 0 (Reconnect (opts conn))); [lia |].
    reflexivity. }
  assert (Hid : set_packets (packets conn) conn = conn) by (by destruct conn).
  split; [| split].
  - specialize (Hcc (packets conn)). by rewrite Hid in Hcc.
  - unfold reader_turn. rewrite Hr. unfold bind at 1. unfold bind at 1.
    specialize (Hcc (packets conn)). rewrite Hid in Hcc. rewrite Hcc. reflexivity.
  - intros b bs rest Hq. unfold writer_turn. rewrite Hq.
    unfold bind at 1, ret at 1. cbn [w set_packets]. rewrite Hw.
    unfold bind at 1. unfold bind at 1. rewrite (Hcc rest). reflexivity.
Qed.

End Edges.

Lemma late_response_is_dropped_witness :
  let rs := mkResponse 1 0 [x2a]%byte in
  let rs2 := mkResponse 1 0 [x2b]%byte in
  let wd := Sample.live_world [] in
  (run conn <- deliver rs Sample.live_conn ;; deliver rs2 conn) wd
    = Ok (set_requests (delete 1 (requests Sample.live_conn)) Sample.live_conn,
          add_event (unexpected rs2)
            (set_futures (<[0%nat := fulfilled_with rs Sample.pending_future]> (futures wd))
               wd)) /\
  (forall conn0 wd0, requests conn0 = ∅ ->
     deliver rs conn0 wd0 = Ok (conn0, add_event (unexpected rs) wd0)).
Proof.
  intros rs rs2 wd.
  apply (late_response_is_dropped rs rs2 Sample.live_conn wd 0%nat Sample.pending_future);
    reflexivity.
Defined.

Lemma Close_while_disconnected_witness :
  let conn' := set_control ChanClosed (set_closed true Sample.user_conn) in
  let wd := Sample.live_world [] in
  Close Sample.user_conn wd = Ok ((None, conn'), wd) /\
  requests conn' = requests Sample.user_conn /\
  (forall fuel, reader_turn fuel conn' wd = Ok ((Some false, conn'), wd)) /\
  (forall fuel,
     writer_turn fuel conn' wd
     = Ok ((Some Return, set_packets (tail (packets conn')) conn'), wd)).
Proof.
  intros conn' wd.
  apply (Close_while_disconnected Sample.user_conn wd); reflexivity.
Defined.

Lemma refused_dial_ends_loops_witness :
  let wd := Sample.empty_world [inl "connection refused"%string] in
  let wd' := refused "127.0.0.1:3301" [] wd in
  createConnection 1 Sample.user_conn wd = Ok ((Some (None, None), Sample.user_conn), wd') /\
  reader_turn 1 Sample.user_conn wd = Ok ((Some false, Sample.user_conn), wd') /\
  (forall b bs rest, packets Sample.user_conn = (b :: bs) :: rest ->
     writer_turn 1 Sample.user_conn wd
     = Ok ((Some Return, set_packets rest Sample.user_conn), wd')).
Proof.
  intros wd wd'.
  apply (refused_dial_ends_loops 0 Sample.user_conn wd "connection refused" []);
    first [reflexivity | cbn; lia].
Defined.

(** ** Package box: what the decoders accept *)

Module BoxFacts.
Import Box.

(** X19. The three response decoders of package box accept an array of
    exactly one entry.  An error of the array header is passed on, and an
    array of any other length is a protocol violation that names the
    length; in both cases the response is left as it was and nothing
    after the header is read.  With one entry the entry is decoded and
    its error passed on: the user-exists and password responses take the
    decoded value even then, the info response only when there is no
    error.  So a decoder returns no error only for a header of length 1
    followed by an entry that decodes. *)
Theorem box_decoders_want_one_entry {D : Type} `{Decoder D} (d : D)
    (uer : UserExistsResponse) (upr : UserPasswordResponse) (ir : InfoResponse) :
  let n := (DecodeArrayLen d).1.1 in
  let e1 := (DecodeArrayLen d).1.2 in
  let d1 := (DecodeArrayLen d).2 in
  (e1 <> None \/ n <> 1 ->
   let e := match e1 with Some _ => e1 | None => Some (protocol_violation n) end in
   UserExistsResponse_DecodeMsgpack uer d = (uer, e, d1) /\
   UserPasswordResponse_DecodeMsgpack upr d = (upr, e, d1) /\
   InfoResponse_DecodeMsgpack ir d = (ir, e, d1)) /\
  (e1 = None -> n = 1 ->
   UserExistsResponse_DecodeMsgpack uer d
     = (mkUserExistsResponse (DecodeBool d1).1.1, (DecodeBool d1).1.2, (DecodeBool d1).2) /\
   UserPasswordResponse_DecodeMsgpack upr d
     = (mkUserPasswordResponse (DecodeString d1).1.1, (DecodeString d1).1.2,
        (DecodeString d1).2) /\
   InfoResponse_DecodeMsgpack ir d
     = (match (DecodeInfo d1).1.2 with
        | Some _ => ir
        | None => mkInfoResponse (DecodeInfo d1).1.1
        end, (DecodeInfo d1).1.2, (DecodeInfo d1).2)) /\
  ((UserExistsResponse_DecodeMsgpack uer d).1.2 = None \/
   (UserPasswordResponse_DecodeMsgpack upr d).1.2 = None \/
   (InfoResponse_DecodeMsgpack ir d).1.2 = None ->
   e1 = None /\ n = 1).
Proof.
  intros n e1 d1. subst n e1 d1.
  unfold UserExistsResponse_DecodeMsgpack, UserPasswordResponse_DecodeMsgpack,
    InfoResponse_DecodeMsgpack.
  destruct (DecodeArrayLen d) as [[n [e1 |]] d1]; cbn [fst snd].
  - split; [| split].
    + intros _. done.
    + intros [=].
    + intros [[=] | [[=] | [=]]].
  - destruct (Z.eqb_spec n 1) as [-> | Hne]; cbn [negb].
    + split; [| split].
      * intros [Hn | Hn]; done.
      * intros _ _.
        destruct (DecodeBool d1) as [[b eb] db].
        destruct (DecodeString d1) as [[h eh] dh].
        destruct (DecodeInfo d1) as [[i [ei |]] di]; done.
      * done.
    + split; [| split].
      * intros _. done.
      * intros _ Hn. done.
      * intros [[=] | [[=] | [=]]].
Qed.

Lemma box_decoders_want_one_entry_witness :
  UserExistsResponse_DecodeMsgpack (mkUserExistsResponse false) [TArray 2; TBool true]
    = (mkUserExistsResponse false,
       Some "protocol violation; expected 1 array entry, got 2"%string, [TBool true]) /\
  UserExistsResponse_DecodeMsgpack (mkUserExistsResponse false) [TArray 1; TBool true]
    = (mkUserExistsResponse true, None, []) /\
  InfoResponse_DecodeMsgpack (mkInfoResponse (mkInfo "3.0" None true "" 7 "running" 0))
      [TArray 1; TBool true]
    = (mkInfoResponse (mkInfo "3.0" None true "" 7 "running" 0), Some wrong_token,
       [TBool true]).
Proof.
  split; [| split].
  - destruct (box_decoders_want_one_entry [TArray 2; TBool true]
                (mkUserExistsResponse false) (mkUserPasswordResponse "")
                (mkInfoResponse (mkInfo "" None false "" 0 "" 0))) as (Hbad & _).
    destruct Hbad as (Hu & _); [right; discriminate |]. exact Hu.
  - destruct (box_decoders_want_one_entry [TArray 1; TBool true]
                (mkUserExistsResponse false) (mkUserPasswordResponse "")
                (mkInfoResponse (mkInfo "" None false "" 0 "" 0))) as (_ & Hone & _).
    destruct Hone as (Hu & _); [reflexivity | reflexivity |]. exact Hu.
  - destruct (box_decoders_want_one_entry [TArray 1; TBool true]
                (mkUserExistsResponse false) (mkUserPasswordResponse "")
                (mkInfoResponse (mkInfo "3.0" None true "" 7 "running" 0))) as (_ & Hone & _).
    destruct Hone as (_ & _ & Hi); [reflexivity | reflexivity |]. exact Hi.
Defined.

End BoxFacts.

(** ** Package decimal: the numbers [MarshalMsgpack] accepts *)

Module DecimalFacts.
Import Decimal.

Section Range.
Context `{Lib}.

Lemma value_max : (value maxSupportedDecimal == inject_Z (10 ^ 38 - 1))%Q.
Proof.
  unfold maxSupportedDecimal, DecimalPrecision.
  rewrite value_Sub, value_New, value_NewFromInt by lia.
  unfold Qminus. rewrite <- inject_Z_opp, <- inject_Z_plus.
  replace (1 * 10 ^ 38 + - (1)) with (10 ^ 38 - 1) by (vm_compute; reflexivity).
  apply Qeq_refl.
Qed.

Lemma value_min : (value minSupportedDecimal == inject_Z (- 10 ^ 38))%Q.
Proof.
  unfold minSupportedDecimal.
  rewrite value_Sub, value_Neg, value_max, value_NewFromInt.
  unfold Qminus. rewrite <- !inject_Z_opp, <- inject_Z_plus.
  replace (- (10 ^ 38 - 1) + - (1)) with (- 10 ^ 38) by (vm_compute; reflexivity).
  apply Qeq_refl.
Qed.

Lemma GreaterThan_max (d : T) :
  GreaterThan d maxSupportedDecimal = true <-> (inject_Z (10 ^ 38 - 1) < value d)%Q.
Proof.
  rewrite GreaterThan_spec, value_max, negb_true_iff, <- not_true_iff_false, Qle_bool_iff.
  split; [apply Qnot_le_lt | apply Qlt_not_le].
Qed.

Lemma LessThan_min (d : T) :
  LessThan d minSupportedDecimal = true <-> (value d < inject_Z (- 10 ^ 38))%Q.
Proof.
  rewrite LessThan_spec, value_min, negb_true_iff, <- not_true_iff_false, Qle_bool_iff.
  split; [apply Qnot_le_lt | apply Qlt_not_le].
Qed.

(** X20. [MarshalMsgpack] hands a number to the BCD encoder exactly
    when its value lies between -10^38 and 10^38 - 1, both included.  A
    greater number is refused as bigger than the maximum, a smaller one
    as lesser than the minimum, before anything is encoded.  The smallest
    number accepted is -10^38, the negated maximum minus one, not the
    -10^38 - 1 that the message names. *)
Theorem MarshalMsgpack_range (d : T) :
  ((inject_Z (10 ^ 38 - 1) < value d)%Q -> MarshalMsgpack d = ([], Some too_big)) /\
  ((value d < inject_Z (- 10 ^ 38))%Q -> MarshalMsgpack d = ([], Some too_small)) /\
  ((inject_Z (- 10 ^ 38) <= value d)%Q -> (value d <= inject_Z (10 ^ 38 - 1))%Q ->
   MarshalMsgpack d
   = match encodeStringToBCD (String d) with
     | (_, Some e) =>
       ([], Some ("msgpack: can't encode string (" +:+ String d
                  +:+ ") to a BCD buffer: " +:+ e))
     | (bcdBuf, None) => (bcdBuf, None)
     end) /\
  too_small
  = "msgpack: decimal number is lesser than minimum supported number (-10^38 - 1)"%string.
Proof.
  split; [| split; [| split]].
  - intros Hbig. unfold MarshalMsgpack.
    apply GreaterThan_max in Hbig. by rewrite Hbig.
  - intros Hsmall. unfold MarshalMsgpack.
    destruct (GreaterThan d maxSupportedDecimal) eqn:Hg.
    + apply GreaterThan_max in Hg. exfalso.
      apply (Qlt_irrefl (value d)). eapply Qlt_trans; [exact Hsmall |].
      eapply Qlt_trans; [| exact Hg]. rewrite <- Zlt_Qlt. lia.
    + apply LessThan_min in Hsmall. by rewrite Hsmall.
  - intros Hlo Hhi. unfold MarshalMsgpack.
    destruct (GreaterThan d maxSupportedDecimal) eqn:Hg.
    { apply GreaterThan_max in Hg. exfalso. by apply (Qlt_not_le _ _ Hg). }
    destruct (LessThan d minSupportedDecimal) eqn:Hl.
    { apply LessThan_min in Hl. exfalso. by apply (Qlt_not_le _ _ Hl). }
    reflexivity.
  - reflexivity.
Qed.

End Range.

Lemma MarshalMsgpack_range_witness :
  MarshalMsgpack (inject_Z (10 ^ 38)) = ([], Some too_big) /\
  MarshalMsgpack (inject_Z (- 10 ^ 38 - 1)) = ([], Some too_small) /\
  MarshalMsgpack (inject_Z (- 10 ^ 38))
    = (String.list_byte_of_string "-100000000000000000000000000000000000000", None).
Proof.
  split; [| split].
  - destruct (@MarshalMsgpack_range rationals (inject_Z (10 ^ 38))) as (Hbig & _).
    apply Hbig. cbn. rewrite <- Zlt_Qlt. lia.
  - destruct (@MarshalMsgpack_range rationals (inject_Z (- 10 ^ 38 - 1))) as (_ & Hsmall & _).
    apply Hsmall. cbn. rewrite <- Zlt_Qlt. lia.
  - destruct (@MarshalMsgpack_range rationals (inject_Z (- 10 ^ 38))) as (_ & _ & Hin & _).
    rewrite Hin; [vm_compute; reflexivity | |]; cbn; rewrite <- Zle_Qle; lia.
Defined.

End DecimalFacts.
